(** * lightning/mydump/reader.go: the dump-file readers

    A shallow embedding of [decodeCharacterSet], [getInsertStatementHeader],
    [MDDataReader] and [RegionReader], followed by the properties of the
    chunked reading of [INSERT INTO ... VALUES] dump files.

    Conventions of the embedding:
    - a Go [[]byte] or [string] is a [list byte];
    - an [int64] is a [Z], with the wrap-around of the arithmetic written
      out ([wrap64]);
    - a dump file is its content: the file exists, can be read and does
      not change; the [*os.File] of a reader is a record holding that
      content, the descriptor offset and whether the descriptor has been
      closed;
    - the mutable reader structs are passed and returned explicitly;
    - a Go function that can panic or loop forever returns an [outcome]. *)

From Stdlib Require Import Strings.String Strings.Byte.
From Stdlib Require Import ZArith List Bool Lia ZifyBool.
Import ListNotations.
Local Open Scope Z_scope.

(** ** Bytes, integers, errors *)

Definition bytes := list byte.

(** [[]byte("...")] *)
Definition B (s : string) : bytes := list_byte_of_string s.

Definition code (b : byte) : Z := Z.of_N (Byte.to_N b).

Definition len {A : Type} (s : list A) : Z := Z.of_nat (length s).

Definition wrap64 (z : Z) : Z := (z + 2 ^ 63) mod 2 ^ 64 - 2 ^ 63.
Definition add64 (a b : Z) : Z := wrap64 (a + b).
Definition sub64 (a b : Z) : Z := wrap64 (a - b).
Definition shl64 (a : Z) (n : Z) : Z := wrap64 (Z.shiftl a n).

Inductive error : Type :=
| EOF                          (* io.EOF *)
| ErrClosed                    (* os.ErrClosed: the descriptor was closed before *)
| EINVAL                       (* lseek to a negative offset *)
| ErrInsertStatementNotFound
| errInvalidSchemaEncoding
| ErrUnsupportedEncoding (characterSet : string)
| ErrTransform (msg : string)  (* an error of the x/text transformer *)
| Trace (e : error).           (* errors.Trace: the error with a stack frame *)

(** [errors.Cause] *)
Fixpoint Cause (e : error) : error :=
  match e with
  | Trace e' => Cause e'
  | _ => e
  end.

Inductive result (A : Type) : Type :=
| Ok (a : A)
| Err (e : error).
Arguments Ok {A} a.
Arguments Err {A} e.

Inductive panic : Type :=
| NilReader      (* method call on the nil *bufio.Reader *)
| MakeSlice      (* makeslice: cap out of range *)
| SliceBounds    (* slice bounds out of range *)
| IndexRange.    (* index out of range *)

Inductive outcome (A : Type) : Type :=
| Ret (a : A)
| Panic (p : panic)
| Diverge.       (* the call never returns *)
Arguments Ret {A} a.
Arguments Panic {A} p.
Arguments Diverge {A}.

Definition bind {A C : Type} (m : outcome A) (k : A -> outcome C) : outcome C :=
  match m with
  | Ret a => k a
  | Panic p => Panic p
  | Diverge => Diverge
  end.

Notation "x <- m ;; k" := (bind m (fun x => k))
  (at level 61, m at next level, right associativity).

(** ** Package bytes / strings *)

Fixpoint Equal (a b : bytes) : bool :=
  match a, b with
  | [], [] => true
  | x :: a', y :: b' => Byte.eqb x y && Equal a' b'
  | _, _ => false
  end.

(** [bytes.HasPrefix(s, prefix)]:
    [len(s) >= len(prefix) && Equal(s[:len(prefix)], prefix)] *)
Definition HasPrefix (s prefix : bytes) : bool :=
  (length prefix <=? length s)%nat && Equal (firstn (length prefix) s) prefix.

(** [bytes.HasSuffix(s, suffix)]:
    [len(s) >= len(suffix) && Equal(s[len(s)-len(suffix):], suffix)] *)
Definition HasSuffix (s suffix : bytes) : bool :=
  (length suffix <=? length s)%nat
  && Equal (skipn (length s - length suffix) s) suffix.

(** The white space of [unicode.IsSpace], as UTF-8 byte sequences.
    One byte: U+0009..U+000D and U+0020.  Two bytes: U+0085 (C2 85) and
    U+00A0 (C2 A0).  Three bytes: U+1680 (E1 9A 80), U+2000..U+200A
    (E2 80 80..8A), U+2028, U+2029, U+202F (E2 80 A8/A9/AF), U+205F
    (E2 81 9F) and U+3000 (E3 80 80). *)
Definition space1 (b0 : byte) : bool :=
  let c := code b0 in ((9 <=? c) && (c <=? 13)) || (c =? 32).

Definition space2 (b0 b1 : byte) : bool :=
  (code b0 =? 194) && ((code b1 =? 133) || (code b1 =? 160)).

Definition space3 (b0 b1 b2 : byte) : bool :=
  let c0 := code b0 in
  let c1 := code b1 in
  let c2 := code b2 in
  ((c0 =? 225) && (c1 =? 154) && (c2 =? 128))
  || ((c0 =? 226) && (c1 =? 128)
      && (((128 <=? c2) && (c2 <=? 138)) || (c2 =? 168) || (c2 =? 169) || (c2 =? 175)))
  || ((c0 =? 226) && (c1 =? 129) && (c2 =? 159))
  || ((c0 =? 227) && (c1 =? 128) && (c2 =? 128)).

(** [TrimLeftFunc(s, unicode.IsSpace)]: [utf8.DecodeRune] yields a white
    space rune exactly when [s] starts with one of the sequences above (an
    invalid byte decodes to U+FFFD, which is no space). *)
Fixpoint trimLeftSpace (s : bytes) : bytes :=
  match s with
  | [] => []
  | b0 :: s1 =>
    if space1 b0 then trimLeftSpace s1
    else
      match s1 with
      | [] => s
      | b1 :: s2 =>
        if space2 b0 b1 then trimLeftSpace s2
        else
          match s2 with
          | [] => s
          | b2 :: s3 => if space3 b0 b1 b2 then trimLeftSpace s3 else s
          end
      end
  end.

(** [TrimRightFunc(s, unicode.IsSpace)] on the reversed sequence:
    [utf8.DecodeLastRune] yields a white space rune exactly when the
    sequence ends with one of the sequences above. *)
Fixpoint trimRightSpaceRev (r : bytes) : bytes :=
  match r with
  | [] => []
  | b0 :: r1 =>
    if space1 b0 then trimRightSpaceRev r1
    else
      match r1 with
      | [] => r
      | b1 :: r2 =>
        if space2 b1 b0 then trimRightSpaceRev r2
        else
          match r2 with
          | [] => r
          | b2 :: r3 => if space3 b2 b1 b0 then trimRightSpaceRev r3 else r
          end
      end
  end.

(** [bytes.TrimSpace] and [strings.TrimSpace]: the ASCII fast path and the
    fall-back to [TrimFunc(s, unicode.IsSpace)] compute the same slice. *)
Definition TrimSpace (s : bytes) : bytes :=
  rev (trimRightSpaceRev (rev (trimLeftSpace s))).

(** The last byte of a non-empty slice, [s[len(s)-1]]. *)
Definition lastByte (s : bytes) : option byte :=
  match rev s with
  | [] => None
  | b :: _ => Some b
  end.

(** [s[len(s)-1] = c] on a non-empty slice. *)
Definition setLast (s : bytes) (c : byte) : bytes := removelast s ++ [c].

(** ** insStmtRegex = [(?i)INSERT INTO .* VALUES]

    Matching is done on bytes.  Under [(?i)] a letter matches both of its
    cases, and [S] also matches U+017F (LATIN SMALL LETTER LONG S, C5 BF),
    the third member of its folding orbit; no other letter of the pattern
    has one.  [.] matches any rune but the newline, an invalid byte
    included; as the literal after [.*] starts with an ASCII byte, [.*]
    may stop before any byte. *)

Definition isUpper (p : byte) : bool := (65 <=? code p) && (code p <=? 90).

Definition eqFold (c p : byte) : bool :=
  Byte.eqb c p || (isUpper p && (code c =? code p + 32)).

(** Match the literal [p] (written in upper case) at the start of [s];
    returns what follows the match. *)
Fixpoint matchLit (p : bytes) (s : bytes) : option bytes :=
  match p with
  | [] => Some s
  | pc :: p' =>
    match s with
    | [] => None
    | c :: s1 =>
      if eqFold c pc then matchLit p' s1
      else if Byte.eqb pc "S"%byte then
        match s1 with
        | d :: s2 => if (code c =? 197) && (code d =? 191) then matchLit p' s2 else None
        | [] => None
        end
      else None
    end
  end.

Definition nl : byte := "010"%byte.

(** [ VALUES] matched with an empty [.*], and [.* VALUES] anchored at
    [s], greedy: the end of the match, counted from the start of [s]. *)
Definition matchValuesHere (s : bytes) : option nat :=
  match matchLit (B " VALUES") s with
  | Some rest => Some (length s - length rest)%nat
  | None => None
  end.

Fixpoint matchDotStarValues (s : bytes) : option nat :=
  match s with
  | [] => matchValuesHere s
  | c :: s' =>
    if Byte.eqb c nl then matchValuesHere s
    else
      match matchDotStarValues s' with
      | Some n => Some (S n)
      | None => matchValuesHere s
      end
  end.

(** The whole pattern anchored at [s]: the length of the match. *)
Definition matchHere (s : bytes) : option nat :=
  match matchLit (B "INSERT INTO ") s with
  | Some rest =>
    match matchDotStarValues rest with
    | Some n => Some (length s - length rest + n)%nat
    | None => None
    end
  | None => None
  end.

(** [insStmtRegex.FindStringIndex(s)], counting from offset [i]: the
    leftmost match. *)
Fixpoint findFrom (s : bytes) (i : nat) : option (nat * nat) :=
  match matchHere s with
  | Some n => Some (i, (i + n)%nat)
  | None =>
    match s with
    | [] => None
    | _ :: s' => findFrom s' (S i)
    end
  end.

Definition FindStringIndex (s : bytes) : option (nat * nat) := findFrom s 0%nat.

(** ** bufio: the successive results of [ReadBytes('\n')] / [ReadString('\n')]

    [readLines data []] lists what the successive calls return on a reader
    over [data]: every line with its delimiter and a nil error, then the
    bytes after the last delimiter (possibly none) with [io.EOF]. *)
Fixpoint readLines (data : bytes) (cur : bytes) : list (bytes * bool) :=
  match data with
  | [] => [(cur, true)]
  | b :: rest =>
    if Byte.eqb b nl then (cur ++ [b], false) :: readLines rest []
    else readLines rest (cur ++ [b])
  end.

(** ** decodeCharacterSet

    The three library functions it calls are parameters: [utf8.Valid],
    [simplifiedchinese.GB18030.NewDecoder().Bytes] and
    [bytes.ContainsRune] for U+FFFD. *)
Section CharacterSet.

Variable utf8_Valid : bytes -> bool.
Variable GB18030_Bytes : bytes -> result bytes.
Variable ContainsRuneError : bytes -> bool.

(** The [case "gb18030"] arm, also reached by [fallthrough]. *)
Definition decodeGB18030 (data : bytes) : result bytes :=
  match GB18030_Bytes data with
  | Err err => Err (Trace err)
  | Ok decoded =>
    if ContainsRuneError decoded then Err errInvalidSchemaEncoding
    else Ok decoded
  end.

Definition decodeCharacterSet (data : bytes) (characterSet : string)
  : result bytes :=
  if (characterSet =? "binary")%string then Ok data
  else if ((characterSet =? "auto") || (characterSet =? "utf8mb4"))%string then
    if utf8_Valid data then Ok data
    else if (characterSet =? "utf8mb4")%string then Err errInvalidSchemaEncoding
    else decodeGB18030 data
  else if (characterSet =? "gb18030")%string then decodeGB18030 data
  else Err (ErrUnsupportedEncoding characterSet).

End CharacterSet.

(** ** os.File *)

Record File : Type := mkFile {
  f_data : bytes;     (* the content of the file *)
  f_off : Z;          (* the offset of the descriptor *)
  f_closed : bool     (* Close has been called *)
}.

Definition os_Open (content : bytes) : File :=
  {| f_data := content; f_off := 0; f_closed := false |}.

(** [f.Seek(offset, io.SeekStart)]; seeking past the end is no error. *)
Definition Seek_Start (f : File) (offset : Z) : File * option error :=
  if f_closed f then (f, Some ErrClosed)
  else if offset <? 0 then (f, Some EINVAL)
  else ({| f_data := f_data f; f_off := offset; f_closed := false |}, None).

(** [f.Seek(0, io.SeekCurrent)] *)
Definition Seek_Current (f : File) : result Z :=
  if f_closed f then Err ErrClosed else Ok (f_off f).

(** [f.Close()]: an error if it has been called before. *)
Definition File_Close (f : File) : File * option error :=
  if f_closed f then (f, Some ErrClosed)
  else ({| f_data := f_data f; f_off := f_off f; f_closed := true |}, None).

(** What a buffered reader over [f] reads: the bytes from the offset on. *)
Definition unread (f : File) : bytes := skipn (Z.to_nat (f_off f)) (f_data f).

(** The descriptor once a buffered reader over it has seen [io.EOF]. *)
Definition drained (f : File) : File :=
  {| f_data := f_data f; f_off := Z.max (f_off f) (len (f_data f));
     f_closed := f_closed f |}.

(** ** MDDataReader

    The field [file] (the path) is left out: the content it names is
    [f_data (fd r)].  [buffer] is [None] for the nil [*bufio.Reader] and
    [Some n] for a reader of size [n].  Offsets and lengths inside a file
    are below 2^63 and are added without wrap-around; the arithmetic on
    the arguments of the callers wraps. *)
Record MDDataReader : Type := mkMDDataReader {
  fd : File;
  fsize : Z;
  start : Z;
  stmtHeader : bytes;
  bufferSize : Z;
  buffer : option Z
}.

Definition set_fd (r : MDDataReader) (f : File) : MDDataReader :=
  {| fd := f; fsize := fsize r; start := start r; stmtHeader := stmtHeader r;
     bufferSize := bufferSize r; buffer := buffer r |}.

(** The loop of [getInsertStatementHeader] over the lines of the file. *)
Fixpoint scanHeader (lines : list (bytes * bool)) : bytes :=
  match lines with
  | [] => []
  | (line, eof) :: rest =>
    if eof then []
    else
      match FindStringIndex line with
      | Some (lo, hi) => firstn (hi - lo) (skipn lo line)
      | None => scanHeader rest
      end
  end.

Definition getInsertStatementHeader (file : bytes) : bytes :=
  scanHeader (readLines file []).

Definition currOffset (r : MDDataReader) : Z :=
  match Seek_Current (fd r) with
  | Ok off => off
  | Err _ => -1
  end.

Definition Tell (r : MDDataReader) : Z := currOffset r.

Definition isAnnotation (line : bytes) : bool :=
  HasPrefix line (B "/*") && HasSuffix line (B "*/;").

(** The loop of [skipAnnotation]: [Some skipSize] when it stops at a line
    that is no annotation, [None] when it stops at [io.EOF]. *)
Fixpoint scanAnnotation (lines : list (bytes * bool)) (skipSize : Z) : option Z :=
  match lines with
  | [] => None
  | (line, eof) :: rest =>
    if eof then None
    else
      let size := length line in
      let line' := TrimSpace (firstn (size - 1) line) in
      if negb (isAnnotation line') then Some skipSize
      else scanAnnotation rest (skipSize + Z.of_nat size)
  end.

(** [skipAnnotation] reads from the current offset of the descriptor.  On
    a closed descriptor [ReadString] returns an empty line with an error
    that is not [io.EOF], and [line[:size-1]] panics.  The error of the
    [Seek] is dropped by the code; a [Seek] that fails (negative target,
    never the case in [NewMDDataReader]) leaves the descriptor where the
    read-ahead of the buffered reader left it: at the end of the file when
    the rest of the file fits its buffer, which is what is taken here. *)
Definition skipAnnotation (r : MDDataReader) (offset : Z)
  : outcome (MDDataReader * Z) :=
  if f_closed (fd r) then Panic SliceBounds
  else
    let f :=
      match scanAnnotation (readLines (unread (fd r)) []) 0 with
      | None => drained (fd r)
      | Some skipSize =>
        let offset := add64 offset skipSize in
        let offset := if offset >? fsize r then fsize r else offset in
        match Seek_Start (fd r) offset with
        | (f', None) => f'
        | (_, Some _) => drained (fd r)
        end
      end in
    let r' := set_fd r f in
    Ret (r', currOffset r').

Definition NewMDDataReader (file : bytes) (offset : Z)
  : outcome (result MDDataReader) :=
  match Seek_Start (os_Open file) offset with
  | (_, Some err) => Ret (Err (Trace err))
  | (f, None) =>
    let mdr := {| fd := f; fsize := len file; start := offset;
                  stmtHeader := getInsertStatementHeader file;
                  bufferSize := 0; buffer := None |} in
    if len (stmtHeader mdr) =? 0 then Ret (Err ErrInsertStatementNotFound)
    else
      p <- skipAnnotation mdr offset ;;
      Ret (Ok (fst p))
  end.

(** [r.fd] is never nil in a reader that [NewMDDataReader] returned. *)
Definition Close (r : MDDataReader) : MDDataReader * option error :=
  match File_Close (fd r) with
  | (_, Some err) => (r, Some (Trace err))
  | (f, None) =>
    ({| fd := f; fsize := fsize r; start := start r; stmtHeader := stmtHeader r;
        bufferSize := 0; buffer := None |}, None)
  end.

Definition Seek (r : MDDataReader) (offset : Z) : outcome (MDDataReader * Z) :=
  skipAnnotation r offset.

Definition acquireBufferReader (r : MDDataReader) (size : Z) : MDDataReader :=
  if size >? bufferSize r then
    {| fd := fd r; fsize := fsize r; start := start r; stmtHeader := stmtHeader r;
       bufferSize := size; buffer := Some size |}
  else r.

(** What [common.AppLogger.Errorf] is given by [appendSQL]. *)
Inductive logEntry : Type :=
| UnexpectStart (first10 : bytes)   (* "Unexpect sql starting : '%s ..'" *)
| UnexpectEnd (last10 : bytes).     (* "Unexpect sql ending : '.. %s'" *)

Record batch : Type := mkBatch {
  stmts : list bytes;
  logs : list logEntry
}.

Definition semicolon : byte := ";"%byte.
Definition comma : byte := ","%byte.

(** The closure [appendSQL] of [Read]; [string(sql)[:10]] and
    [string(sql)[sqlLen-10:]] panic on fewer than ten bytes. *)
Definition appendSQL (stmtHeader : bytes) (sql : bytes) (out : batch)
  : outcome batch :=
  let sql := TrimSpace sql in
  let sqlLen := len sql in
  if sqlLen =? 0 then Ret out
  else if negb (HasPrefix sql stmtHeader) then
    if sqlLen <? 10 then Panic SliceBounds
    else Ret {| stmts := stmts out;
                logs := logs out ++ [UnexpectStart (firstn 10 sql)] |}
  else if sqlLen =? len stmtHeader then Ret out
  else if negb (HasSuffix sql [semicolon]) then
    if HasSuffix sql [comma] then
      Ret {| stmts := stmts out ++ [setLast sql semicolon]; logs := logs out |}
    else if sqlLen <? 10 then Panic SliceBounds
    else Ret {| stmts := stmts out;
                logs := logs out ++ [UnexpectEnd (skipn (length sql - 10) sql)] |}
  else Ret {| stmts := stmts out ++ [sql]; logs := logs out |}.

(** The comment test of [Read] on a non-empty trimmed line. *)
Definition isComment (line : bytes) : bool :=
  match line with
  | [] => false
  | c :: _ =>
    Byte.eqb c "/"%byte && HasPrefix line (B "/*") && HasSuffix line (B "*/")
  end.

Record loopState : Type := mkLoop {
  statement : bytes;
  out : batch;
  readSize : Z
}.

(** How the loop of [Read] ends: by the [break] after the [Seek], or with
    [end] set at [io.EOF]. *)
Inductive loopExit : Type := ExitBudget | ExitEOF.

(** The body of [if len(line) > 0 { ... }] past the comment test: the
    header is put in front of a line that opens a statement without it,
    and a statement that now ends with [;] is handed to [appendSQL];
    [statement[len(statement)-1]] would panic on an empty statement. *)
Definition appendLine (hdr line : bytes) (st : loopState) : outcome loopState :=
  let statement0 :=
    if (len (statement st) =? 0) && negb (HasPrefix line hdr)
    then statement st ++ hdr else statement st in
  let statement1 := statement0 ++ line in
  match lastByte statement1 with
  | Some c =>
    if Byte.eqb c semicolon then
      o <- appendSQL hdr statement1 (out st) ;;
      Ret {| statement := []; out := o; readSize := readSize st |}
    else
      Ret {| statement := statement1; out := out st; readSize := readSize st |}
  | None => Panic IndexRange
  end.

(** The loop of [Read] over the results of [reader.ReadBytes('\n')]. *)
Fixpoint readLoop (hdr : bytes) (minSize : Z) (lines : list (bytes * bool))
  (st : loopState) : outcome (loopState * loopExit) :=
  match lines with
  | [] => Ret (st, ExitEOF)
  | (raw, eof) :: rest =>
    let lineSize := len raw in
    let line := TrimSpace raw in
    if (0 <? len line) && isComment line then
      (* continue *)
      if eof then Ret (st, ExitEOF) else readLoop hdr minSize rest st
    else
      st1 <- (if 0 <? len line then appendLine hdr line st else Ret st) ;;
      let st2 := {| statement := statement st1; out := out st1;
                    readSize := readSize st1 + lineSize |} in
      if readSize st2 >=? minSize then Ret (st2, ExitBudget)
      else if eof then Ret (st2, ExitEOF)
      else readLoop hdr minSize rest st2
  end.

(** [if len(statement) > 0 { appendSQL(statement) }] after the loop. *)
Definition flush (hdr : bytes) (st : loopState) : outcome batch :=
  if 0 <? len (statement st) then appendSQL hdr (statement st) (out st)
  else Ret (out st).

Definition emptyBatch : batch := {| stmts := []; logs := [] |}.

(** [Read]: the reader afterwards, the two results and what was logged.
    [make([]byte, 0, minSize+4096)] panics on a negative capacity (the
    limits of the allocator are not part of the model), and the methods
    of the nil [*bufio.Reader] panic.  On a closed descriptor [currOffset]
    is -1 and every [ReadBytes] returns an empty line with an error that
    is not [io.EOF]: the loop ends only when [0 >= minSize]. *)
Definition Read (r : MDDataReader) (minSize : Z)
  : outcome (MDDataReader * (list bytes * option error) * list logEntry) :=
  let beginPos := currOffset r in
  if beginPos >=? fsize r then Ret (r, ([], Some EOF), [])
  else
    let r := acquireBufferReader r (shl64 minSize 1) in
    if add64 minSize 4096 <? 0 then Panic MakeSlice
    else
      match buffer r with
      | None => Panic NilReader
      | Some _ =>
        if f_closed (fd r) then
          if 0 >=? minSize then Ret (r, ([], None), []) else Diverge
        else
          p <- readLoop (stmtHeader r) minSize (readLines (unread (fd r)) [])
                 {| statement := []; out := emptyBatch; readSize := 0 |} ;;
          let '(st, ex) := p in
          let f :=
            match ex with
            | ExitBudget => fst (Seek_Start (fd r) (beginPos + readSize st))
            | ExitEOF => drained (fd r)
            end in
          o <- flush (stmtHeader r) st ;;
          Ret (set_fd r f, (stmts o, None), logs o)
      end.

(** ** RegionReader *)

Record RegionReader : Type := mkRegionReader {
  fileReader : MDDataReader;
  offset : Z;
  size : Z;
  pos : Z
}.

Definition NewRegionReader (file : bytes) (offset size : Z)
  : outcome (result RegionReader) :=
  res <- NewMDDataReader file offset ;;
  match res with
  | Err err => Ret (Err (Trace err))
  | Ok fileReader =>
    Ret (Ok {| fileReader := fileReader; offset := offset; size := size;
               pos := Tell fileReader |})
  end.

Definition option_Trace (e : option error) : option error :=
  match e with
  | Some err => Some (Trace err)
  | None => None
  end.

Definition RegionRead (r : RegionReader) (maxBlockSize : Z)
  : outcome (RegionReader * (list bytes * option error) * list logEntry) :=
  if pos r >=? add64 (offset r) (size r) then Ret (r, ([], Some EOF), [])
  else
    let readSize := sub64 (add64 (offset r) (size r)) (pos r) in
    let readSize := if maxBlockSize <? readSize then maxBlockSize else readSize in
    p <- Read (fileReader r) readSize ;;
    let '(fr, (datas, err), lg) := p in
    Ret ({| fileReader := fr; offset := offset r; size := size r; pos := Tell fr |},
         (datas, option_Trace err), lg).

Definition RegionTell (r : RegionReader) : Z := pos r.

Definition RegionSeek (r : RegionReader) (p : Z) : outcome RegionReader :=
  res <- Seek (fileReader r) p ;;
  Ret {| fileReader := fst res; offset := offset r; size := size r;
         pos := snd res |}.

Definition RegionSize (r : RegionReader) : Z := size r.

Definition RegionClose (r : RegionReader) : RegionReader * option error :=
  let '(fr, err) := Close (fileReader r) in
  ({| fileReader := fr; offset := offset r; size := size r; pos := pos r |},
   option_Trace err).

(** A text file made of the given lines, each ended by a newline. *)
Definition textFile (lines : list string) : bytes :=
  concat (map (fun l => B l ++ [nl]) lines).

Definition dump4 : bytes :=
  textFile ["INSERT INTO t VALUES"; "(1),"; "(2),"; "(3);"]%string.

(** ** Vocabulary of the properties *)

(** An emitted statement starts with the header and ends with [;]. *)
Definition wellFormed (hdr s : bytes) : Prop :=
  (exists body, s = hdr ++ body) /\ (exists init, s = init ++ [semicolon]).

(** A byte that occurs in the UTF-8 encoding of some white space rune. *)
Definition spaceByte (b : byte) : bool :=
  let c := code b in
  ((9 <=? c) && (c <=? 13)) || (c =? 32)
  || (c =? 194) || (c =? 225) || (c =? 226) || (c =? 227)
  || ((128 <=? c) && (c <=? 138)) || (c =? 154) || (c =? 159) || (c =? 160)
  || (c =? 168) || (c =? 169) || (c =? 175).

(** What every match of [insStmtRegex] looks like: at least the nineteen
    bytes of [INSERT INTO  VALUES], starting with [I] or [i] and ending
    with [S], [s] or the second byte of U+017F. *)
Definition headerOK (h : bytes) : Prop :=
  19 <= len h
  /\ (exists c t, h = c :: t /\ (code c = 73 \/ code c = 105))
  /\ (exists t c, h = t ++ [c]
                  /\ (code c = 83 \/ code c = 115 \/ code c = 191)).

(** The statement under construction is empty or starts with the header. *)
Definition stmtInv (hdr : bytes) (st : loopState) : Prop :=
  statement st = [] \/ exists x, statement st = hdr ++ x.

(** Nothing logged by the prefix test of [appendSQL]. *)
Definition noStart (lg : list logEntry) : Prop :=
  forall s, ~ In (UnexpectStart s) lg.

(** The bytes delivered by a sequence of [ReadBytes] results. *)
Definition linesLen (lines : list (bytes * bool)) : Z :=
  fold_right (fun l n => len (fst l) + n) 0 lines.

(** ** Sample files *)

(** The four lines of the scenario, without the last newline. *)
Definition dump4_unterminated : bytes := removelast dump4.

(** A comment line of the shape [/* ... */;] between two value rows. *)
Definition dumpWithComment : bytes :=
  textFile ["INSERT INTO t VALUES"; "(1),"; "/* comment */;"; "(2);"]%string.

(** Two annotation lines in front of the statement. *)
Definition dumpAnnotated : bytes :=
  textFile ["/*A*/;"; "/*B*/;"; "INSERT INTO t VALUES"; "(1),"; "(2);"]%string.

(** An annotation line followed by a last row without a newline. *)
Definition dumpLastRowUnterminated : bytes :=
  textFile ["INSERT INTO t VALUES"; "/*A*/;"]%string ++ B "(1);".

(** A one-line dump without a newline at its end. *)
Definition dumpOneLine : bytes := B "INSERT INTO t VALUES (1);".

(** What the package [encoding] documents of [Decoder.Bytes], and what
    the GB18030 decoder does: source bytes that are not of the encoding
    do not result in an error; what cannot be decoded is written to the
    output as U+FFFD. *)
Definition reportsNoError (decoder : bytes -> result bytes) : Prop :=
  forall data, exists decoded, decoder data = Ok decoded.

(** A decoder that accepts ASCII and replaces every other byte by U+FFFD
    (EF BF BD): what the GB18030 decoder does with the bytes below 0x80
    and with 0xFF, which starts no GB18030 sequence. *)
Definition asciiDecoder (data : bytes) : result bytes :=
  Ok (flat_map (fun b => if code b <? 128 then [b]
                         else ["239"%byte; "191"%byte; "189"%byte]) data).

Definition isAscii (data : bytes) : bool :=
  forallb (fun b => code b <? 128) data.

(** [ContainsRune] for U+FFFD on the output of [asciiDecoder]. *)
Definition hasEFBFBD (data : bytes) : bool :=
  existsb (fun b => code b =? 239) data.

(** Three successive [Read(10)] on a reader constructed at offset 0. *)
Definition threeReads (file : bytes) : Prop :=
  exists r r1 r2 r3,
    NewMDDataReader file 0 = Ret (Ok r)
    /\ Read r 10 = Ret (r1, ([], None), [])
    /\ Read r1 10 = Ret (r2, ([B "INSERT INTO t VALUES(1),(2);"], None), [])
    /\ Read r2 10 = Ret (r3, ([B "INSERT INTO t VALUES(3);"], None), [])
    /\ Tell r3 = len file
    /\ Read r3 10 = Ret (r3, ([], Some EOF), []).

(** A reader as [NewMDDataReader] returns it and [Read] keeps it. *)
Definition readerOK (r : MDDataReader) : Prop :=
  headerOK (stmtHeader r)
  /\ f_closed (fd r) = false
  /\ fsize r = len (f_data (fd r))
  /\ 0 <= f_off (fd r) <= fsize r
  /\ (buffer r = None -> bufferSize r <= 0).

(** A sequence of [RegionReader.Read] calls, one per block size. *)
Fixpoint RegionReads (rr : RegionReader) (sizes : list Z) : outcome RegionReader :=
  match sizes with
  | [] => Ret rr
  | maxBlockSize :: rest =>
    p <- RegionRead rr maxBlockSize ;;
    RegionReads (fst (fst p)) rest
  end.

(** The reader that [NewMDDataReader dump4 0] returns, the same reader
    once it has read the whole file with a budget of 100, and the region
    of 5 bytes at offset 0. *)
Definition dump4Reader : MDDataReader :=
  {| fd := os_Open dump4; fsize := 36; start := 0;
     stmtHeader := B "INSERT INTO t VALUES"; bufferSize := 0; buffer := None |}.

Definition dump4ReaderAtEnd : MDDataReader :=
  {| fd := {| f_data := dump4; f_off := 36; f_closed := false |};
     fsize := 36; start := 0;
     stmtHeader := B "INSERT INTO t VALUES"; bufferSize := 200;
     buffer := Some 200 |}.

Definition dump4Region : RegionReader :=
  {| fileReader := dump4Reader; offset := 0; size := 5; pos := 0 |}.

(** ** The dump file of the data model

    A header line followed by one value row per line, and no annotation
    line.  A row is given by its line without the newline and by its
    payload: the trimmed line is the payload followed by [,], or by [;]
    for the last row; it does not itself start with the header and is no
    annotation block. *)
Definition isRow (hdr : bytes) (sep : byte) (row : bytes * bytes) : Prop :=
  ~ In nl (fst row)
  /\ TrimSpace (fst row) = snd row ++ [sep]
  /\ HasPrefix (snd row ++ [sep]) hdr = false
  /\ isAnnotation (TrimSpace (fst row)) = false.

Fixpoint rowsOK (hdr : bytes) (rows : list (bytes * bytes)) : Prop :=
  match rows with
  | [] => True
  | row :: rest =>
    isRow hdr (match rest with [] => semicolon | _ :: _ => comma end) row
    /\ rowsOK hdr rest
  end.

(** The bytes of the row lines, and the payloads of the rows. *)
Definition rowsBytes (rows : list (bytes * bytes)) : bytes :=
  concat (map (fun row => fst row ++ [nl]) rows).

Definition payloads (rows : list (bytes * bytes)) : list bytes := map snd rows.

(** The statement that carries the rows [g]: the header, the rows
    separated by [,], and [;].  No rows, no statement. *)
Definition joinRows (g : list bytes) : bytes :=
  concat (map (fun p => p ++ [comma]) g).

Definition stmtOf (hdr : bytes) (g : list bytes) : bytes :=
  hdr ++ setLast (joinRows g) semicolon.

Definition emit (hdr : bytes) (g : list bytes) : list bytes :=
  match g with
  | [] => []
  | _ :: _ => [stmtOf hdr g]
  end.

(** The state of the loop of [Read] after the rows [acc] of the statement
    under construction, nothing emitted yet. *)
Definition rowState (hdr : bytes) (acc : list bytes) (st : loopState) : Prop :=
  out st = emptyBatch
  /\ ((acc = [] /\ statement st = []) \/ statement st = hdr ++ joinRows acc).

(** The four-line file as a dump of the data model. *)
Definition dump4Header : bytes := B "INSERT INTO t VALUES".

Definition dump4Rows : list (bytes * bytes) :=
  [(B "(1),", B "(1)"); (B "(2),", B "(2)"); (B "(3);", B "(3)")].

(** The bytes of newline-terminated lines. *)
Definition linesBytes (lines : list bytes) : bytes :=
  concat (map (fun l => l ++ [nl]) lines).

(** ** ExportStatement

    The file is read line by line; [data] collects the statements and
    [buffer] the lines of the statement under construction.  A line that
    comes with [io.EOF] is used as it is, every other line is trimmed
    without its newline. *)
Record exportState : Type := mkExport {
  ex_data : bytes;
  ex_buffer : bytes
}.

(** The body of the loop past [if len(line) == 0 { continue }];
    [buffer[len(buffer)-1]] would panic on an empty buffer. *)
Definition exportLine (line : bytes) (st : exportState) : outcome exportState :=
  let buffer := ex_buffer st ++ line in
  match lastByte buffer with
  | None => Panic IndexRange
  | Some c =>
    if Byte.eqb c semicolon then
      Ret {| ex_data :=
               if negb (HasPrefix buffer (B "/*") && HasSuffix buffer (B "*/;"))
               then ex_data st ++ buffer else ex_data st;
             ex_buffer := [] |}
    else Ret {| ex_data := ex_data st; ex_buffer := buffer ++ [nl] |}
  end.

(** The loop of [ExportStatement] over the results of [br.ReadString('\n')];
    after the line that came with [io.EOF] the next call returns an empty
    line with [io.EOF], and the loop is left. *)
Fixpoint exportLoop (lines : list (bytes * bool)) (st : exportState)
  : outcome exportState :=
  match lines with
  | [] => Ret st
  | (raw, eof) :: rest =>
    if eof && (len raw =? 0) then Ret st
    else
      let line :=
        if eof then raw else TrimSpace (firstn (length raw - 1) raw) in
      if len line =? 0 then exportLoop rest st
      else
        st' <- exportLine line st ;;
        exportLoop rest st'
  end.

(** The bytes handed to [decodeCharacterSet]. *)
Definition exportData (file : bytes) : outcome bytes :=
  st <- exportLoop (readLines file []) {| ex_data := []; ex_buffer := [] |} ;;
  Ret (ex_data st).

(** What [ExportStatement] returns: the decoded data, or the error of
    [decodeCharacterSet] annotated with the character set. *)
Inductive exported : Type :=
| Exported (data : bytes)
| ExportFailed (cause : error) (characterSet : string).

Section ExportStatement.

Variable utf8_Valid : bytes -> bool.
Variable GB18030_Bytes : bytes -> result bytes.
Variable ContainsRuneError : bytes -> bool.

Definition ExportStatement (sqlFile : bytes) (characterSet : string)
  : outcome exported :=
  data <- exportData sqlFile ;;
  match decodeCharacterSet utf8_Valid GB18030_Bytes ContainsRuneError
          data characterSet with
  | Err err => Ret (ExportFailed err characterSet)
  | Ok data' => Ret (Exported data')
  end.

End ExportStatement.

(** The statement kept by [ExportStatement], or nothing for an annotation
    block. *)
Definition keepStatement (s : bytes) : bytes :=
  if isAnnotation s then [] else s.

Definition nonBlank (ls : list bytes) : list bytes :=
  filter (fun t => negb (len t =? 0)) (map TrimSpace ls).

(** The last byte is not [;] (an empty slice included). *)
Definition openEnded (s : bytes) : Prop := lastByte s <> Some semicolon.

(** A statement kept by [ExportStatement]: it ends with [;] and is no
    annotation block. *)
Definition keptStatement (s : bytes) : Prop :=
  (exists init, s = init ++ [semicolon]) /\ isAnnotation s = false.

Definition exportInv (st : exportState) : Prop :=
  exists ss, ex_data st = concat ss /\ Forall keptStatement ss.

(** ** Further sample inputs *)

(** A reader with an open descriptor at [off], as a call of
    [NewMDDataReader] and some calls of [Read] and [Seek] leave it. *)
Definition openReader (file : bytes) (off : Z) : MDDataReader :=
  {| fd := {| f_data := file; f_off := off; f_closed := false |};
     fsize := len file; start := 0;
     stmtHeader := getInsertStatementHeader file;
     bufferSize := 0; buffer := None |}.

(** A schema file: a statement over several lines, one of them blank. *)
Definition schemaLines : list bytes :=
  [B "CREATE TABLE t ("; B "  "; B "  a int"].

Definition schemaRest : bytes :=
  textFile ["/*!40101 SET NAMES binary*/;"; "DROP TABLE u;"]%string.

(** A dump whose last row is followed by neither [,] nor [;]. *)
Definition dumpCut : bytes :=
  textFile ["INSERT INTO t VALUES"; "(1),"; "(2)"]%string.

(** A dump that starts with a comment line of the shape [/* ... */]. *)
Definition dumpCommentFirst : bytes :=
  textFile ["/* c */"; "INSERT INTO t VALUES"; "(1);"]%string.

(** The same with a buffer of the given size. *)
Definition bufferedReader (file : bytes) (off size : Z) : MDDataReader :=
  {| fd := {| f_data := file; f_off := off; f_closed := false |};
     fsize := len file; start := 0;
     stmtHeader := getInsertStatementHeader file;
     bufferSize := size; buffer := Some size |}.

(** * Properties *)

(** ** Slices *)

Lemma Equal_eq (a b : bytes) : Equal a b = true <-> a = b.
Proof.
  revert b; induction a as [|x a IH]; intros [|y b]; simpl; split;
    try congruence; try reflexivity.
  - intros H. apply andb_true_iff in H as [Hx Hab].
    apply Byte.byte_dec_bl in Hx. apply IH in Hab. congruence.
  - intros H. inversion H; subst. apply andb_true_iff. split.
    + now apply Byte.byte_dec_lb.
    + now apply IH.
Qed.

Lemma HasPrefix_app (s p : bytes) :
  HasPrefix s p = true <-> exists t, s = p ++ t.
Proof.
  unfold HasPrefix. rewrite andb_true_iff, Nat.leb_le, Equal_eq. split.
  - intros [_ H]. exists (skipn (length p) s).
    rewrite <- H at 1. symmetry. apply firstn_skipn.
  - intros [t ->]. split.
    + rewrite length_app. lia.
    + rewrite firstn_app, firstn_all, Nat.sub_diag. simpl. apply app_nil_r.
Qed.

Lemma HasSuffix_app (s p : bytes) :
  HasSuffix s p = true <-> exists t, s = t ++ p.
Proof.
  unfold HasSuffix. rewrite andb_true_iff, Nat.leb_le, Equal_eq. split.
  - intros [_ H]. exists (firstn (length s - length p) s).
    rewrite <- H at 2. symmetry. apply firstn_skipn.
  - intros [t ->]. split.
    + rewrite length_app. lia.
    + rewrite length_app.
      replace (length t + length p - length p)%nat with (length t) by lia.
      rewrite skipn_app, skipn_all, Nat.sub_diag. reflexivity.
Qed.

Lemma lastByte_snoc (s : bytes) (c : byte) : lastByte (s ++ [c]) = Some c.
Proof. unfold lastByte. rewrite rev_app_distr. reflexivity. Qed.

Lemma lastByte_app (s t : bytes) : t <> [] -> lastByte (s ++ t) = lastByte t.
Proof.
  intros Ht. destruct (exists_last Ht) as (t' & c & ->).
  rewrite app_assoc, !lastByte_snoc. reflexivity.
Qed.

Lemma lastByte_Some (s : bytes) (c : byte) :
  lastByte s = Some c -> exists s', s = s' ++ [c].
Proof.
  unfold lastByte. intros H. destruct (rev s) as [|b r] eqn:E; [discriminate|].
  inversion H; subst. exists (rev r).
  rewrite <- (rev_involutive s), E. reflexivity.
Qed.

Lemma setLast_snoc (s : bytes) (c d : byte) : setLast (s ++ [c]) d = s ++ [d].
Proof. unfold setLast. rewrite removelast_last. reflexivity. Qed.

Lemma len_app {A : Type} (a b : list A) : len (a ++ b) = len a + len b.
Proof. unfold len. rewrite length_app. lia. Qed.

Lemma len_nonneg {A : Type} (a : list A) : 0 <= len a.
Proof. unfold len. lia. Qed.

Lemma len_zero {A : Type} (a : list A) : len a = 0 <-> a = [].
Proof. unfold len. destruct a; simpl; split; intros; try congruence; try lia. Qed.

(** ** Emission: what [appendSQL] lets through *)

Lemma appendSQL_wellFormed (hdr sql : bytes) (o o' : batch) :
  appendSQL hdr sql o = Ret o' ->
  Forall (wellFormed hdr) (stmts o) ->
  Forall (wellFormed hdr) (stmts o').
Proof.
  unfold appendSQL. set (t := TrimSpace sql). intros H Ho.
  destruct (len t =? 0); [inversion H; subst; exact Ho|].
  destruct (HasPrefix t hdr) eqn:Hp; simpl in H.
  2:{ destruct (len t <? 10); inversion H; subst; exact Ho. }
  destruct (Z.eqb_spec (len t) (len hdr)) as [|Hlen]; [inversion H; subst; exact Ho|].
  apply HasPrefix_app in Hp as [body Hbody].
  destruct (HasSuffix t [semicolon]) eqn:Hs; simpl in H.
  - inversion H; subst; simpl. apply Forall_app. split; [exact Ho|].
    constructor; [|constructor]. split.
    + now exists body.
    + now apply HasSuffix_app.
  - destruct (HasSuffix t [comma]) eqn:Hc.
    + inversion H; subst; simpl. apply Forall_app. split; [exact Ho|].
      constructor; [|constructor].
      apply HasSuffix_app in Hc as [init Hinit].
      rewrite Hinit, setLast_snoc. split; [|now exists init].
      assert (Hb : body <> []).
      { intros ->. rewrite app_nil_r in Hbody. now rewrite Hbody in Hlen. }
      destruct (exists_last Hb) as (body' & c & ->).
      exists (body' ++ [semicolon]).
      rewrite Hbody, app_assoc in Hinit. apply app_inj_tail in Hinit as [<- _].
      now rewrite app_assoc.
    + destruct (len t <? 10); inversion H; subst; exact Ho.
Qed.

Lemma readLoop_wellFormed (hdr : bytes) (minSize : Z) :
  forall (lines : list (bytes * bool)) (st st' : loopState) (ex : loopExit),
    readLoop hdr minSize lines st = Ret (st', ex) ->
    Forall (wellFormed hdr) (stmts (out st)) ->
    Forall (wellFormed hdr) (stmts (out st')).
Proof.
  induction lines as [|[raw eof] rest IH]; intros st st' ex H Hst; simpl in H.
  - inversion H; subst; exact Hst.
  - destruct ((0 <? len (TrimSpace raw)) && isComment (TrimSpace raw)).
    { destruct eof; [inversion H; subst; exact Hst | eauto]. }
    match type of H with (bind ?m _ = _) => destruct m as [st1| |] eqn:Hm end;
      simpl in H; try discriminate.
    assert (H1 : Forall (wellFormed hdr) (stmts (out st1))).
    { destruct (0 <? len (TrimSpace raw)); [|inversion Hm; subst; exact Hst].
      unfold appendLine in Hm.
      match type of Hm with
        (match lastByte ?s with _ => _ end = _) => destruct (lastByte s) as [c|]
      end.
      - destruct (Byte.eqb c semicolon).
        + match type of Hm with (bind ?m _ = _) =>
            destruct m as [o| |] eqn:Ho end; simpl in Hm; try discriminate.
          inversion Hm; subst; simpl. eapply appendSQL_wellFormed; eauto.
        + inversion Hm; subst; exact Hst.
      - inversion Hm; subst; exact Hst. }
    destruct (readSize st1 + len raw >=? minSize); [inversion H; subst; exact H1|].
    destruct eof; [inversion H; subst; exact H1|].
    eapply IH; [exact H | exact H1].
Qed.

(** C1. Every statement of a batch that [MDDataReader.Read] returns starts
    with the statement header of the reader and ends with [;] (the trailing
    comma rewritten): a statement failing either test is never in the
    returned sequence. *)
Theorem Read_emits_well_formed_statements :
  forall (r r' : MDDataReader) (minSize : Z) (batch : list bytes)
         (err : option error) (lg : list logEntry),
    Read r minSize = Ret (r', (batch, err), lg) ->
    forall s, In s batch ->
      (exists body, s = stmtHeader r ++ body)
      /\ (exists init, s = init ++ [semicolon]).
Proof.
  intros r r' minSize ss err lg H.
  assert (HF : Forall (wellFormed (stmtHeader r)) ss).
  { unfold Read in H.
    destruct (currOffset r >=? fsize r); [inversion H; subst; constructor|].
    set (ra := acquireBufferReader r (shl64 minSize 1)) in H.
    assert (Hh : stmtHeader ra = stmtHeader r).
    { unfold ra, acquireBufferReader. now destruct (_ >? _). }
    destruct (add64 minSize 4096 <? 0); [discriminate|].
    destruct (buffer ra); [|discriminate].
    destruct (f_closed (fd ra)).
    { destruct (0 >=? minSize); inversion H; subst; constructor. }
    rewrite Hh in H.
    match type of H with (bind ?m _ = _) =>
      destruct m as [[st ex]| |] eqn:Hm end; simpl in H; try discriminate.
    apply readLoop_wellFormed in Hm; [|constructor].
    match type of H with (bind ?m _ = _) =>
      destruct m as [o| |] eqn:Ho end; simpl in H; try discriminate.
    inversion H; subst. unfold flush in Ho.
    destruct (0 <? len (statement st)).
    - eapply appendSQL_wellFormed; eauto.
    - inversion Ho; subst; exact Hm. }
  intros s Hs. exact (proj1 (Forall_forall _ _) HF s Hs).
Qed.

(** ** TrimSpace *)

Lemma spaceByte_tests (c : byte) :
  spaceByte c = false ->
  space1 c = false
  /\ (forall x, space2 c x = false /\ space2 x c = false)
  /\ (forall x y, space3 c x y = false /\ space3 x c y = false
                  /\ space3 x y c = false).
Proof.
  unfold spaceByte, space1, space2, space3. intros H.
  split; [lia|]. split; intros; repeat split; lia.
Qed.

Lemma trimLeftSpace_stop (c : byte) (t : bytes) :
  spaceByte c = false -> trimLeftSpace (c :: t) = c :: t.
Proof.
  intros H. apply spaceByte_tests in H as (H1 & H2 & H3). simpl.
  rewrite H1. destruct t as [|b1 t]; [reflexivity|].
  rewrite (proj1 (H2 b1)). destruct t as [|b2 t]; [reflexivity|].
  now rewrite (proj1 (H3 b1 b2)).
Qed.

Lemma trimRightSpaceRev_stop (c : byte) (k : bytes) :
  spaceByte c = false ->
  forall (n : nat) (a : bytes), (length a <= n)%nat ->
    exists a', trimRightSpaceRev (a ++ c :: k) = a' ++ c :: k.
Proof.
  intros H. apply spaceByte_tests in H as (H1 & H2 & H3).
  assert (H0 : trimRightSpaceRev (c :: k) = c :: k).
  { simpl. rewrite H1. destruct k as [|b1 k]; [reflexivity|].
    rewrite (proj2 (H2 b1)). destruct k as [|b2 k]; [reflexivity|].
    now rewrite (proj2 (proj2 (H3 b2 b1))). }
  induction n as [|n IH]; intros a Ha.
  - destruct a; [|simpl in Ha; lia]. exists []. exact H0.
  - destruct a as [|b0 a]; [exists []; exact H0|].
    simpl in Ha.
    change (trimRightSpaceRev ((b0 :: a) ++ c :: k))
      with (if space1 b0 then trimRightSpaceRev (a ++ c :: k)
            else match a ++ c :: k with
                 | [] => b0 :: a ++ c :: k
                 | b1 :: r2 =>
                   if space2 b1 b0 then trimRightSpaceRev r2
                   else match r2 with
                        | [] => b0 :: a ++ c :: k
                        | b2 :: r3 =>
                          if space3 b2 b1 b0 then trimRightSpaceRev r3
                          else b0 :: a ++ c :: k
                        end
                 end).
    destruct (space1 b0); [apply IH; lia|].
    destruct a as [|b1 a]; simpl.
    { rewrite (proj1 (H2 b0)). destruct k as [|b2 k]; [now exists [b0]|].
      rewrite (proj1 (proj2 (H3 b2 b0))). now exists [b0]. }
    destruct (space2 b1 b0); [apply IH; simpl in Ha; lia|].
    destruct a as [|b2 a]; simpl.
    { rewrite (proj1 (H3 b1 b0)). now exists [b0; b1]. }
    destruct (space3 b2 b1 b0); [apply IH; simpl in Ha; lia|].
    now exists (b0 :: b1 :: b2 :: a).
Qed.

(** [TrimSpace] leaves alone a slice whose first and last bytes belong to
    no white space sequence, and more generally never cuts into such a
    prefix. *)
Lemma TrimSpace_keeps_prefix (h x : bytes) (c0 c1 : byte) (h0 h1 : bytes) :
  h = c0 :: h0 -> h = h1 ++ [c1] ->
  spaceByte c0 = false -> spaceByte c1 = false ->
  exists x', TrimSpace (h ++ x) = h ++ x'.
Proof.
  intros E0 E1 S0 S1. unfold TrimSpace.
  assert (HL : trimLeftSpace (h ++ x) = h ++ x).
  { rewrite E0. exact (trimLeftSpace_stop c0 (h0 ++ x) S0). }
  rewrite HL, E1. rewrite !rev_app_distr. simpl.
  destruct (trimRightSpaceRev_stop c1 (rev h1) S1 (length (rev x)) (rev x) (le_n _))
    as [a' Ha'].
  rewrite Ha'. exists (rev a').
  rewrite rev_app_distr. simpl. rewrite rev_involutive. reflexivity.
Qed.

Lemma TrimSpace_id (s : bytes) (c0 c1 : byte) (s0 s1 : bytes) :
  s = c0 :: s0 -> s = s1 ++ [c1] ->
  spaceByte c0 = false -> spaceByte c1 = false ->
  TrimSpace s = s.
Proof.
  intros E0 E1 S0 S1. unfold TrimSpace.
  assert (HL : trimLeftSpace s = s).
  { rewrite E0. exact (trimLeftSpace_stop c0 s0 S0). }
  rewrite HL, E1. rewrite rev_app_distr.
  change (rev [c1] ++ rev s1) with (c1 :: rev s1).
  assert (Hk : trimRightSpaceRev (c1 :: rev s1) = c1 :: rev s1).
  { apply spaceByte_tests in S1 as (H1 & H2 & H3). simpl. rewrite H1.
    destruct (rev s1) as [|b1 k]; [reflexivity|].
    rewrite (proj2 (H2 b1)). destruct k as [|b2 k]; [reflexivity|].
    now rewrite (proj2 (proj2 (H3 b2 b1))). }
  rewrite Hk. simpl. rewrite rev_involutive. reflexivity.
Qed.

(** ** The statement header *)

Lemma eqFold_code (c p : byte) :
  eqFold c p = true -> code c = code p \/ code c = code p + 32.
Proof.
  unfold eqFold. intros H. apply orb_true_iff in H as [H|H].
  - apply Byte.byte_dec_bl in H. left. now subst.
  - right. lia.
Qed.

Lemma matchLit_first (pc : byte) (p s rest : bytes) :
  matchLit (pc :: p) s = Some rest ->
  exists c t, s = c :: t
    /\ (eqFold c pc = true \/ (pc = "S"%byte /\ code c = 197)).
Proof.
  simpl. destruct s as [|c s1]; [discriminate|]. intros H.
  exists c, s1. split; [reflexivity|].
  destruct (eqFold c pc); [now left|].
  destruct (Byte.eqb pc "S") eqn:E; [|discriminate].
  apply Byte.byte_dec_bl in E.
  destruct s1 as [|d s2]; [discriminate|].
  destruct ((code c =? 197) && (code d =? 191)) eqn:T; [|discriminate].
  right. split; [exact E | lia].
Qed.

Lemma matchLit_last (x : byte) :
  forall (p s rest : bytes),
    matchLit (p ++ [x]) s = Some rest ->
    exists m c, s = m ++ c :: rest
      /\ (eqFold c x = true \/ code c = 191)
      /\ (length p <= length m)%nat.
Proof.
  induction p as [|pc p IH]; intros s rest H; simpl in H.
  - destruct s as [|c s1]; [discriminate|].
    destruct (eqFold c x) eqn:E.
    + inversion H; subst. exists [], c. simpl. auto.
    + destruct (Byte.eqb x "S"); [|discriminate].
      destruct s1 as [|d s2]; [discriminate|].
      destruct ((code c =? 197) && (code d =? 191)) eqn:T; [|discriminate].
      inversion H; subst. exists [c], d. simpl.
      split; [reflexivity|]. split; [right; lia | lia].
  - destruct s as [|c s1]; [discriminate|].
    destruct (eqFold c pc).
    + apply IH in H as (m & c' & -> & Hc & Hl).
      exists (c :: m), c'. simpl. split; [reflexivity|]. split; [exact Hc | lia].
    + destruct (Byte.eqb pc "S"); [|discriminate].
      destruct s1 as [|d s2]; [discriminate|].
      destruct ((code c =? 197) && (code d =? 191)); [|discriminate].
      apply IH in H as (m & c' & -> & Hc & Hl).
      exists (c :: d :: m), c'. simpl. split; [reflexivity|].
      split; [exact Hc | lia].
Qed.

Lemma matchValuesHere_Some (s : bytes) (n : nat) :
  matchValuesHere s = Some n ->
  exists m c rest, s = m ++ c :: rest /\ n = S (length m)
    /\ (eqFold c "S" = true \/ code c = 191) /\ (6 <= length m)%nat.
Proof.
  unfold matchValuesHere.
  destruct (matchLit (B " VALUES") s) as [rest|] eqn:E; [|discriminate].
  intros H. inversion H; subst; clear H.
  change (B " VALUES") with (B " VALUE" ++ ["S"%byte]) in E.
  apply matchLit_last in E as (m & c & -> & Hc & Hl).
  exists m, c, rest. repeat split; try assumption.
  rewrite length_app. simpl. lia.
Qed.

Lemma matchDotStarValues_Some :
  forall (s : bytes) (n : nat),
    matchDotStarValues s = Some n ->
    exists m c rest, s = m ++ c :: rest /\ n = S (length m)
      /\ (eqFold c "S" = true \/ code c = 191) /\ (6 <= length m)%nat.
Proof.
  induction s as [|b s IH]; intros n H; cbn [matchDotStarValues] in H.
  - now apply matchValuesHere_Some.
  - destruct (Byte.eqb b nl); [now apply matchValuesHere_Some|].
    destruct (matchDotStarValues s) as [n'|]; [|now apply matchValuesHere_Some].
    inversion H; subst; clear H.
    destruct (IH n' eq_refl) as (m & c & rest & -> & -> & Hc & Hl).
    exists (b :: m), c, rest. simpl. repeat split; try assumption; lia.
Qed.

Lemma matchHere_Some (s : bytes) (n : nat) :
  matchHere s = Some n ->
  exists M rest, s = M ++ rest /\ n = length M /\ headerOK M.
Proof.
  unfold matchHere.
  destruct (matchLit (B "INSERT INTO ") s) as [rest1|] eqn:E1; [|discriminate].
  destruct (matchDotStarValues rest1) as [n2|] eqn:E2; [|discriminate].
  intros H. inversion H; subst; clear H.
  pose proof E1 as E0.
  change (B "INSERT INTO ") with ("I"%byte :: B "NSERT INTO ") in E0.
  apply matchLit_first in E0 as (c0 & t & Hs & Hc0).
  change (B "INSERT INTO ") with (B "INSERT INTO" ++ [" "%byte]) in E1.
  apply matchLit_last in E1 as (m1 & c & Hs1 & _ & Hl1).
  apply matchDotStarValues_Some in E2 as (m2 & c1 & rest & -> & -> & Hc1 & Hl2).
  exists (m1 ++ c :: m2 ++ [c1]), rest. split; [|split].
  - rewrite Hs1. now rewrite <- !app_assoc, <- !app_comm_cons, <- app_assoc.
  - rewrite Hs1, !length_app. simpl. rewrite !length_app. simpl. lia.
  - split; [|split].
    + unfold len. rewrite !length_app. simpl. rewrite length_app. simpl.
      simpl in Hl1. lia.
    + destruct m1 as [|b m1']; [simpl in Hl1; lia|].
      exists b, (m1' ++ c :: m2 ++ [c1]). split; [reflexivity|].
      rewrite Hs1 in Hs. inversion Hs; subst.
      destruct Hc0 as [Hc0|[Hc0 _]]; [|discriminate].
      apply eqFold_code in Hc0. change (code "I") with 73 in Hc0. lia.
    + exists (m1 ++ c :: m2), c1. split.
      * now rewrite <- app_assoc, <- app_comm_cons.
      * destruct Hc1 as [Hc1|Hc1]; [|auto].
        apply eqFold_code in Hc1. change (code "S") with 83 in Hc1. lia.
Qed.

Lemma findFrom_Some :
  forall (s : bytes) (i lo hi : nat),
    findFrom s i = Some (lo, hi) ->
    exists pre M rest, s = pre ++ M ++ rest /\ lo = (i + length pre)%nat
      /\ hi = (lo + length M)%nat /\ headerOK M.
Proof.
  induction s as [|b s IH]; intros i lo hi H; cbn [findFrom] in H.
  - destruct (matchHere []) as [n|] eqn:E; [|discriminate].
    inversion H; subst. apply matchHere_Some in E as (M & rest & HM & -> & Hok).
    exists [], M, rest. simpl. split; [assumption|]. split; [lia|]. split; [lia|exact Hok].
  - destruct (matchHere (b :: s)) as [n|] eqn:E.
    + inversion H; subst. apply matchHere_Some in E as (M & rest & HM & -> & Hok).
      exists [], M, rest. simpl. split; [assumption|]. split; [lia|]. split; [lia|exact Hok].
    + apply IH in H as (pre & M & rest & -> & -> & -> & Hok).
      exists (b :: pre), M, rest. simpl. split; [reflexivity|]. split; [lia|]. split; [lia|exact Hok].
Qed.

Lemma FindStringIndex_match (line : bytes) (lo hi : nat) :
  FindStringIndex line = Some (lo, hi) ->
  headerOK (firstn (hi - lo) (skipn lo line)).
Proof.
  intros H. apply findFrom_Some in H as (pre & M & rest & -> & -> & -> & Hok).
  simpl. rewrite skipn_app, skipn_all, Nat.sub_diag. simpl.
  replace (length pre + length M - length pre)%nat with (length M) by lia.
  rewrite firstn_app, firstn_all, Nat.sub_diag. simpl. now rewrite app_nil_r.
Qed.

Lemma scanHeader_ok :
  forall lines : list (bytes * bool),
    scanHeader lines = [] \/ headerOK (scanHeader lines).
Proof.
  induction lines as [|[line eof] rest IH]; simpl; [now left|].
  destruct eof; [now left|].
  destruct (FindStringIndex line) as [[lo hi]|] eqn:E; [|exact IH].
  right. now apply FindStringIndex_match.
Qed.

(** The header that [NewMDDataReader] accepts is a match of the pattern. *)
Lemma getInsertStatementHeader_ok (file : bytes) :
  len (getInsertStatementHeader file) <> 0 ->
  headerOK (getInsertStatementHeader file).
Proof.
  intros H. destruct (scanHeader_ok (readLines file [])) as [E|Hok].
  - unfold getInsertStatementHeader in H. now rewrite E in H.
  - exact Hok.
Qed.

(** ** The loop of [Read] with a header that the pattern matched *)

Lemma linesLen_readLines :
  forall data cur : bytes, linesLen (readLines data cur) = len cur + len data.
Proof.
  induction data as [|b data IH]; intros cur; cbn [readLines].
  - unfold linesLen, len. simpl. lia.
  - destruct (Byte.eqb b nl).
    + change (linesLen ((cur ++ [b], false) :: readLines data []))
        with (len (cur ++ [b]) + linesLen (readLines data [])).
      rewrite IH, len_app. unfold len. simpl. lia.
    + rewrite IH, len_app. unfold len. simpl. lia.
Qed.

Lemma headerOK_len (hdr : bytes) : headerOK hdr -> 19 <= len hdr.
Proof. now intros [H _]. Qed.

Lemma code_neq_eqb (c d : byte) : code c <> code d -> Byte.eqb c d = false.
Proof.
  intros H. destruct (Byte.eqb c d) eqn:E; [|reflexivity].
  apply Byte.byte_dec_bl in E. subst. now elim H.
Qed.

(** The first and the last byte of a header belong to no white space
    sequence. *)
Lemma headerOK_ends (hdr : bytes) :
  headerOK hdr ->
  exists c0 t0 t1 c1,
    hdr = c0 :: t0 /\ hdr = t1 ++ [c1]
    /\ spaceByte c0 = false /\ spaceByte c1 = false
    /\ (code c0 = 73 \/ code c0 = 105)
    /\ (code c1 = 83 \/ code c1 = 115 \/ code c1 = 191).
Proof.
  intros (_ & (c0 & t0 & E0 & H0) & (t1 & c1 & E1 & H1)).
  exists c0, t0, t1, c1. repeat split; auto; unfold spaceByte; lia.
Qed.

Lemma noStart_snoc_end (lg : list logEntry) (s : bytes) :
  noStart lg -> noStart (lg ++ [UnexpectEnd s]).
Proof.
  intros H t Hin. apply in_app_or in Hin as [Hin|[Hin|[]]].
  - exact (H t Hin).
  - discriminate.
Qed.

(** A candidate that starts with the header passes the prefix test, and
    neither error branch of [appendSQL] slices out of bounds. *)
Lemma appendSQL_header (hdr x : bytes) (o : batch) :
  headerOK hdr ->
  exists o', appendSQL hdr (hdr ++ x) o = Ret o'
    /\ (noStart (logs o) -> noStart (logs o')).
Proof.
  intros Hok. pose proof (headerOK_len hdr Hok) as Hlen.
  destruct (headerOK_ends hdr Hok) as (c0 & t0 & t1 & c1 & E0 & E1 & S0 & S1 & _).
  destruct (TrimSpace_keeps_prefix hdr x c0 c1 t0 t1 E0 E1 S0 S1) as [x' Hx'].
  unfold appendSQL. rewrite Hx'.
  assert (Hl : len (hdr ++ x') >= 19).
  { rewrite len_app. pose proof (len_nonneg x'). lia. }
  destruct (Z.eqb_spec (len (hdr ++ x')) 0) as [E|_]; [lia|].
  assert (Hp : HasPrefix (hdr ++ x') hdr = true).
  { apply HasPrefix_app. now exists x'. }
  rewrite Hp. simpl.
  destruct (len (hdr ++ x') =? len hdr); [now exists o|].
  destruct (HasSuffix (hdr ++ x') [semicolon]); simpl.
  { eexists. split; [reflexivity|]. simpl. auto. }
  destruct (HasSuffix (hdr ++ x') [comma]).
  { eexists. split; [reflexivity|]. simpl. auto. }
  destruct (Z.ltb_spec (len (hdr ++ x')) 10) as [E|_]; [lia|].
  eexists. split; [reflexivity|]. simpl. apply noStart_snoc_end.
Qed.

Lemma appendLine_header (hdr line : bytes) (st : loopState) :
  headerOK hdr -> line <> [] -> stmtInv hdr st ->
  exists st', appendLine hdr line st = Ret st'
    /\ stmtInv hdr st'
    /\ (noStart (logs (out st)) -> noStart (logs (out st')))
    /\ readSize st' = readSize st.
Proof.
  intros Hok Hline Hinv. unfold appendLine.
  set (statement0 := if (len (statement st) =? 0) && negb (HasPrefix line hdr)
                     then statement st ++ hdr else statement st).
  assert (H1 : exists x, statement0 ++ line = hdr ++ x).
  { unfold statement0. destruct Hinv as [E|[x E]]; rewrite E.
    - simpl. destruct (HasPrefix line hdr) eqn:Hp; simpl.
      + apply HasPrefix_app in Hp as [t ->]. now exists t.
      + now exists line.
    - destruct (Z.eqb_spec (len (hdr ++ x)) 0) as [E0|_].
      + apply len_zero in E0. apply app_eq_nil in E0 as [-> ->].
        apply headerOK_len in Hok. unfold len in Hok. simpl in Hok. lia.
      + simpl. exists (x ++ line). now rewrite app_assoc. }
  destruct H1 as [x Hx]. rewrite Hx.
  destruct (headerOK_ends hdr Hok) as (c0 & t0 & _ & _ & E0 & _).
  destruct (lastByte (hdr ++ x)) as [c|] eqn:El.
  - destruct (Byte.eqb c semicolon).
    + destruct (appendSQL_header hdr x (out st) Hok) as (o' & Ho' & Hlg).
      rewrite Ho'. simpl. eexists. split; [reflexivity|]. simpl.
      split; [now left|]. split; [exact Hlg | reflexivity].
    + eexists. split; [reflexivity|]. simpl.
      split; [right; now exists x|]. split; [auto | reflexivity].
  - unfold lastByte in El. destruct (rev (hdr ++ x)) as [|b t] eqn:Er;
      [|discriminate].
    apply (f_equal (@rev byte)) in Er. rewrite rev_involutive, E0 in Er.
    discriminate.
Qed.

(** The loop returns (no panic), keeps the invariants, and counts at most
    the bytes it was given. *)
Lemma readLoop_total (hdr : bytes) (minSize : Z) :
  headerOK hdr ->
  forall (lines : list (bytes * bool)) (st : loopState),
    stmtInv hdr st ->
    exists st' ex, readLoop hdr minSize lines st = Ret (st', ex)
      /\ stmtInv hdr st'
      /\ (noStart (logs (out st)) -> noStart (logs (out st')))
      /\ readSize st <= readSize st' <= readSize st + linesLen lines.
Proof.
  intros Hok. induction lines as [|[raw eof] rest IH]; intros st Hinv.
  - exists st, ExitEOF. simpl. repeat split; auto; lia.
  - cbn [readLoop].
    change (linesLen ((raw, eof) :: rest)) with (len raw + linesLen rest).
    pose proof (len_nonneg raw) as Hraw.
    assert (Hrest : 0 <= linesLen rest).
    { clear. induction rest as [|l rest IH]; [unfold linesLen; simpl; lia|].
      change (linesLen (l :: rest)) with (len (fst l) + linesLen rest).
      pose proof (len_nonneg (fst l)). lia. }
    destruct ((0 <? len (TrimSpace raw)) && isComment (TrimSpace raw)).
    { destruct eof.
      - exists st, ExitEOF. repeat split; auto; lia.
      - destruct (IH st Hinv) as (st' & ex & H & Hi & Hl & Hr).
        exists st', ex. repeat split; auto; lia. }
    assert (H1 : exists st1,
      (if 0 <? len (TrimSpace raw) then appendLine hdr (TrimSpace raw) st
       else Ret st) = Ret st1
      /\ stmtInv hdr st1
      /\ (noStart (logs (out st)) -> noStart (logs (out st1)))
      /\ readSize st1 = readSize st).
    { destruct (Z.ltb_spec 0 (len (TrimSpace raw))) as [Hpos|_].
      - apply appendLine_header; auto.
        intros E. rewrite E in Hpos. unfold len in Hpos. simpl in Hpos. lia.
      - exists st. repeat split; auto. }
    destruct H1 as (st1 & -> & Hi1 & Hl1 & Hr1). cbn [bind].
    cbn [readSize statement out].
    destruct (readSize st1 + len raw >=? minSize).
    { eexists _, ExitBudget. split; [reflexivity|]. cbn. repeat split; auto; lia. }
    destruct eof.
    { eexists _, ExitEOF. split; [reflexivity|]. cbn. repeat split; auto; lia. }
    match goal with |- context [readLoop hdr minSize rest ?s] =>
      destruct (IH s) as (st' & ex & H & Hi & Hl & Hr); [exact Hi1|] end.
    cbn in Hl, Hr.
    exists st', ex. repeat split; auto; lia.
Qed.

Lemma flush_header (hdr : bytes) (st : loopState) :
  headerOK hdr -> stmtInv hdr st ->
  exists o, flush hdr st = Ret o
    /\ (noStart (logs (out st)) -> noStart (logs o)).
Proof.
  intros Hok Hinv. unfold flush.
  destruct (Z.ltb_spec 0 (len (statement st))) as [Hpos|_].
  - destruct Hinv as [E|[x E]].
    + rewrite E in Hpos. unfold len in Hpos. simpl in Hpos. lia.
    + rewrite E. now apply appendSQL_header.
  - exists (out st). auto.
Qed.

Lemma acquireBufferReader_fields (r : MDDataReader) (sz : Z) :
  stmtHeader (acquireBufferReader r sz) = stmtHeader r
  /\ fd (acquireBufferReader r sz) = fd r
  /\ fsize (acquireBufferReader r sz) = fsize r.
Proof. unfold acquireBufferReader. now destruct (sz >? bufferSize r). Qed.

(** What [Read] does once it reads from an open descriptor with a header
    that the pattern matched: the loop and the final [appendSQL] return. *)
Lemma Read_loop_returns (r : MDDataReader) (minSize : Z) :
  headerOK (stmtHeader r) ->
  exists st ex o,
    readLoop (stmtHeader r) minSize (readLines (unread (fd r)) [])
      {| statement := []; out := emptyBatch; readSize := 0 |} = Ret (st, ex)
    /\ flush (stmtHeader r) st = Ret o
    /\ noStart (logs o)
    /\ 0 <= readSize st <= len (unread (fd r)).
Proof.
  intros Hok.
  destruct (readLoop_total (stmtHeader r) minSize Hok
              (readLines (unread (fd r)) [])
              {| statement := []; out := emptyBatch; readSize := 0 |})
    as (st & ex & H & Hi & Hl & Hr); [now left|].
  destruct (flush_header (stmtHeader r) st Hok Hi) as (o & Ho & Hlo).
  exists st, ex, o. split; [exact H|]. split; [exact Ho|].
  split.
  - apply Hlo, Hl. intros s [].
  - rewrite linesLen_readLines in Hr. cbn [readSize] in Hr.
    change (len (@nil byte)) with 0 in Hr. lia.
Qed.

(** C10. [MDDataReader.Read] never panics in the two log-and-drop branches
    of [appendSQL].  With the header that [getInsertStatementHeader] found
    (at least 19 bytes), every candidate statement starts with the header,
    so the prefix branch, which slices the first ten bytes, is never taken
    (nothing is logged by it); and in the suffix branch the statement is
    at least as long as the header, so slicing its last ten bytes is in
    bounds: no call of [Read] ends in a slice-bounds panic. *)
Theorem Read_appendSQL_slices_in_bounds :
  forall (file : bytes) (r : MDDataReader) (minSize : Z),
    stmtHeader r = getInsertStatementHeader file ->
    len (stmtHeader r) <> 0 ->
    19 <= len (stmtHeader r)
    /\ Read r minSize <> Panic SliceBounds
    /\ (forall r' res lg, Read r minSize = Ret (r', res, lg) ->
          forall s, ~ In (UnexpectStart s) lg).
Proof.
  intros file r minSize Hh Hne.
  assert (Hok : headerOK (stmtHeader r)).
  { rewrite Hh in *. now apply getInsertStatementHeader_ok. }
  split; [now apply headerOK_len|].
  unfold Read.
  destruct (currOffset r >=? fsize r).
  { split; [discriminate|]. intros r' res lg H. inversion H; subst. intros s []. }
  set (ra := acquireBufferReader r (shl64 minSize 1)).
  destruct (acquireBufferReader_fields r (shl64 minSize 1)) as (Eh & Ef & Es).
  fold ra in Eh, Ef, Es.
  destruct (add64 minSize 4096 <? 0); [split; [discriminate|discriminate]|].
  destruct (buffer ra); [|split; [discriminate|discriminate]].
  destruct (f_closed (fd ra)).
  { destruct (0 >=? minSize); split; try discriminate.
    intros r' res lg H. inversion H; subst. intros s []. }
  rewrite <- Eh in Hok.
  destruct (Read_loop_returns ra minSize Hok) as (st & ex & o & H1 & H2 & H3 & _).
  rewrite H1. cbn [bind]. rewrite H2. cbn [bind].
  split; [discriminate|].
  intros r' res lg H. inversion H; subst. exact H3.
Qed.

(** ** The four-line scenario *)

(** C4, as stated, fails: on the four-line file the first [Read(10)] of a
    reader constructed at offset 0 returns no statement at all. *)
Lemma first_Read_of_four_lines_is_empty :
  exists r r1,
    NewMDDataReader dump4 0 = Ret (Ok r)
    /\ Read r 10 = Ret (r1, ([], None), [])
    /\ @nil bytes <> [B "INSERT INTO t VALUES(1),(2);"].
Proof.
  eexists. eexists. split; [vm_compute; reflexivity|].
  split; [vm_compute; reflexivity | discriminate].
Qed.

(** C4, amended.  On the four-line file (with or without a newline after
    the last line) and a reader constructed at offset 0, the first
    [Read(10)] returns no statement: the header line alone uses up the
    budget and a statement made of the header only is discarded.  The
    second [Read(10)] returns exactly [INSERT INTO t VALUES(1),(2);], the
    third exactly [INSERT INTO t VALUES(3);], and the reader is then at
    the end of the file. *)
Theorem four_lines_three_reads :
  threeReads dump4 /\ threeReads dump4_unterminated.
Proof.
  split; do 4 eexists;
    (split; [vm_compute; reflexivity|]);
    (split; [vm_compute; reflexivity|]);
    (split; [vm_compute; reflexivity|]);
    (split; [vm_compute; reflexivity|]);
    (split; vm_compute; reflexivity).
Qed.

(** ** Comment lines inside [Read] *)

(** C5.  A line [/* comment */;] between two value rows is not skipped by
    [Read]: its test asks for the suffix [*/], which a line ending with
    [*/;] does not have, so the line is taken as content and its bytes are
    emitted (here as the end of the first statement). *)
Theorem Read_emits_annotation_line :
  exists r r1,
    NewMDDataReader dumpWithComment 0 = Ret (Ok r)
    /\ isComment (B "/* comment */;") = false
    /\ isAnnotation (B "/* comment */;") = true
    /\ Read r 100
       = Ret (r1, ([B "INSERT INTO t VALUES(1),/* comment */;";
                    B "INSERT INTO t VALUES(2);"], None), []).
Proof.
  do 2 eexists. split; [vm_compute; reflexivity|].
  split; [reflexivity|]. split; [reflexivity|]. vm_compute; reflexivity.
Qed.

(** ** Annotation lines at the offset of a new reader *)

(** The scenario of C6: with two annotation lines in front of the header
    line, a reader constructed at offset 0 stands on the first byte of the
    header line. *)
Lemma NewMDDataReader_skips_two_annotations :
  exists r,
    NewMDDataReader dumpAnnotated 0 = Ret (Ok r)
    /\ Tell r = len (textFile ["/*A*/;"; "/*B*/;"]%string)
    /\ unread (fd r) = textFile ["INSERT INTO t VALUES"; "(1),"; "(2);"]%string.
Proof.
  eexists. split; [vm_compute; reflexivity|]. split; vm_compute; reflexivity.
Qed.

(** C6.  When the first line after the annotation lines is the last line
    of the file and has no newline, the scan stops at [io.EOF] before it
    looks at the line: the reader constructed at offset 21 (the annotation
    line) stands at the end of the file (32), not on the first byte of the
    row (28 = min(21 + 7, 32)), and its [Read] reports [io.EOF]. *)
Theorem NewMDDataReader_skips_unterminated_row :
  exists r,
    NewMDDataReader dumpLastRowUnterminated 21 = Ret (Ok r)
    /\ skipn 21 dumpLastRowUnterminated = B "/*A*/;" ++ [nl] ++ B "(1);"
    /\ Tell r = 32
    /\ Z.min (21 + len (B "/*A*/;" ++ [nl])) (len dumpLastRowUnterminated) = 28
    /\ Read r 100 = Ret (r, ([], Some EOF), []).
Proof.
  eexists. split; [vm_compute; reflexivity|].
  repeat split; vm_compute; reflexivity.
Qed.

(** ** The header of a file *)

(** C7.  A file whose only line matches the pattern but has no newline at
    its end is refused: [getInsertStatementHeader] leaves its loop at
    [io.EOF] before it matches the line. *)
Theorem NewMDDataReader_misses_unterminated_header :
  FindStringIndex dumpOneLine = Some (0%nat, 20%nat)
  /\ getInsertStatementHeader dumpOneLine = []
  /\ NewMDDataReader dumpOneLine 0 = Ret (Err ErrInsertStatementNotFound)
  /\ getInsertStatementHeader (dumpOneLine ++ [nl]) = B "INSERT INTO t VALUES".
Proof. repeat split; vm_compute; reflexivity. Qed.

(** ** decodeCharacterSet *)

(** For the encoding [gb18030], and for [auto] on an input that is not
    valid UTF-8, [decodeCharacterSet] is the [case "gb18030"] arm: the
    error of the decoder, traced, if it reports one; else
    [errInvalidSchemaEncoding] when the decoded output contains U+FFFD,
    and the decoded bytes otherwise. *)
Lemma decodeCharacterSet_gb18030_arm :
  forall (utf8_Valid : bytes -> bool) (GB18030_Bytes : bytes -> result bytes)
         (ContainsRuneError : bytes -> bool) (data : bytes)
         (characterSet : string),
    characterSet = "gb18030"%string
    \/ (characterSet = "auto"%string /\ utf8_Valid data = false) ->
    decodeCharacterSet utf8_Valid GB18030_Bytes ContainsRuneError data characterSet
    = match GB18030_Bytes data with
      | Err err => Err (Trace err)
      | Ok decoded =>
        if ContainsRuneError decoded then Err errInvalidSchemaEncoding
        else Ok decoded
      end.
Proof.
  intros v d c data cs [-> | [-> Hv]]; unfold decodeCharacterSet; simpl.
  - reflexivity.
  - rewrite Hv. reflexivity.
Qed.

(** C8.  The GB18030 decoder reports no error: a decoding that fails is a
    decoded output with U+FFFD in it.  With such a decoder, for the
    encoding [gb18030], and for [auto] on an input that is not valid
    UTF-8, [decodeCharacterSet] returns [errInvalidSchemaEncoding]
    whenever the decoded output contains U+FFFD, and the decoded bytes
    otherwise. *)
Theorem decodeCharacterSet_gb18030 :
  forall (utf8_Valid : bytes -> bool) (GB18030_Bytes : bytes -> result bytes)
         (ContainsRuneError : bytes -> bool) (data : bytes)
         (characterSet : string),
    reportsNoError GB18030_Bytes ->
    characterSet = "gb18030"%string
    \/ (characterSet = "auto"%string /\ utf8_Valid data = false) ->
    exists decoded,
      GB18030_Bytes data = Ok decoded
      /\ (ContainsRuneError decoded = true ->
          decodeCharacterSet utf8_Valid GB18030_Bytes ContainsRuneError
            data characterSet
          = Err errInvalidSchemaEncoding)
      /\ (ContainsRuneError decoded = false ->
          decodeCharacterSet utf8_Valid GB18030_Bytes ContainsRuneError
            data characterSet
          = Ok decoded).
Proof.
  intros v d c data cs Htotal Hcs.
  destruct (Htotal data) as [decoded Hd]. exists decoded.
  split; [exact Hd|].
  rewrite (decodeCharacterSet_gb18030_arm v d c data cs Hcs), Hd.
  split; intros ->; reflexivity.
Qed.

Lemma decodeCharacterSet_gb18030_witness :
  reportsNoError asciiDecoder
  /\ ("auto"%string = "gb18030"%string
      \/ ("auto"%string = "auto"%string
          /\ isAscii ["255"%byte; "a"%byte] = false))
  /\ decodeCharacterSet isAscii asciiDecoder hasEFBFBD ["255"%byte; "a"%byte] "auto"
     = Err errInvalidSchemaEncoding
  /\ exists decoded,
       asciiDecoder ["255"%byte; "a"%byte] = Ok decoded
       /\ (hasEFBFBD decoded = true ->
           decodeCharacterSet isAscii asciiDecoder hasEFBFBD
             ["255"%byte; "a"%byte] "auto"
           = Err errInvalidSchemaEncoding)
       /\ (hasEFBFBD decoded = false ->
           decodeCharacterSet isAscii asciiDecoder hasEFBFBD
             ["255"%byte; "a"%byte] "auto"
           = Ok decoded).
Proof.
  assert (H1 : reportsNoError asciiDecoder).
  { intros data. eexists. reflexivity. }
  assert (H2 : "auto"%string = "gb18030"%string
               \/ ("auto"%string = "auto"%string
                   /\ isAscii ["255"%byte; "a"%byte] = false)).
  { right. split; reflexivity. }
  split; [exact H1|]. split; [exact H2|]. split; [reflexivity|].
  exact (decodeCharacterSet_gb18030 isAscii asciiDecoder hasEFBFBD
           ["255"%byte; "a"%byte] "auto" H1 H2).
Defined.

(** ** Close *)

(** C9, as stated, fails: the second [Close] reports an error. *)
Lemma second_Close_reports_error :
  exists r r1,
    NewMDDataReader dump4 0 = Ret (Ok r)
    /\ Close r = (r1, None)
    /\ Close r1 = (r1, Some (Trace ErrClosed))
    /\ Some (Trace ErrClosed) <> @None error.
Proof.
  do 2 eexists. split; [vm_compute; reflexivity|].
  split; [vm_compute; reflexivity|]. split; [vm_compute; reflexivity|].
  discriminate.
Qed.

(** C9, amended.  [Close] on a reader with an open descriptor reports
    success, closes the descriptor and drops the buffer.  A second [Close]
    does not panic and changes nothing, but it reports the error of
    closing a closed file instead of success; the same holds for
    [RegionReader.Close], which traces the error once more. *)
Theorem Close_twice :
  forall r : MDDataReader,
    f_closed (fd r) = false ->
    exists r1,
      Close r = (r1, None)
      /\ f_closed (fd r1) = true
      /\ buffer r1 = None /\ bufferSize r1 = 0
      /\ Close r1 = (r1, Some (Trace ErrClosed))
      /\ forall off sz p,
           exists rr1,
             RegionClose {| fileReader := r; offset := off; size := sz; pos := p |}
             = (rr1, None)
             /\ fileReader rr1 = r1
             /\ RegionClose rr1 = (rr1, Some (Trace (Trace ErrClosed))).
Proof.
  intros r Hopen. unfold Close, File_Close. rewrite Hopen.
  eexists. split; [reflexivity|]. cbn.
  repeat split.
  intros off sz p. unfold RegionClose, Close, File_Close. cbn. rewrite Hopen.
  eexists. split; [reflexivity|]. cbn. split; reflexivity.
Qed.

(** ** Readers that [NewMDDataReader] returned *)

Lemma wrap64_small (z : Z) : - 2 ^ 63 <= z < 2 ^ 63 -> wrap64 z = z.
Proof.
  intros H. unfold wrap64.
  rewrite Z.mod_small; lia.
Qed.

Lemma len_unread (f : File) :
  0 <= f_off f <= len (f_data f) -> len (unread f) = len (f_data f) - f_off f.
Proof.
  intros H. unfold unread, len in *. rewrite length_skipn. lia.
Qed.

Lemma NewMDDataReader_readerOK (file : bytes) (off : Z) (r : MDDataReader) :
  NewMDDataReader file off = Ret (Ok r) ->
  off <= len file ->
  readerOK r /\ f_data (fd r) = file
  /\ stmtHeader r = getInsertStatementHeader file.
Proof.
  unfold NewMDDataReader, Seek_Start. cbn [os_Open f_closed f_data f_off].
  destruct (Z.ltb_spec off 0) as [|Hoff]; [discriminate|].
  cbn [stmtHeader].
  destruct (Z.eqb_spec (len (getInsertStatementHeader file)) 0) as [|Hh];
    [discriminate|].
  unfold skipAnnotation. cbn [fd f_closed bind fst fsize].
  intros H Hle. inversion H; subst; clear H.
  pose proof (len_nonneg file) as Hn.
  unfold readerOK, set_fd. cbn [stmtHeader fd fsize buffer bufferSize].
  split; [|split; [|reflexivity]].
  - split; [now apply getInsertStatementHeader_ok|].
    match goal with |- context [scanAnnotation ?l 0] =>
      destruct (scanAnnotation l 0) as [skipSize|] end.
    + unfold Seek_Start. cbn [f_closed f_data f_off].
      set (target := if add64 off skipSize >? len file then len file
                     else add64 off skipSize).
      assert (Ht : target <= len file).
      { unfold target. destruct (Z.gtb_spec (add64 off skipSize) (len file)); lia. }
      destruct (Z.ltb_spec target 0); cbn; repeat split; try lia; discriminate.
    + cbn. repeat split; try lia; discriminate.
  - match goal with |- context [scanAnnotation ?l 0] =>
      destruct (scanAnnotation l 0) as [skipSize|] end; [|reflexivity].
    unfold Seek_Start. cbn [f_closed f_data f_off].
    match goal with |- context [?t <? 0] => destruct (t <? 0) end; reflexivity.
Qed.

(** With a positive budget below 2^62 a call of [Read] on such a reader
    returns, leaves such a reader, and never moves backwards. *)
Lemma Read_readerOK (r : MDDataReader) (minSize : Z) :
  readerOK r -> 0 < minSize < 2 ^ 62 ->
  exists r' batch err lg,
    Read r minSize = Ret (r', (batch, err), lg)
    /\ readerOK r'
    /\ f_data (fd r') = f_data (fd r)
    /\ stmtHeader r' = stmtHeader r
    /\ f_off (fd r) <= f_off (fd r')
    /\ noStart lg.
Proof.
  intros (Hok & Hopen & Hsz & Hoff & Hbuf) Hm. unfold Read.
  unfold currOffset, Seek_Current. rewrite Hopen.
  destruct (Z.geb_spec (f_off (fd r)) (fsize r)) as [Hge|Hlt].
  { exists r, [], (Some EOF), []. split; [reflexivity|].
    split; [unfold readerOK; auto|]. split; [reflexivity|].
    split; [reflexivity|]. split; [lia|]. intros s Hin. destruct Hin. }
  set (ra := acquireBufferReader r (shl64 minSize 1)).
  destruct (acquireBufferReader_fields r (shl64 minSize 1)) as (Eh & Ef & Es).
  fold ra in Eh, Ef, Es.
  assert (Hshl : shl64 minSize 1 = 2 * minSize).
  { unfold shl64. rewrite Z.shiftl_mul_pow2 by lia.
    rewrite wrap64_small; lia. }
  assert (Hb : exists n, buffer ra = Some n).
  { unfold ra, acquireBufferReader. rewrite Hshl.
    destruct (Z.gtb_spec (2 * minSize) (bufferSize r)) as [|Hle]; cbn.
    - now eexists.
    - destruct (buffer r) as [n|]; [now exists n|]. specialize (Hbuf eq_refl). lia. }
  destruct Hb as [n Hn].
  assert (Hadd : add64 minSize 4096 = minSize + 4096).
  { unfold add64. apply wrap64_small. lia. }
  rewrite Hadd. destruct (Z.ltb_spec (minSize + 4096) 0) as [|_]; [lia|].
  rewrite Hn, Ef, Hopen, Eh.
  destruct (Read_loop_returns r minSize Hok) as (st & ex & o & H1 & H2 & H3 & Hr).
  rewrite H1. cbn [bind]. rewrite H2. cbn [bind].
  rewrite len_unread in Hr by lia.
  eexists _, _, _, _. split; [reflexivity|].
  assert (Hra : buffer ra = None -> bufferSize ra <= 0) by (rewrite Hn; discriminate).
  unfold readerOK, set_fd. cbn [stmtHeader fd fsize buffer bufferSize].
  rewrite Eh, Es.
  destruct ex.
  - unfold Seek_Start. rewrite Hopen.
    destruct (Z.ltb_spec (f_off (fd r) + readSize st) 0) as [|_]; [lia|].
    cbn. split; [split; [exact Hok|]; repeat split; auto; lia|].
    repeat split; auto; lia.
  - unfold drained. cbn. rewrite Hopen.
    split; [split; [exact Hok|]; repeat split; auto; lia|].
    repeat split; auto; lia.
Qed.

(** ** The region boundary *)


Lemma RegionReads_bounded (file : bytes) :
  forall (sizes : list Z) (rr : RegionReader),
    readerOK (fileReader rr) ->
    f_data (fd (fileReader rr)) = file ->
    pos rr = f_off (fd (fileReader rr)) ->
    Forall (fun maxBlockSize => 0 < maxBlockSize < 2 ^ 62) sizes ->
    - 2 ^ 63 <= offset rr + size rr < 2 ^ 63 ->
    exists rr',
      RegionReads rr sizes = Ret rr'
      /\ offset rr' = offset rr /\ size rr' = size rr
      /\ pos rr <= pos rr' <= len file.
Proof.
  induction sizes as [|m sizes IH]; intros rr Hok Hdata Hpos Hsizes Hrange.
  - exists rr. destruct Hok as (_ & _ & Hsz & Hoff & _).
    rewrite Hsz, Hdata in Hoff. repeat split; try reflexivity; lia.
  - apply Forall_cons_iff in Hsizes as [Hm Hrest].
    cbn [RegionReads]. unfold RegionRead.
    unfold add64. rewrite (wrap64_small _ Hrange).
    destruct (Z.geb_spec (pos rr) (offset rr + size rr)) as [Hge|Hlt].
    { cbn [bind fst]. apply IH; auto. }
    pose proof Hok as (_ & _ & Hsz & Hoff & _).
    unfold sub64. rewrite wrap64_small by lia.
    set (readSize := if m <? offset rr + size rr - pos rr then m
                     else offset rr + size rr - pos rr).
    assert (Hrs : 0 < readSize < 2 ^ 62).
    { unfold readSize.
      destruct (Z.ltb_spec m (offset rr + size rr - pos rr)); lia. }
    destruct (Read_readerOK (fileReader rr) readSize Hok Hrs)
      as (r' & batch & err & lg & H & Hok' & Hd' & _ & Hmono & _).
    rewrite H. cbn [bind fst].
    match goal with |- context [RegionReads ?x sizes] =>
      destruct (IH x) as (rr' & H' & Ho & Hs & Hp) end; cbn; auto.
    { now rewrite Hd'. }
    { unfold Tell, currOffset, Seek_Current.
      destruct Hok' as (_ & -> & _). reflexivity. }
    exists rr'. split; [exact H'|].
    cbn in Ho, Hs, Hp. unfold Tell, currOffset, Seek_Current in Hp.
    destruct Hok' as (_ & Hopen' & _). rewrite Hopen' in Hp.
    repeat split; auto; lia.
Qed.


(** ** The statements at a sample input *)

Lemma dump4Reader_constructed : NewMDDataReader dump4 0 = Ret (Ok dump4Reader).
Proof. vm_compute. reflexivity. Qed.

Lemma Read_emits_well_formed_statements_witness :
  Read dump4Reader 100
  = Ret (dump4ReaderAtEnd, ([B "INSERT INTO t VALUES(1),(2),(3);"], None), [])
  /\ In (B "INSERT INTO t VALUES(1),(2),(3);")
        [B "INSERT INTO t VALUES(1),(2),(3);"]
  /\ (exists body,
        B "INSERT INTO t VALUES(1),(2),(3);" = stmtHeader dump4Reader ++ body)
  /\ (exists init,
        B "INSERT INTO t VALUES(1),(2),(3);" = init ++ [semicolon]).
Proof.
  split; [vm_compute; reflexivity|].
  split; [left; reflexivity|].
  apply (Read_emits_well_formed_statements dump4Reader dump4ReaderAtEnd 100
           [B "INSERT INTO t VALUES(1),(2),(3);"] None []).
  - vm_compute. reflexivity.
  - left. reflexivity.
Defined.

Lemma Read_appendSQL_slices_in_bounds_witness :
  stmtHeader dump4Reader = getInsertStatementHeader dump4
  /\ len (stmtHeader dump4Reader) <> 0
  /\ 19 <= len (stmtHeader dump4Reader)
  /\ Read dump4Reader 100 <> Panic SliceBounds
  /\ (forall r' res lg, Read dump4Reader 100 = Ret (r', res, lg) ->
        forall s, ~ In (UnexpectStart s) lg).
Proof.
  split; [vm_compute; reflexivity|].
  split; [vm_compute; discriminate|].
  apply (Read_appendSQL_slices_in_bounds dump4 dump4Reader 100).
  - vm_compute. reflexivity.
  - vm_compute. discriminate.
Defined.


Lemma Close_twice_witness :
  f_closed (fd dump4Reader) = false
  /\ exists r1,
       Close dump4Reader = (r1, None)
       /\ f_closed (fd r1) = true
       /\ buffer r1 = None /\ bufferSize r1 = 0
       /\ Close r1 = (r1, Some (Trace ErrClosed))
       /\ forall off sz p,
            exists rr1,
              RegionClose {| fileReader := dump4Reader; offset := off;
                             size := sz; pos := p |}
              = (rr1, None)
              /\ fileReader rr1 = r1
              /\ RegionClose rr1 = (rr1, Some (Trace (Trace ErrClosed))).
Proof.
  split; [reflexivity|].
  apply (Close_twice dump4Reader). reflexivity.
Defined.

(** ** Trimming a line with its newline *)

Lemma trimLeftSpace_snoc_nl :
  forall (n : nat) (s : bytes), (length s <= n)%nat ->
    trimLeftSpace (s ++ [nl])
    = match trimLeftSpace s with [] => [] | _ :: _ => trimLeftSpace s ++ [nl] end.
Proof.
  assert (N2 : forall b, space2 b nl = false).
  { intros b. unfold space2. change (code nl) with 10. lia. }
  assert (N3 : forall b c, space3 b c nl = false).
  { intros b c. unfold space3. change (code nl) with 10. lia. }
  induction n as [|n IH]; intros s Hs.
  - destruct s; [reflexivity | simpl in Hs; lia].
  - destruct s as [|b0 s1]; [reflexivity|].
    simpl in Hs.
    change (trimLeftSpace ((b0 :: s1) ++ [nl]))
      with (if space1 b0 then trimLeftSpace (s1 ++ [nl])
            else match s1 ++ [nl] with
                 | [] => b0 :: s1 ++ [nl]
                 | b1 :: s2 =>
                   if space2 b0 b1 then trimLeftSpace s2
                   else match s2 with
                        | [] => b0 :: s1 ++ [nl]
                        | b2 :: s3 =>
                          if space3 b0 b1 b2 then trimLeftSpace s3
                          else b0 :: s1 ++ [nl]
                        end
                 end).
    cbn [trimLeftSpace].
    destruct (space1 b0); [apply IH; lia|].
    destruct s1 as [|b1 s2]; cbn [app].
    { now rewrite N2. }
    destruct (space2 b0 b1); [apply IH; simpl in Hs; lia|].
    destruct s2 as [|b2 s3]; cbn [app].
    { now rewrite N3. }
    destruct (space3 b0 b1 b2); [apply IH; simpl in Hs; lia|].
    reflexivity.
Qed.

(** Trimming the line that [ReadBytes] returned, newline included, is
    trimming the line without its newline. *)
Lemma TrimSpace_newline (s : bytes) : TrimSpace (s ++ [nl]) = TrimSpace s.
Proof.
  unfold TrimSpace. rewrite (trimLeftSpace_snoc_nl (length s) s (le_n _)).
  destruct (trimLeftSpace s) as [|b t]; [reflexivity|].
  rewrite rev_app_distr. reflexivity.
Qed.

Lemma readLines_line (raw rest cur : bytes) :
  ~ In nl raw ->
  readLines (raw ++ nl :: rest) cur
  = (cur ++ raw ++ [nl], false) :: readLines rest [].
Proof.
  revert cur. induction raw as [|b raw IH]; intros cur Hnl; cbn [app readLines].
  - rewrite (Byte.byte_dec_lb (eq_refl nl)). reflexivity.
  - destruct (Byte.eqb b nl) eqn:E.
    + apply Byte.byte_dec_bl in E. subst. elim Hnl. now left.
    + rewrite IH by (intros Hin; apply Hnl; now right).
      now rewrite <- app_assoc.
Qed.

(** ** Reading the rows of a well-formed dump *)

Lemma joinRows_snoc (acc : list bytes) (p : bytes) :
  joinRows (acc ++ [p]) = (joinRows acc ++ p) ++ [comma].
Proof.
  unfold joinRows. rewrite map_app, concat_app. simpl.
  now rewrite app_nil_r, app_assoc.
Qed.

Lemma stmtOf_snoc (hdr : bytes) (acc : list bytes) (p : bytes) :
  stmtOf hdr (acc ++ [p]) = hdr ++ (joinRows acc ++ p) ++ [semicolon].
Proof. unfold stmtOf. now rewrite joinRows_snoc, setLast_snoc. Qed.

Lemma emit_snoc (hdr : bytes) (acc : list bytes) (p : bytes) :
  emit hdr (acc ++ [p]) = [stmtOf hdr (acc ++ [p])].
Proof. destruct acc; reflexivity. Qed.

Lemma isComment_snoc (p : bytes) (c : byte) :
  code c <> 47 -> isComment (p ++ [c]) = false.
Proof.
  intros Hc. unfold isComment. destruct (p ++ [c]) as [|c0 t] eqn:E; [reflexivity|].
  rewrite <- E.
  destruct (HasSuffix (p ++ [c]) (B "*/")) eqn:Hs; [|now rewrite andb_false_r].
  apply HasSuffix_app in Hs as [t' Ht'].
  change (B "*/") with (["*"%byte] ++ ["/"%byte]) in Ht'.
  rewrite app_assoc in Ht'. apply app_inj_tail in Ht' as [_ ->]. now elim Hc.
Qed.

Lemma appendSQL_header_only (hdr : bytes) (o : batch) :
  headerOK hdr -> appendSQL hdr hdr o = Ret o.
Proof.
  intros Hok. pose proof (headerOK_len hdr Hok) as Hlen.
  destruct (headerOK_ends hdr Hok) as (c0 & t0 & t1 & c1 & E0 & E1 & S0 & S1 & _).
  unfold appendSQL. rewrite (TrimSpace_id hdr c0 c1 t0 t1 E0 E1 S0 S1).
  destruct (Z.eqb_spec (len hdr) 0); [lia|].
  assert (Hp : HasPrefix hdr hdr = true).
  { apply HasPrefix_app. exists []. now rewrite app_nil_r. }
  rewrite Hp. simpl. now rewrite Z.eqb_refl.
Qed.

(** A candidate [hdr ++ body ++ [c]] with [c] a comma or a semicolon is
    emitted with [;] at its end. *)
Lemma appendSQL_rows (hdr body : bytes) (c : byte) :
  headerOK hdr -> c = comma \/ c = semicolon ->
  appendSQL hdr (hdr ++ body ++ [c]) emptyBatch
  = Ret {| stmts := [hdr ++ body ++ [semicolon]]; logs := [] |}.
Proof.
  intros Hok Hc. pose proof (headerOK_len hdr Hok) as Hlen.
  destruct (headerOK_ends hdr Hok) as (c0 & t0 & t1 & c1 & E0 & E1 & S0 & S1 & _).
  set (sql := hdr ++ body ++ [c]).
  assert (Hid : TrimSpace sql = sql).
  { apply (TrimSpace_id sql c0 c (t0 ++ body ++ [c]) (hdr ++ body)).
    - unfold sql. now rewrite E0 at 1.
    - unfold sql. now rewrite app_assoc.
    - exact S0.
    - destruct Hc as [-> | ->]; reflexivity. }
  unfold appendSQL. rewrite Hid.
  assert (Hl : len sql = len hdr + len body + 1).
  { unfold sql. rewrite !len_app. unfold len at 3. simpl. lia. }
  pose proof (len_nonneg body) as Hb.
  destruct (Z.eqb_spec (len sql) 0); [lia|].
  assert (Hp : HasPrefix sql hdr = true).
  { apply HasPrefix_app. now exists (body ++ [c]). }
  rewrite Hp. simpl.
  destruct (Z.eqb_spec (len sql) (len hdr)); [lia|].
  assert (Es : sql = (hdr ++ body) ++ [c]) by (unfold sql; now rewrite app_assoc).
  destruct Hc as [-> | ->].
  - assert (Hs : HasSuffix sql [semicolon] = false).
    { destruct (HasSuffix sql [semicolon]) eqn:Hs; [|reflexivity].
      apply HasSuffix_app in Hs as [t Ht]. rewrite Es in Ht.
      apply app_inj_tail in Ht as [_ Ht]. discriminate. }
    rewrite Hs. simpl.
    assert (Hs' : HasSuffix sql [comma] = true).
    { apply HasSuffix_app. now exists (hdr ++ body). }
    rewrite Hs'. rewrite Es, setLast_snoc, <- app_assoc. reflexivity.
  - assert (Hs : HasSuffix sql [semicolon] = true).
    { apply HasSuffix_app. now exists (hdr ++ body). }
    rewrite Hs. reflexivity.
Qed.

Lemma flush_rows (hdr : bytes) (acc : list bytes) (st : loopState) :
  headerOK hdr -> rowState hdr acc st ->
  flush hdr st = Ret {| stmts := emit hdr acc; logs := [] |}.
Proof.
  intros Hok [Ho [[-> Hs] | Hs]]; unfold flush; rewrite Hs, Ho.
  - reflexivity.
  - pose proof (headerOK_len hdr Hok) as Hlen.
    destruct (Z.ltb_spec 0 (len (hdr ++ joinRows acc))) as [_|Hn].
    2:{ rewrite len_app in Hn. pose proof (len_nonneg (joinRows acc)). lia. }
    destruct acc as [|p acc] using rev_ind.
    + unfold joinRows. simpl. rewrite app_nil_r.
      now apply appendSQL_header_only.
    + rewrite emit_snoc, stmtOf_snoc, joinRows_snoc.
      apply appendSQL_rows; auto.
Qed.

Lemma statement0_rows (hdr line : bytes) (acc : list bytes) (st : loopState) :
  headerOK hdr -> rowState hdr acc st -> HasPrefix line hdr = false ->
  (if (len (statement st) =? 0) && negb (HasPrefix line hdr)
   then statement st ++ hdr else statement st) = hdr ++ joinRows acc.
Proof.
  intros Hok [_ [[-> Hs] | Hs]] Hp; rewrite Hs, Hp.
  - simpl. unfold joinRows. simpl. now rewrite app_nil_r.
  - pose proof (headerOK_len hdr Hok) as Hlen.
    destruct (Z.eqb_spec (len (hdr ++ joinRows acc)) 0) as [E|_]; [|reflexivity].
    rewrite len_app in E. pose proof (len_nonneg (joinRows acc)). lia.
Qed.

Lemma appendLine_comma (hdr p : bytes) (acc : list bytes) (st : loopState) :
  headerOK hdr -> rowState hdr acc st ->
  HasPrefix (p ++ [comma]) hdr = false ->
  appendLine hdr (p ++ [comma]) st
  = Ret {| statement := hdr ++ joinRows (acc ++ [p]); out := emptyBatch;
           readSize := readSize st |}.
Proof.
  intros Hok Hst Hp. unfold appendLine.
  rewrite (statement0_rows hdr _ acc st Hok Hst Hp).
  rewrite joinRows_snoc.
  replace ((hdr ++ joinRows acc) ++ p ++ [comma])
    with ((hdr ++ joinRows acc ++ p) ++ [comma])
    by (now rewrite <- !app_assoc).
  rewrite lastByte_snoc. destruct Hst as [-> _].
  change (Byte.eqb comma semicolon) with false. cbv iota.
  now rewrite <- !app_assoc.
Qed.

Lemma appendLine_semicolon (hdr p : bytes) (acc : list bytes) (st : loopState) :
  headerOK hdr -> rowState hdr acc st ->
  HasPrefix (p ++ [semicolon]) hdr = false ->
  appendLine hdr (p ++ [semicolon]) st
  = Ret {| statement := [];
           out := {| stmts := [stmtOf hdr (acc ++ [p])]; logs := [] |};
           readSize := readSize st |}.
Proof.
  intros Hok Hst Hp. unfold appendLine.
  rewrite (statement0_rows hdr _ acc st Hok Hst Hp).
  replace ((hdr ++ joinRows acc) ++ p ++ [semicolon])
    with (hdr ++ (joinRows acc ++ p) ++ [semicolon])
    by (now rewrite <- !app_assoc).
  replace (lastByte (hdr ++ (joinRows acc ++ p) ++ [semicolon]))
    with (Some semicolon)
    by (now rewrite !app_assoc, lastByte_snoc).
  change (Byte.eqb semicolon semicolon) with true. cbv iota.
  destruct Hst as [-> _].
  rewrite (appendSQL_rows hdr (joinRows acc ++ p) semicolon Hok (or_intror eq_refl)).
  cbn [bind]. now rewrite stmtOf_snoc.
Qed.

Lemma rowsBytes_cons (row : bytes * bytes) (rows : list (bytes * bytes)) :
  rowsBytes (row :: rows) = fst row ++ nl :: rowsBytes rows.
Proof. unfold rowsBytes. simpl. now rewrite <- app_assoc. Qed.

Lemma len_rowsBytes_cons (row : bytes * bytes) (rows : list (bytes * bytes)) :
  len (rowsBytes (row :: rows)) = len (fst row ++ [nl]) + len (rowsBytes rows).
Proof.
  rewrite rowsBytes_cons, <- len_app. f_equal. now rewrite <- app_assoc.
Qed.

(** The loop of [Read] on the lines of the rows: it consumes [k] of them,
    and what it has emitted when it stops, the pending statement
    included, is the one statement that carries the rows accumulated
    before together with these [k] rows. *)
Lemma readLoop_rows (hdr : bytes) (minSize : Z) :
  headerOK hdr ->
  forall (rows : list (bytes * bytes)) (acc : list bytes) (st : loopState),
    rowsOK hdr rows -> rowState hdr acc st ->
    exists (k : nat) st' ex,
      (k <= length rows)%nat
      /\ readLoop hdr minSize (readLines (rowsBytes rows) []) st = Ret (st', ex)
      /\ flush hdr st'
         = Ret {| stmts := emit hdr (acc ++ firstn k (payloads rows)); logs := [] |}
      /\ readSize st' = readSize st + len (rowsBytes (firstn k rows))
      /\ (ex = ExitEOF -> k = length rows)
      /\ (ex = ExitBudget -> minSize <= readSize st').
Proof.
  intros Hok. induction rows as [|[raw p] rows IH]; intros acc st Hrows Hst.
  - exists 0%nat. cbn [rowsBytes map concat readLines readLoop].
    change (TrimSpace []) with (@nil byte).
    change (0 <? len (@nil byte)) with false. cbn [andb bind statement out readSize].
    change (len (@nil byte)) with 0. rewrite Z.add_0_r.
    assert (Hst' : rowState hdr acc
                     {| statement := statement st; out := out st;
                        readSize := readSize st |}) by exact Hst.
    pose proof (flush_rows hdr acc _ Hok Hst') as Hf.
    cbn [firstn payloads map length]. rewrite app_nil_r.
    destruct (Z.geb_spec (readSize st) minSize).
    + eexists _, ExitBudget. repeat split; try exact Hf; cbn; try lia; intros; discriminate.
    + eexists _, ExitEOF. repeat split; try exact Hf; cbn; try lia; intros; discriminate.
  - destruct Hrows as [(Hnl & Htrim & Hpre & _) Hrows]. cbn [fst snd] in *.
    rewrite rowsBytes_cons, (readLines_line raw _ [] Hnl). cbn [app readLoop].
    rewrite TrimSpace_newline, Htrim.
    set (sep := match rows with [] => semicolon | _ :: _ => comma end) in *.
    assert (Hsep : sep = comma \/ sep = semicolon).
    { unfold sep. destruct rows; auto. }
    assert (Hcm : isComment (p ++ [sep]) = false).
    { apply isComment_snoc. destruct Hsep as [-> | ->]; discriminate. }
    assert (Hpos : (0 <? len (p ++ [sep])) = true).
    { rewrite len_app. pose proof (len_nonneg p). unfold len at 2. simpl. lia. }
    rewrite Hcm, Hpos. cbn [andb].
    destruct rows as [|row2 rows'].
    + (* the last row *)
      unfold sep in *. rewrite (appendLine_semicolon hdr p acc st Hok Hst Hpre).
      cbn [bind statement out readSize].
      assert (Hf : forall z,
        flush hdr {| statement := [];
                     out := {| stmts := [stmtOf hdr (acc ++ [p])]; logs := [] |};
                     readSize := z |}
        = Ret {| stmts := emit hdr (acc ++ firstn 1 (payloads [(raw, p)]));
                 logs := [] |}).
      { intros z. cbn [payloads map firstn snd]. now rewrite emit_snoc. }
      assert (Hl : len (rowsBytes (firstn 1 [(raw, p)])) = len (raw ++ [nl])).
      { cbn [firstn]. rewrite len_rowsBytes_cons. cbn [fst].
        change (len (rowsBytes [])) with 0. lia. }
      exists 1%nat.
      destruct (Z.geb_spec (readSize st + len (raw ++ [nl])) minSize) as [Hge|Hlt].
      * eexists _, ExitBudget. split; [simpl; lia|]. split; [reflexivity|].
        split; [apply Hf|]. cbn [readSize]. rewrite Hl.
        repeat split; try lia; intros; try discriminate; try lia.
      * cbn [rowsBytes map concat readLines readLoop].
        change (TrimSpace []) with (@nil byte).
        change (0 <? len (@nil byte)) with false.
        cbn [andb bind statement out readSize].
        change (len (@nil byte)) with 0. rewrite Z.add_0_r.
        destruct (Z.geb_spec (readSize st + len (raw ++ [nl])) minSize); [lia|].
        eexists _, ExitEOF. split; [simpl; lia|]. split; [reflexivity|].
        split; [apply Hf|]. cbn [readSize]. rewrite Hl.
        repeat split; try lia; intros; try discriminate; try lia.
    + (* a row followed by another one *)
      unfold sep in *. rewrite (appendLine_comma hdr p acc st Hok Hst Hpre).
      cbn [bind statement out readSize].
      set (st2 := {| statement := hdr ++ joinRows (acc ++ [p]); out := emptyBatch;
                     readSize := readSize st + len (raw ++ [nl]) |}).
      assert (Hst2 : rowState hdr (acc ++ [p]) st2).
      { split; [reflexivity | now right]. }
      destruct (Z.geb_spec (readSize st + len (raw ++ [nl])) minSize) as [Hge|Hlt].
      * exists 1%nat. eexists _, ExitBudget. split; [simpl; lia|].
        split; [reflexivity|]. fold st2.
        split; [exact (flush_rows hdr _ st2 Hok Hst2)|].
        cbn [firstn readSize st2]. rewrite len_rowsBytes_cons. cbn [fst].
        change (len (rowsBytes [])) with 0.
        repeat split; try lia; intros; try discriminate; try lia.
      * destruct (IH (acc ++ [p]) st2 Hrows Hst2)
          as (k & st' & ex & Hk & Hloop & Hf & Hr & He & Hb).
        exists (S k), st', ex. split; [simpl in *; lia|].
        split; [exact Hloop|]. split.
        { rewrite Hf. cbn [payloads map firstn snd].
          now rewrite <- app_assoc. }
        split.
        { rewrite Hr. cbn [firstn readSize st2]. rewrite len_rowsBytes_cons.
          cbn [fst]. lia. }
        split; [intros E; rewrite (He E); reflexivity | exact Hb].
Qed.

(** ** [Read] on an open descriptor *)

(** [Read] in terms of its loop, and where it leaves the descriptor: at
    the start offset plus the bytes counted when the budget is reached,
    at the end of the file when the loop ends at [io.EOF]. *)
Lemma Read_open (r : MDDataReader) (minSize : Z) (st : loopState)
  (ex : loopExit) (o : batch) :
  f_closed (fd r) = false ->
  0 <= f_off (fd r) < fsize r ->
  0 < minSize < 2 ^ 62 ->
  (buffer r = None -> bufferSize r <= 0) ->
  readLoop (stmtHeader r) minSize (readLines (unread (fd r)) [])
    {| statement := []; out := emptyBatch; readSize := 0 |} = Ret (st, ex) ->
  flush (stmtHeader r) st = Ret o ->
  0 <= readSize st ->
  exists r',
    Read r minSize = Ret (r', (stmts o, None), logs o)
    /\ f_data (fd r') = f_data (fd r)
    /\ f_closed (fd r') = false
    /\ fsize r' = fsize r
    /\ stmtHeader r' = stmtHeader r
    /\ (buffer r' = None -> bufferSize r' <= 0)
    /\ f_off (fd r')
       = match ex with
         | ExitBudget => f_off (fd r) + readSize st
         | ExitEOF => Z.max (f_off (fd r)) (len (f_data (fd r)))
         end.
Proof.
  intros Hopen Hoff Hm Hbuf H1 H2 Hrs. unfold Read.
  unfold currOffset, Seek_Current. rewrite Hopen.
  destruct (Z.geb_spec (f_off (fd r)) (fsize r)) as [Hge|_]; [lia|].
  set (ra := acquireBufferReader r (shl64 minSize 1)).
  destruct (acquireBufferReader_fields r (shl64 minSize 1)) as (Eh & Ef & Es).
  fold ra in Eh, Ef, Es.
  assert (Hshl : shl64 minSize 1 = 2 * minSize).
  { unfold shl64. rewrite Z.shiftl_mul_pow2 by lia.
    rewrite wrap64_small; lia. }
  assert (Hb : exists n, buffer ra = Some n).
  { unfold ra, acquireBufferReader. rewrite Hshl.
    destruct (Z.gtb_spec (2 * minSize) (bufferSize r)) as [|Hle]; cbn.
    - now eexists.
    - destruct (buffer r) as [n|]; [now exists n|]. specialize (Hbuf eq_refl). lia. }
  destruct Hb as [n Hn].
  assert (Hadd : add64 minSize 4096 = minSize + 4096).
  { unfold add64. apply wrap64_small. lia. }
  rewrite Hadd. destruct (Z.ltb_spec (minSize + 4096) 0) as [|_]; [lia|].
  rewrite Hn, Ef, Hopen, Eh, H1. cbn [bind]. rewrite H2. cbn [bind].
  eexists. split; [reflexivity|].
  unfold set_fd. cbn [stmtHeader fd fsize buffer bufferSize].
  assert (Hra : buffer ra = None -> bufferSize ra <= 0) by (rewrite Hn; discriminate).
  destruct ex.
  - unfold Seek_Start. rewrite Hopen.
    destruct (Z.ltb_spec (f_off (fd r) + readSize st) 0) as [|_]; [lia|].
    cbn. repeat split; auto.
  - unfold drained. cbn. repeat split; auto.
Qed.

(** ** Two passes and one pass over a well-formed dump *)

Lemma payloads_skipn (k : nat) (rows : list (bytes * bytes)) :
  payloads (skipn k rows) = skipn k (payloads rows).
Proof.
  unfold payloads. revert rows. induction k as [|k IH]; intros [|row rows];
    simpl; auto.
Qed.

Lemma firstn_payloads_all (rows : list (bytes * bytes)) :
  firstn (length rows) (payloads rows) = payloads rows.
Proof. apply firstn_all2. unfold payloads. rewrite length_map. lia. Qed.

Lemma rowsBytes_app (a b : list (bytes * bytes)) :
  rowsBytes (a ++ b) = rowsBytes a ++ rowsBytes b.
Proof. unfold rowsBytes. now rewrite map_app, concat_app. Qed.

Lemma rowsOK_skipn (hdr : bytes) (k : nat) :
  forall rows, rowsOK hdr rows -> rowsOK hdr (skipn k rows).
Proof.
  induction k as [|k IH]; intros [|row rows] H; simpl; auto.
  apply IH. exact (proj2 H).
Qed.

(** Rows have at least their newline: a proper prefix of the rows is
    shorter than the rows. *)
Lemma len_rowsBytes_firstn (k : nat) :
  forall rows : list (bytes * bytes),
    (k <= length rows)%nat ->
    len (rowsBytes (firstn k rows)) <= len (rowsBytes rows)
    /\ (len (rowsBytes rows) <= len (rowsBytes (firstn k rows)) ->
        k = length rows).
Proof.
  induction k as [|k IH]; intros [|row rows] Hk; simpl in Hk; cbn [firstn].
  - split; [lia | reflexivity].
  - rewrite len_rowsBytes_cons, len_app. change (len (rowsBytes [])) with 0.
    pose proof (len_nonneg (fst row)). pose proof (len_nonneg (rowsBytes rows)).
    unfold len at 2 5. simpl. split; lia.
  - lia.
  - rewrite !len_rowsBytes_cons.
    destruct (IH rows) as [H1 H2]; [lia|]. split; [lia|].
    intros H. simpl. f_equal. apply H2. lia.
Qed.

Lemma appendLine_header_line (hdr : bytes) (z : Z) :
  headerOK hdr ->
  appendLine hdr hdr {| statement := []; out := emptyBatch; readSize := z |}
  = Ret {| statement := hdr; out := emptyBatch; readSize := z |}.
Proof.
  intros Hok.
  destruct (headerOK_ends hdr Hok) as (c0 & t0 & t1 & c1 & E0 & E1 & _ & _ & _ & H1).
  unfold appendLine. cbn [statement out readSize].
  assert (Hp : HasPrefix hdr hdr = true).
  { apply HasPrefix_app. exists []. now rewrite app_nil_r. }
  rewrite Hp. cbn [negb andb app].
  change (len (@nil byte) =? 0) with true. cbn [andb].
  change ([] ++ hdr) with hdr.
  replace (lastByte hdr) with (Some c1) by (now rewrite E1, lastByte_snoc).
  rewrite (code_neq_eqb c1 semicolon) by (change (code semicolon) with 59; lia).
  reflexivity.
Qed.

(** The loop of [Read] from the start of the dump: it consumes the header
    line and [k] rows, and emits the statement of these rows. *)
Lemma readLoop_dump (hdr hraw : bytes) (rows : list (bytes * bytes))
  (minSize : Z) :
  headerOK hdr -> ~ In nl hraw -> TrimSpace hraw = hdr -> rowsOK hdr rows ->
  exists (k : nat) st' ex,
    (k <= length rows)%nat
    /\ readLoop hdr minSize (readLines (hraw ++ nl :: rowsBytes rows) [])
         {| statement := []; out := emptyBatch; readSize := 0 |} = Ret (st', ex)
    /\ flush hdr st'
       = Ret {| stmts := emit hdr (firstn k (payloads rows)); logs := [] |}
    /\ readSize st' = len (hraw ++ [nl]) + len (rowsBytes (firstn k rows))
    /\ (ex = ExitEOF -> k = length rows)
    /\ (ex = ExitBudget -> minSize <= readSize st').
Proof.
  intros Hok Hnl Htrim Hrows.
  destruct (headerOK_ends hdr Hok) as (c0 & t0 & t1 & c1 & E0 & E1 & _ & _ & _ & H1).
  pose proof (headerOK_len hdr Hok) as Hlen.
  rewrite (readLines_line hraw _ [] Hnl). cbn [app readLoop].
  rewrite TrimSpace_newline, Htrim.
  assert (Hcm : isComment hdr = false).
  { rewrite E1. apply isComment_snoc. lia. }
  rewrite Hcm, andb_false_r.
  destruct (Z.ltb_spec 0 (len hdr)) as [_|]; [|lia].
  rewrite (appendLine_header_line hdr 0 Hok). cbn [bind statement out readSize].
  set (st2 := {| statement := hdr; out := emptyBatch;
                 readSize := 0 + len (hraw ++ [nl]) |}).
  assert (Hst2 : rowState hdr [] st2).
  { split; [reflexivity|]. right. unfold joinRows. simpl. now rewrite app_nil_r. }
  destruct (Z.geb_spec (0 + len (hraw ++ [nl])) minSize) as [Hge|Hlt].
  - exists 0%nat. eexists _, ExitBudget. split; [lia|]. split; [reflexivity|].
    fold st2. split; [exact (flush_rows hdr [] st2 Hok Hst2)|].
    cbn [firstn readSize st2]. change (len (rowsBytes [])) with 0.
    repeat split; try lia. intros; discriminate.
  - destruct (readLoop_rows hdr minSize Hok rows [] st2 Hrows Hst2)
      as (k & st' & ex & Hk & Hloop & Hf & Hr & He & Hb).
    exists k, st', ex. cbn [app readSize st2] in *.
    repeat split; auto; lia.
Qed.

Lemma firstn_without_last (s : bytes) (c : byte) :
  firstn (length (s ++ [c]) - 1) (s ++ [c]) = s.
Proof.
  rewrite length_app. simpl.
  replace (length s + 1 - 1)%nat with (length s) by lia.
  rewrite firstn_app, firstn_all, Nat.sub_diag. simpl. apply app_nil_r.
Qed.

Lemma isAnnotation_header (hdr : bytes) : headerOK hdr -> isAnnotation hdr = false.
Proof.
  intros Hok.
  destruct (headerOK_ends hdr Hok) as (c0 & t0 & _ & _ & E0 & _ & _ & _ & H0 & _).
  unfold isAnnotation.
  destruct (HasPrefix hdr (B "/*")) eqn:Hp; [|reflexivity].
  apply HasPrefix_app in Hp as [t Ht]. rewrite E0 in Ht.
  inversion Ht; subst. change (code "/") with 47 in H0. lia.
Qed.

(** A reader constructed at offset 0 of a file that starts with its
    header line stands at offset 0. *)
Lemma NewMDDataReader_header_line (hraw rest : bytes) (r0 : MDDataReader) :
  NewMDDataReader (hraw ++ nl :: rest) 0 = Ret (Ok r0) ->
  ~ In nl hraw -> TrimSpace hraw = stmtHeader r0 ->
  f_off (fd r0) = 0.
Proof.
  intros H Hnl Htrim.
  pose proof (len_nonneg (hraw ++ nl :: rest)) as Hn.
  destruct (NewMDDataReader_readerOK _ 0 r0 H Hn) as ((Hok & _) & _ & He).
  rewrite He in Htrim, Hok.
  unfold NewMDDataReader, Seek_Start in H. cbn [os_Open f_closed f_data f_off] in H.
  change (0 <? 0) with false in H. cbn [stmtHeader] in H.
  destruct (len (getInsertStatementHeader (hraw ++ nl :: rest)) =? 0);
    [discriminate|].
  unfold skipAnnotation, unread in H. cbn [fd f_closed f_off f_data fsize] in H.
  change (Z.to_nat 0) with 0%nat in H. cbn [skipn] in H.
  rewrite (readLines_line hraw rest [] Hnl) in H. cbn [app scanAnnotation] in H.
  rewrite firstn_without_last, Htrim, (isAnnotation_header _ Hok) in H.
  cbn [negb] in H. change (add64 0 0) with 0 in H.
  destruct (Z.gtb_spec 0 (len (hraw ++ nl :: rest))) as [|_]; [lia|].
  unfold Seek_Start in H. cbn [f_closed f_data f_off] in H.
  change (0 <? 0) with false in H. cbn [bind fst] in H.
  inversion H; subst. reflexivity.
Qed.

(** ** Lines that end with a newline, and the last line when it does not *)

Lemma readLines_last (s cur : bytes) :
  ~ In nl s -> readLines s cur = [(cur ++ s, true)].
Proof.
  revert cur. induction s as [|b s IH]; intros cur Hnl; cbn [readLines].
  - now rewrite app_nil_r.
  - destruct (Byte.eqb b nl) eqn:E.
    + apply Byte.byte_dec_bl in E. subst. elim Hnl. now left.
    + rewrite IH by (intros Hin; apply Hnl; now right).
      now rewrite <- app_assoc.
Qed.

Lemma linesBytes_cons (l : bytes) (ls : list bytes) :
  linesBytes (l :: ls) = l ++ nl :: linesBytes ls.
Proof. unfold linesBytes. simpl. now rewrite <- app_assoc. Qed.

(** [getInsertStatementHeader] passes the newline-terminated lines that
    do not match. *)
Lemma scanHeader_passes (ls : list bytes) (rest : bytes) :
  (forall l, In l ls -> ~ In nl l /\ FindStringIndex (l ++ [nl]) = None) ->
  scanHeader (readLines (linesBytes ls ++ rest) [])
  = scanHeader (readLines rest []).
Proof.
  induction ls as [|l ls IH]; intros H; [reflexivity|].
  destruct (H l (or_introl eq_refl)) as [Hnl Hno].
  rewrite linesBytes_cons, <- app_assoc, <- app_comm_cons.
  rewrite (readLines_line l _ [] Hnl). cbn [app scanHeader]. rewrite Hno.
  apply IH. intros l' Hl'. apply H. now right.
Qed.

(** The header is the match in the first newline-terminated line that
    matches. *)
Lemma getInsertStatementHeader_first_match
  (ls : list bytes) (line post : bytes) (lo hi : nat) :
  (forall l, In l ls -> ~ In nl l /\ FindStringIndex (l ++ [nl]) = None) ->
  ~ In nl line ->
  FindStringIndex (line ++ [nl]) = Some (lo, hi) ->
  getInsertStatementHeader (linesBytes ls ++ line ++ nl :: post)
  = firstn (hi - lo) (skipn lo (line ++ [nl])).
Proof.
  intros H Hnl Hm. unfold getInsertStatementHeader.
  rewrite (scanHeader_passes ls _ H), (readLines_line line _ [] Hnl).
  cbn [app scanHeader]. now rewrite Hm.
Qed.

(** A last line without a newline is never matched, whatever it is. *)
Lemma getInsertStatementHeader_last_line_ignored (ls : list bytes) (last : bytes) :
  (forall l, In l ls -> ~ In nl l /\ FindStringIndex (l ++ [nl]) = None) ->
  ~ In nl last ->
  getInsertStatementHeader (linesBytes ls ++ last) = [].
Proof.
  intros H Hnl. unfold getInsertStatementHeader.
  rewrite (scanHeader_passes ls _ H), (readLines_last last [] Hnl).
  reflexivity.
Qed.

(** [skipAnnotation] passes the newline-terminated annotation lines and
    counts their bytes. *)
Lemma scanAnnotation_passes (annots : list bytes) (rest : bytes) :
  (forall a, In a annots -> ~ In nl a /\ isAnnotation (TrimSpace a) = true) ->
  forall z,
    scanAnnotation (readLines (linesBytes annots ++ rest) []) z
    = scanAnnotation (readLines rest []) (z + len (linesBytes annots)).
Proof.
  induction annots as [|a annots IH]; intros H z.
  - change (len (linesBytes [])) with 0. now rewrite Z.add_0_r.
  - destruct (H a (or_introl eq_refl)) as [Hnl Ha].
    rewrite linesBytes_cons, <- app_assoc, <- app_comm_cons.
    rewrite (readLines_line a _ [] Hnl). cbn [app scanAnnotation].
    rewrite firstn_without_last, Ha. cbn [negb].
    rewrite IH by (intros a' Ha'; apply H; now right).
    f_equal. unfold len. rewrite !length_app. simpl. lia.
Qed.

Lemma unread_at (before rest : bytes) (closed : bool) :
  unread {| f_data := before ++ rest; f_off := len before; f_closed := closed |}
  = rest.
Proof.
  unfold unread, len. cbn [f_off f_data]. rewrite Nat2Z.id.
  rewrite skipn_app, skipn_all, Nat.sub_diag. reflexivity.
Qed.

(** The positive part of C6: when the line after the annotation lines ends
    with a newline, the reader constructed on the annotation lines stands
    on its first byte, at [offset + skipCounter]. *)
Lemma NewMDDataReader_lands_after_annotations
  (before : bytes) (annots : list bytes) (line post : bytes) (r : MDDataReader) :
  NewMDDataReader (before ++ linesBytes annots ++ line ++ nl :: post) (len before)
  = Ret (Ok r) ->
  (forall a, In a annots -> ~ In nl a /\ isAnnotation (TrimSpace a) = true) ->
  ~ In nl line -> isAnnotation (TrimSpace line) = false ->
  len (before ++ linesBytes annots ++ line ++ nl :: post) < 2 ^ 63 ->
  Tell r = len before + len (linesBytes annots)
  /\ unread (fd r) = line ++ nl :: post.
Proof.
  intros H Hann Hnl Hline Hsz.
  set (file := before ++ linesBytes annots ++ line ++ nl :: post) in *.
  pose proof (len_nonneg before) as Hb.
  pose proof (len_nonneg (linesBytes annots)) as Ha.
  assert (Hlen : len file = len before + len (linesBytes annots)
                            + len (line ++ nl :: post)).
  { unfold file. rewrite !len_app. lia. }
  pose proof (len_nonneg (line ++ nl :: post)) as Hl.
  unfold NewMDDataReader, Seek_Start in H. cbn [os_Open f_closed f_data f_off] in H.
  destruct (Z.ltb_spec (len before) 0) as [|_]; [lia|]. cbn [stmtHeader] in H.
  destruct (len (getInsertStatementHeader file) =? 0); [discriminate|].
  unfold skipAnnotation in H. cbn [fd f_closed fsize] in H.
  assert (Hun : unread {| f_data := file; f_off := len before; f_closed := false |}
                = linesBytes annots ++ line ++ nl :: post)
    by (unfold file; apply unread_at).
  rewrite Hun in H.
  rewrite (scanAnnotation_passes annots _ Hann) in H.
  rewrite (readLines_line line _ [] Hnl) in H. cbn [app scanAnnotation] in H.
  rewrite firstn_without_last, Hline in H. cbn [negb] in H.
  unfold add64 in H. rewrite wrap64_small in H by lia.
  destruct (Z.gtb_spec (len before + (0 + len (linesBytes annots))) (len file))
    as [|_]; [lia|].
  unfold Seek_Start in H. cbn [f_closed f_data f_off] in H.
  destruct (Z.ltb_spec (len before + (0 + len (linesBytes annots))) 0) as [|_];
    [lia|].
  cbn [bind fst] in H. inversion H; subst; clear H.
  unfold Tell, currOffset, Seek_Current, set_fd. cbn [fd f_closed f_off].
  split; [lia|].
  unfold file.
  replace (before ++ linesBytes annots ++ line ++ nl :: post)
    with ((before ++ linesBytes annots) ++ line ++ nl :: post)
    by (now rewrite <- app_assoc).
  replace (len before + (0 + len (linesBytes annots)))
    with (len (before ++ linesBytes annots)) by (rewrite len_app; lia).
  rewrite <- ?len_app. apply unread_at.
Qed.

(** The defect behind C6 in general: when the line after the annotation
    lines is the last line of the file and has no newline, the reader
    stands at the end of the file, whatever that line is. *)
Lemma NewMDDataReader_skips_last_line
  (before : bytes) (annots : list bytes) (last : bytes) (r : MDDataReader) :
  NewMDDataReader (before ++ linesBytes annots ++ last) (len before) = Ret (Ok r) ->
  (forall a, In a annots -> ~ In nl a /\ isAnnotation (TrimSpace a) = true) ->
  ~ In nl last ->
  Tell r = len (before ++ linesBytes annots ++ last)
  /\ unread (fd r) = [].
Proof.
  intros H Hann Hnl.
  set (file := before ++ linesBytes annots ++ last) in *.
  pose proof (len_nonneg before) as Hb.
  assert (Hlen : len before <= len file).
  { unfold file. rewrite len_app. pose proof (len_nonneg (linesBytes annots ++ last)).
    lia. }
  unfold NewMDDataReader, Seek_Start in H. cbn [os_Open f_closed f_data f_off] in H.
  destruct (Z.ltb_spec (len before) 0) as [|_]; [lia|]. cbn [stmtHeader] in H.
  destruct (len (getInsertStatementHeader file) =? 0); [discriminate|].
  unfold skipAnnotation in H. cbn [fd f_closed fsize] in H.
  assert (Hun : unread {| f_data := file; f_off := len before; f_closed := false |}
                = linesBytes annots ++ last)
    by (unfold file; apply unread_at).
  rewrite Hun in H.
  rewrite (scanAnnotation_passes annots _ Hann) in H.
  rewrite (readLines_last last [] Hnl) in H. cbn [app scanAnnotation] in H.
  cbn [bind fst] in H. inversion H; subst; clear H.
  unfold Tell, currOffset, Seek_Current, set_fd, drained, unread.
  cbn [fd f_closed f_off f_data].
  rewrite Z.max_r by lia. split; [reflexivity|].
  unfold len. rewrite Nat2Z.id. apply skipn_all.
Qed.

(** ** Resuming in a well-formed dump *)

Lemma NewMDDataReader_returns (file : bytes) (off : Z) :
  0 <= off -> len (getInsertStatementHeader file) <> 0 ->
  exists r, NewMDDataReader file off = Ret (Ok r).
Proof.
  intros Hoff Hh. unfold NewMDDataReader, Seek_Start.
  cbn [os_Open f_closed f_data f_off].
  destruct (Z.ltb_spec off 0) as [|_]; [lia|]. cbn [stmtHeader].
  destruct (Z.eqb_spec (len (getInsertStatementHeader file)) 0); [contradiction|].
  unfold skipAnnotation. cbn [fd f_closed bind fst]. now eexists.
Qed.

(** [Read] of the remainder, from the end of the first [k] rows. *)
Lemma Read_rest_of_dump (hdr hraw : bytes) (rows : list (bytes * bytes))
  (k : nat) (r : MDDataReader) (M : Z) :
  headerOK hdr -> rowsOK hdr rows -> (k <= length rows)%nat ->
  f_closed (fd r) = false ->
  f_data (fd r) = hraw ++ nl :: rowsBytes rows ->
  fsize r = len (f_data (fd r)) ->
  stmtHeader r = hdr ->
  (buffer r = None -> bufferSize r <= 0) ->
  f_off (fd r) = len (hraw ++ [nl]) + len (rowsBytes (firstn k rows)) ->
  len (hraw ++ nl :: rowsBytes rows) <= M < 2 ^ 62 ->
  exists r2 err2,
    Read r M = Ret (r2, (emit hdr (skipn k (payloads rows)), err2), []).
Proof.
  intros Hok Hrows Hk Hopen Hdata Hsz Hh Hbuf Hpos HM.
  set (file := hraw ++ nl :: rowsBytes rows) in *.
  assert (Hfile : len file = len (hraw ++ [nl]) + len (rowsBytes rows)).
  { unfold file. rewrite <- len_app. f_equal. now rewrite <- app_assoc. }
  assert (Hh1 : 1 <= len (hraw ++ [nl])).
  { rewrite len_app. pose proof (len_nonneg hraw). unfold len at 2. simpl. lia. }
  pose proof (len_rowsBytes_firstn k rows Hk) as [Hle1 Hall1].
  pose proof (len_nonneg (rowsBytes (firstn k rows))) as Hn1.
  destruct (Nat.eq_dec k (length rows)) as [Ek|Nk].
  - exists r, (Some EOF). unfold Read, currOffset, Seek_Current.
    rewrite Hopen, Hsz, Hdata, Hpos, Ek, firstn_all.
    destruct (Z.geb_spec (len (hraw ++ [nl]) + len (rowsBytes rows)) (len file));
      [|lia].
    unfold payloads. rewrite <- (length_map snd rows), skipn_all. reflexivity.
  - assert (Hun : unread (fd r) = rowsBytes (skipn k rows)).
    { unfold unread. rewrite Hdata, Hpos, <- len_app. unfold len.
      rewrite Nat2Z.id. unfold file.
      rewrite <- (firstn_skipn k rows) at 2. rewrite rowsBytes_app.
      replace (hraw ++ nl :: rowsBytes (firstn k rows) ++ rowsBytes (skipn k rows))
        with (((hraw ++ [nl]) ++ rowsBytes (firstn k rows))
              ++ rowsBytes (skipn k rows))
        by (now rewrite <- !app_assoc).
      rewrite skipn_app, skipn_all, Nat.sub_diag. reflexivity. }
    assert (Hsplit : len (rowsBytes rows)
                     = len (rowsBytes (firstn k rows))
                       + len (rowsBytes (skipn k rows))).
    { rewrite <- len_app, <- rowsBytes_app, firstn_skipn. reflexivity. }
    destruct (readLoop_rows hdr M Hok (skipn k rows) []
                {| statement := []; out := emptyBatch; readSize := 0 |}
                (rowsOK_skipn hdr k rows Hrows))
      as (k2 & st2 & ex2 & Hk2 & Hloop2 & Hf2 & Hr2 & He2 & Hb2).
    { split; [reflexivity | now left]. }
    pose proof (len_rowsBytes_firstn k2 _ Hk2) as [Hle2 Hall2].
    cbn [readSize app] in Hr2, Hf2.
    assert (Hk2' : k2 = length (skipn k rows)).
    { destruct ex2; [apply Hall2; specialize (Hb2 eq_refl); lia | now apply He2]. }
    subst k2. rewrite firstn_payloads_all, payloads_skipn in Hf2.
    assert (Hlt : len (rowsBytes (firstn k rows)) < len (rowsBytes rows)).
    { destruct (Z.lt_ge_cases (len (rowsBytes (firstn k rows)))
                  (len (rowsBytes rows))) as [|Hge]; [assumption|].
      elim Nk. apply Hall1. lia. }
    assert (HM' : 0 < M < 2 ^ 62) by lia.
    assert (Hrange : 0 <= f_off (fd r) < fsize r)
      by (rewrite Hsz, Hdata, Hpos; lia).
    assert (Hloop2' : readLoop (stmtHeader r) M (readLines (unread (fd r)) [])
                        {| statement := []; out := emptyBatch; readSize := 0 |}
                      = Ret (st2, ex2)) by (rewrite Hh, Hun; exact Hloop2).
    assert (Hf2' : flush (stmtHeader r) st2
                   = Ret {| stmts := emit hdr (skipn k (payloads rows));
                            logs := [] |}) by (rewrite Hh; exact Hf2).
    assert (Hrs2 : 0 <= readSize st2).
    { pose proof (len_nonneg (rowsBytes (firstn (length (skipn k rows))
                                           (skipn k rows)))). lia. }
    destruct (Read_open r M st2 ex2 _ Hopen Hrange HM' Hbuf Hloop2' Hf2' Hrs2)
      as (r2 & HR2 & _).
    cbn [stmts logs] in HR2. now exists r2, None.
Qed.

(** A new reader constructed where the first [k] rows end stands there. *)
Lemma NewMDDataReader_at_row (hraw : bytes) (rows : list (bytes * bytes))
  (k : nat) :
  let file := hraw ++ nl :: rowsBytes rows in
  let off := len (hraw ++ [nl]) + len (rowsBytes (firstn k rows)) in
  len (getInsertStatementHeader file) <> 0 ->
  rowsOK (getInsertStatementHeader file) rows -> (k <= length rows)%nat ->
  len file < 2 ^ 63 ->
  exists r,
    NewMDDataReader file off = Ret (Ok r)
    /\ readerOK r /\ f_data (fd r) = file
    /\ stmtHeader r = getInsertStatementHeader file
    /\ f_off (fd r) = off.
Proof.
  intros file off Hh Hrows Hk Hsz.
  pose proof (len_nonneg (hraw ++ [nl])) as Hn0.
  pose proof (len_nonneg (rowsBytes (firstn k rows))) as Hn1.
  pose proof (len_rowsBytes_firstn k rows Hk) as [Hle _].
  assert (Hfile : len file = len (hraw ++ [nl]) + len (rowsBytes rows)).
  { unfold file. rewrite <- len_app. f_equal. now rewrite <- app_assoc. }
  destruct (NewMDDataReader_returns file off) as [r Hr]; [lia | exact Hh |].
  destruct (NewMDDataReader_readerOK file off r Hr) as (Hok & Hdata & Hhdr); [lia|].
  exists r. split; [exact Hr|]. split; [exact Hok|]. split; [exact Hdata|].
  split; [exact Hhdr|].
  assert (Htell : Tell r = f_off (fd r)).
  { unfold Tell, currOffset, Seek_Current. destruct Hok as (_ & -> & _).
    reflexivity. }
  rewrite <- Htell.
  set (before := (hraw ++ [nl]) ++ rowsBytes (firstn k rows)).
  assert (Hoff : off = len before)
    by (unfold off, before; now rewrite (len_app (hraw ++ [nl]))).
  assert (Efile : file = before ++ rowsBytes (skipn k rows)).
  { unfold file, before. rewrite <- (firstn_skipn k rows) at 1.
    rewrite rowsBytes_app. now rewrite <- !app_assoc. }
  pose proof (rowsOK_skipn _ k rows Hrows) as Hrest.
  destruct (skipn k rows) as [|[raw p] rest] eqn:Es.
  - assert (E : file = before ++ linesBytes [] ++ []).
    { rewrite Efile. reflexivity. }
    rewrite E, Hoff in Hr.
    assert (Hno : forall a, In a [] ->
                    ~ In nl a /\ isAnnotation (TrimSpace a) = true)
      by (intros a []).
    destruct (NewMDDataReader_skips_last_line before [] [] r Hr Hno (fun H => H))
      as [Ht _].
    rewrite Ht, <- E, Efile, Hoff. unfold rowsBytes. simpl.
    now rewrite app_nil_r.
  - destruct Hrest as [(Hnl & _ & _ & Hann) _]. cbn [fst] in Hnl, Hann.
    assert (E : file = before ++ linesBytes [] ++ raw ++ nl :: rowsBytes rest).
    { rewrite Efile, rowsBytes_cons. reflexivity. }
    rewrite E, Hoff in Hr.
    assert (Hno : forall a, In a [] ->
                    ~ In nl a /\ isAnnotation (TrimSpace a) = true)
      by (intros a []).
    assert (Hsz' : len (before ++ linesBytes [] ++ raw ++ nl :: rowsBytes rest)
                   < 2 ^ 63) by (rewrite <- E; exact Hsz).
    destruct (NewMDDataReader_lands_after_annotations before [] raw _ r Hr
                Hno Hnl Hann Hsz') as [Ht _].
    rewrite Ht, Hoff. change (len (linesBytes [])) with 0. lia.
Qed.



(** * Further properties of the code *)

(** ** ExportStatement *)

Lemma lastByte_nonempty (s : bytes) : s <> [] -> exists c, lastByte s = Some c.
Proof.
  intros H. destruct (exists_last H) as (s' & c & ->). exists c.
  apply lastByte_snoc.
Qed.

Lemma len_eqb_nonempty (s : bytes) : (len s =? 0) = false -> s <> [].
Proof.
  intros H ->. change (len (@nil byte)) with 0 in H. discriminate.
Qed.

Lemma exportLine_closed (line : bytes) (st : exportState) :
  lastByte line = Some semicolon ->
  exportLine line st
  = Ret {| ex_data := ex_data st ++ keepStatement (ex_buffer st ++ line);
           ex_buffer := [] |}.
Proof.
  intros H. unfold exportLine.
  assert (Hne : line <> []) by (intros ->; discriminate).
  rewrite (lastByte_app _ _ Hne), H.
  change (Byte.eqb semicolon semicolon) with true. cbv iota.
  unfold keepStatement, isAnnotation.
  destruct (HasPrefix (ex_buffer st ++ line) (B "/*")
            && HasSuffix (ex_buffer st ++ line) (B "*/;")); cbn [negb].
  - now rewrite app_nil_r.
  - reflexivity.
Qed.

Lemma exportLine_open (line : bytes) (st : exportState) :
  line <> [] -> openEnded line ->
  exportLine line st
  = Ret {| ex_data := ex_data st; ex_buffer := (ex_buffer st ++ line) ++ [nl] |}.
Proof.
  intros Hne Hopen. unfold exportLine. rewrite (lastByte_app _ _ Hne).
  destruct (lastByte_nonempty line Hne) as [c Hc]. rewrite Hc.
  destruct (Byte.eqb c semicolon) eqn:E; [|reflexivity].
  apply Byte.byte_dec_bl in E. subst. now elim Hopen.
Qed.

(** One newline-terminated line of the file in the loop. *)
Lemma exportLoop_line (raw rest : bytes) (st : exportState) :
  ~ In nl raw ->
  exportLoop (readLines (raw ++ nl :: rest) []) st
  = if len (TrimSpace raw) =? 0 then exportLoop (readLines rest []) st
    else st' <- exportLine (TrimSpace raw) st ;;
         exportLoop (readLines rest []) st'.
Proof.
  intros Hnl. rewrite (readLines_line raw rest [] Hnl).
  cbn [app exportLoop andb]. now rewrite firstn_without_last.
Qed.

Lemma exportLine_inv (line : bytes) (st : exportState) :
  line <> [] -> exportInv st ->
  exists st', exportLine line st = Ret st' /\ exportInv st'.
Proof.
  intros Hne (ss & Hd & Hss).
  destruct (lastByte_nonempty line Hne) as [c Hc].
  destruct (Byte.eqb c semicolon) eqn:E.
  - apply Byte.byte_dec_bl in E. subst c.
    rewrite (exportLine_closed line st Hc). eexists. split; [reflexivity|].
    unfold exportInv, keepStatement. cbn [ex_data].
    destruct (isAnnotation (ex_buffer st ++ line)) eqn:Ea.
    + exists ss. rewrite app_nil_r. auto.
    + exists (ss ++ [ex_buffer st ++ line]). split.
      * rewrite concat_app, Hd. simpl. now rewrite app_nil_r.
      * apply Forall_app. split; [exact Hss|]. constructor; [|constructor].
        split; [|exact Ea].
        apply lastByte_Some in Hc as [init ->]. exists (ex_buffer st ++ init).
        now rewrite app_assoc.
  - rewrite (exportLine_open line st Hne).
    + eexists. split; [reflexivity|]. now exists ss.
    + intros H. rewrite Hc in H. inversion H; subst.
      rewrite (Byte.byte_dec_lb (eq_refl semicolon)) in E. discriminate.
Qed.

Lemma exportLoop_inv :
  forall (lines : list (bytes * bool)) (st : exportState),
    exportInv st ->
    exists st', exportLoop lines st = Ret st' /\ exportInv st'.
Proof.
  induction lines as [|[raw eof] rest IH]; intros st Hinv; cbn [exportLoop].
  - now exists st.
  - destruct (eof && (len raw =? 0)); [now exists st|].
    set (line := if eof then raw else TrimSpace (firstn (length raw - 1) raw)).
    destruct (len line =? 0) eqn:El; [now apply IH|].
    destruct (exportLine_inv line st (len_eqb_nonempty _ El) Hinv)
      as (st1 & -> & Hinv1).
    cbn [bind]. now apply IH.
Qed.

(** X1. [ExportStatement] never panics, and what it hands to
    [decodeCharacterSet] (what it returns for the encoding [binary]) is a
    sequence of statements, each ending with [;] and none of them an
    annotation block [/* ... */;]. *)
Theorem ExportStatement_exports_statements :
  forall (utf8_Valid : bytes -> bool) (GB18030_Bytes : bytes -> result bytes)
         (ContainsRuneError : bytes -> bool) (sqlFile : bytes),
    exists ss,
      exportData sqlFile = Ret (concat ss)
      /\ Forall (fun s => (exists init, s = init ++ [semicolon])
                          /\ isAnnotation s = false) ss
      /\ ExportStatement utf8_Valid GB18030_Bytes ContainsRuneError sqlFile "binary"
         = Ret (Exported (concat ss)).
Proof.
  intros v d c file.
  destruct (exportLoop_inv (readLines file []) {| ex_data := []; ex_buffer := [] |})
    as (st & Hst & ss & Hd & Hss).
  { exists []. split; [reflexivity | constructor]. }
  exists ss. unfold ExportStatement, exportData. rewrite Hst. cbn [bind].
  rewrite Hd. repeat split. exact Hss.
Qed.

Lemma exportLine_data (line d : bytes) (st : exportState) :
  exportLine line {| ex_data := d ++ ex_data st; ex_buffer := ex_buffer st |}
  = st' <- exportLine line st ;;
    Ret {| ex_data := d ++ ex_data st'; ex_buffer := ex_buffer st' |}.
Proof.
  unfold exportLine. cbn [ex_data ex_buffer].
  destruct (lastByte (ex_buffer st ++ line)) as [c|]; [|reflexivity].
  destruct (Byte.eqb c semicolon); cbn [bind ex_data ex_buffer]; [|reflexivity].
  destruct (negb _); [now rewrite <- app_assoc | reflexivity].
Qed.

(** What was exported before stays in front of what is exported next. *)
Lemma exportLoop_data (d : bytes) :
  forall (lines : list (bytes * bool)) (st : exportState),
    exportLoop lines {| ex_data := d ++ ex_data st; ex_buffer := ex_buffer st |}
    = st' <- exportLoop lines st ;;
      Ret {| ex_data := d ++ ex_data st'; ex_buffer := ex_buffer st' |}.
Proof.
  induction lines as [|[raw eof] rest IH]; intros st; cbn [exportLoop bind].
  - reflexivity.
  - destruct (eof && (len raw =? 0)); [reflexivity|].
    set (line := if eof then raw else TrimSpace (firstn (length raw - 1) raw)).
    destruct (len line =? 0); [apply IH|].
    rewrite exportLine_data.
    destruct (exportLine line st) as [st1| |]; cbn [bind]; try reflexivity.
    apply (IH st1).
Qed.

(** The lines of a statement before the one that closes it. *)
Lemma exportLoop_open_lines (rest : bytes) :
  forall (ls : list bytes) (st : exportState),
    (forall l, In l ls -> ~ In nl l /\ openEnded (TrimSpace l)) ->
    exportLoop (readLines (linesBytes ls ++ rest) []) st
    = exportLoop (readLines rest [])
        {| ex_data := ex_data st;
           ex_buffer := ex_buffer st ++ linesBytes (nonBlank ls) |}.
Proof.
  induction ls as [|l ls IH]; intros st H.
  - cbn. rewrite app_nil_r. now destruct st.
  - destruct (H l (or_introl eq_refl)) as [Hnl Hopen].
    rewrite linesBytes_cons, <- app_assoc, <- app_comm_cons.
    rewrite (exportLoop_line l _ st Hnl).
    unfold nonBlank. cbn [map filter]. fold (nonBlank ls).
    destruct (len (TrimSpace l) =? 0) eqn:El; cbn [negb].
    + apply IH. intros l' Hl'. apply H. now right.
    + rewrite (exportLine_open _ st (len_eqb_nonempty _ El) Hopen). cbn [bind].
      rewrite IH by (intros l' Hl'; apply H; now right).
      cbn [ex_data ex_buffer]. rewrite linesBytes_cons.
      now rewrite <- !app_assoc.
Qed.

(** X2. A statement that spans the lines [ls] and is closed by the line
    [l], the first whose trimmed text ends with [;], is exported as its
    trimmed, non-blank lines joined by newlines, unless this text is an
    annotation block; the export of the rest of the file follows it. *)
Theorem ExportStatement_one_statement :
  forall (ls : list bytes) (l rest : bytes),
    (forall x, In x ls -> ~ In nl x /\ openEnded (TrimSpace x)) ->
    ~ In nl l ->
    lastByte (TrimSpace l) = Some semicolon ->
    exportData (linesBytes ls ++ l ++ nl :: rest)
    = d <- exportData rest ;;
      Ret (keepStatement (linesBytes (nonBlank ls) ++ TrimSpace l) ++ d).
Proof.
  intros ls l rest Hls Hnl Hl. unfold exportData.
  rewrite (exportLoop_open_lines _ ls _ Hls), (exportLoop_line l rest _ Hnl).
  assert (Hne : (len (TrimSpace l) =? 0) = false).
  { destruct (TrimSpace l); [discriminate | reflexivity]. }
  rewrite Hne, (exportLine_closed _ _ Hl). cbn [bind ex_data ex_buffer app].
  set (k := keepStatement (linesBytes (nonBlank ls) ++ TrimSpace l)).
  pose proof (exportLoop_data k (readLines rest [])
                {| ex_data := []; ex_buffer := [] |}) as Hd.
  cbn [ex_data ex_buffer] in Hd. rewrite app_nil_r in Hd. rewrite Hd.
  destruct (exportLoop (readLines rest []) {| ex_data := []; ex_buffer := [] |});
    reflexivity.
Qed.

(** X3. A statement that is not closed by the end of the file is dropped:
    when no trimmed line ends with [;] and the last line, which has no
    newline, does not end with [;] either, nothing is exported. *)
Theorem ExportStatement_drops_unfinished_statement :
  forall (ls : list bytes) (last : bytes),
    (forall x, In x ls -> ~ In nl x /\ openEnded (TrimSpace x)) ->
    ~ In nl last -> openEnded last ->
    exportData (linesBytes ls ++ last) = Ret [].
Proof.
  intros ls last Hls Hnl Hopen. unfold exportData.
  rewrite (exportLoop_open_lines _ ls _ Hls), (readLines_last last [] Hnl).
  cbn [app exportLoop andb ex_data ex_buffer].
  destruct (len last =? 0) eqn:El; [reflexivity|].
  rewrite (exportLine_open _ _ (len_eqb_nonempty _ El) Hopen). reflexivity.
Qed.

(** X4. The last line of the file is used even when it has no newline,
    but then it is not trimmed: a statement closed by such a line is
    exported with that line as it is. *)
Theorem ExportStatement_last_line_verbatim :
  forall (ls : list bytes) (last : bytes),
    (forall x, In x ls -> ~ In nl x /\ openEnded (TrimSpace x)) ->
    ~ In nl last -> lastByte last = Some semicolon ->
    exportData (linesBytes ls ++ last)
    = Ret (keepStatement (linesBytes (nonBlank ls) ++ last)).
Proof.
  intros ls last Hls Hnl Hl. unfold exportData.
  rewrite (exportLoop_open_lines _ ls _ Hls), (readLines_last last [] Hnl).
  cbn [app exportLoop andb ex_data ex_buffer].
  assert (Hne : (len last =? 0) = false).
  { destruct last; [discriminate | reflexivity]. }
  rewrite Hne, (exportLine_closed _ _ Hl). reflexivity.
Qed.

(** ** decodeCharacterSet, the other arms *)

(** X5. What [decodeCharacterSet] returns without an error is the input
    itself (for [binary], and for [auto] and [utf8mb4] on valid UTF-8) or
    the output of the GB18030 decoder, free of U+FFFD (for [gb18030], and
    for [auto] on input that is not valid UTF-8): nothing else. *)
Theorem decodeCharacterSet_Ok_inversion :
  forall (utf8_Valid : bytes -> bool) (GB18030_Bytes : bytes -> result bytes)
         (ContainsRuneError : bytes -> bool) (data out : bytes)
         (characterSet : string),
    decodeCharacterSet utf8_Valid GB18030_Bytes ContainsRuneError data characterSet
    = Ok out ->
    (characterSet = "binary"%string /\ out = data)
    \/ ((characterSet = "auto"%string \/ characterSet = "utf8mb4"%string)
        /\ utf8_Valid data = true /\ out = data)
    \/ ((characterSet = "gb18030"%string
         \/ (characterSet = "auto"%string /\ utf8_Valid data = false))
        /\ GB18030_Bytes data = Ok out /\ ContainsRuneError out = false).
Proof.
  intros v d c data out cs. unfold decodeCharacterSet, decodeGB18030.
  destruct (String.eqb_spec cs "binary") as [->|_].
  { intros H. inversion H. now left. }
  destruct (String.eqb_spec cs "auto") as [->|Hauto];
    [|destruct (String.eqb_spec cs "utf8mb4") as [->|Hutf]]; cbn [orb].
  - destruct (v data) eqn:Hv.
    + intros H. inversion H. right. left. auto.
    + cbn. destruct (d data) as [dec|e]; [|discriminate].
      destruct (c dec) eqn:Hc; [discriminate|].
      intros H. inversion H; subst. right. right. auto.
  - destruct (v data) eqn:Hv; [|discriminate].
    intros H. inversion H. right. left. auto.
  - destruct (String.eqb_spec cs "gb18030") as [->|_]; [|discriminate].
    destruct (d data) as [dec|e]; [|discriminate].
    destruct (c dec) eqn:Hc; [discriminate|].
    intros H. inversion H; subst. right. right. auto.
Qed.

Lemma decodeCharacterSet_Ok_inversion_witness :
  decodeCharacterSet isAscii asciiDecoder hasEFBFBD (B "abc") "gb18030"
  = Ok (B "abc")
  /\ (("gb18030"%string = "binary"%string /\ B "abc" = B "abc")
      \/ (("gb18030"%string = "auto"%string \/ "gb18030"%string = "utf8mb4"%string)
          /\ isAscii (B "abc") = true /\ B "abc" = B "abc")
      \/ (("gb18030"%string = "gb18030"%string
           \/ ("gb18030"%string = "auto"%string /\ isAscii (B "abc") = false))
          /\ asciiDecoder (B "abc") = Ok (B "abc")
          /\ hasEFBFBD (B "abc") = false)).
Proof.
  split; [reflexivity|].
  apply (decodeCharacterSet_Ok_inversion isAscii asciiDecoder hasEFBFBD
           (B "abc") (B "abc") "gb18030").
  reflexivity.
Defined.

(** X6. Every encoding name other than [binary], [auto], [utf8mb4] and
    [gb18030] is refused with the error that names it, whatever the data:
    neither the UTF-8 test nor the decoder is consulted. *)
Theorem decodeCharacterSet_unsupported :
  forall (utf8_Valid : bytes -> bool) (GB18030_Bytes : bytes -> result bytes)
         (ContainsRuneError : bytes -> bool) (data : bytes)
         (characterSet : string),
    ~ In characterSet ["binary"; "auto"; "utf8mb4"; "gb18030"]%string ->
    decodeCharacterSet utf8_Valid GB18030_Bytes ContainsRuneError data characterSet
    = Err (ErrUnsupportedEncoding characterSet).
Proof.
  intros v d c data cs H. unfold decodeCharacterSet.
  destruct (String.eqb_spec cs "binary") as [->|_]; [elim H; simpl; auto|].
  destruct (String.eqb_spec cs "auto") as [->|_]; [elim H; simpl; auto|].
  destruct (String.eqb_spec cs "utf8mb4") as [->|_]; [elim H; simpl; auto|].
  destruct (String.eqb_spec cs "gb18030") as [->|_]; [elim H; simpl; auto|].
  reflexivity.
Qed.

Lemma decodeCharacterSet_unsupported_witness :
  ~ In "latin1"%string ["binary"; "auto"; "utf8mb4"; "gb18030"]%string
  /\ decodeCharacterSet isAscii asciiDecoder hasEFBFBD (B "abc") "latin1"
     = Err (ErrUnsupportedEncoding "latin1").
Proof.
  assert (H : ~ In "latin1"%string ["binary"; "auto"; "utf8mb4"; "gb18030"]%string).
  { intros [H|[H|[H|[H|[]]]]]; discriminate. }
  split; [exact H|].
  exact (decodeCharacterSet_unsupported isAscii asciiDecoder hasEFBFBD
           (B "abc") "latin1" H).
Defined.

(** ** The lines of a file *)

(** Every file is a sequence of newline-terminated lines followed by a
    last piece without a newline (possibly empty). *)
Lemma lines_decompose :
  forall data : bytes,
    exists ls last,
      data = linesBytes ls ++ last
      /\ (forall l, In l ls -> ~ In nl l) /\ ~ In nl last.
Proof.
  induction data as [|b data (ls & last & Hd & Hls & Hlast)].
  - exists [], []. repeat split; auto.
  - destruct (Byte.eqb b nl) eqn:E.
    + apply Byte.byte_dec_bl in E. subst b.
      exists ([] :: ls), last. split; [|split].
      * rewrite linesBytes_cons, Hd. reflexivity.
      * intros l [<-|Hl]; [intros [] | now apply Hls].
      * exact Hlast.
    + assert (Hb : b <> nl).
      { intros ->. rewrite (Byte.byte_dec_lb (eq_refl nl)) in E. discriminate. }
      destruct ls as [|l ls].
      * exists [], (b :: last). split; [|split].
        -- rewrite Hd. reflexivity.
        -- intros l [].
        -- intros [H|H]; [now apply Hb | now apply Hlast].
      * exists ((b :: l) :: ls), last. split; [|split].
        -- rewrite Hd, !linesBytes_cons. reflexivity.
        -- intros l' [<-|Hl'].
           ++ intros [H|H]; [now apply Hb|].
              exact (Hls l (or_introl eq_refl) H).
           ++ apply Hls. now right.
        -- exact Hlast.
Qed.

(** ** getInsertStatementHeader, in full *)

(** X7. [getInsertStatementHeader] returns the match of the pattern in the
    first newline-terminated line that has one, a text of at least 19
    bytes; it returns nothing exactly when no newline-terminated line of
    the file matches (the text after the last newline is not tried). *)
Theorem getInsertStatementHeader_characterised :
  forall file : bytes,
    exists ls last,
      file = linesBytes ls ++ last
      /\ (forall l, In l ls -> ~ In nl l) /\ ~ In nl last
      /\ ((getInsertStatementHeader file = []
           /\ forall l, In l ls -> FindStringIndex (l ++ [nl]) = None)
          \/ (exists before line after lo hi,
                ls = before ++ line :: after
                /\ (forall l, In l before -> FindStringIndex (l ++ [nl]) = None)
                /\ FindStringIndex (line ++ [nl]) = Some (lo, hi)
                /\ getInsertStatementHeader file
                   = firstn (hi - lo) (skipn lo (line ++ [nl]))
                /\ 19 <= len (getInsertStatementHeader file))).
Proof.
  intros file. destruct (lines_decompose file) as (ls & last & -> & Hls & Hlast).
  exists ls, last. split; [reflexivity|]. split; [exact Hls|].
  split; [exact Hlast|].
  assert (H : (forall l, In l ls -> FindStringIndex (l ++ [nl]) = None)
              \/ exists before line after lo hi,
                   ls = before ++ line :: after
                   /\ (forall l, In l before -> FindStringIndex (l ++ [nl]) = None)
                   /\ FindStringIndex (line ++ [nl]) = Some (lo, hi)).
  { clear Hls. induction ls as [|l ls IH]; [left; intros l []|].
    destruct (FindStringIndex (l ++ [nl])) as [[lo hi]|] eqn:E.
    - right. exists [], l, ls, lo, hi. repeat split; auto. intros l' [].
    - destruct IH as [IH|(before & line & after & lo & hi & -> & Hb & Hm)].
      + left. intros l' [<-|Hl']; auto.
      + right. exists (l :: before), line, after, lo, hi. repeat split; auto.
        intros l' [<-|Hl']; auto. }
  destruct H as [Hnone|(before & line & after & lo & hi & -> & Hb & Hm)].
  - left. split; [|exact Hnone].
    apply getInsertStatementHeader_last_line_ignored; auto.
  - right. exists before, line, after, lo, hi.
    assert (Hh : getInsertStatementHeader
                   (linesBytes (before ++ line :: after) ++ last)
                 = firstn (hi - lo) (skipn lo (line ++ [nl]))).
    { unfold linesBytes. rewrite map_app, concat_app. cbn [map concat].
      fold (linesBytes before). fold (linesBytes after).
      rewrite <- !app_assoc. cbn [app].
      apply getInsertStatementHeader_first_match; auto.
      - intros l Hl. split; [|now apply Hb].
        apply Hls. apply in_or_app. now left.
      - apply Hls. apply in_or_app. right. now left. }
    repeat split; auto.
    rewrite Hh. apply headerOK_len. now apply FindStringIndex_match.
Qed.

(** ** Where a new reader stands *)

(** The first line that is no annotation, if there is one. *)
Lemma annotation_prefix (ls : list bytes) :
  (forall a, In a ls -> isAnnotation (TrimSpace a) = true)
  \/ exists annots line after,
       ls = annots ++ line :: after
       /\ (forall a, In a annots -> isAnnotation (TrimSpace a) = true)
       /\ isAnnotation (TrimSpace line) = false.
Proof.
  induction ls as [|l ls IH]; [left; intros a []|].
  destruct (isAnnotation (TrimSpace l)) eqn:E.
  - destruct IH as [IH|(annots & line & after & -> & Ha & Hl)].
    + left. intros a [<-|Ha]; auto.
    + right. exists (l :: annots), line, after. repeat split; auto.
      intros a [<-|Ha']; auto.
  - right. exists [], l, ls. repeat split; auto; intros a [].
Qed.

(** X8. A reader constructed at an offset inside a file with a header
    skips whole newline-terminated annotation lines and nothing else: it
    stands on the first byte of the first line after them that ends with
    a newline and is no annotation; when no such line follows (only
    annotation lines and a last piece without newline), it stands at the
    end of the file. *)
Theorem NewMDDataReader_skips_annotations_only :
  forall (file : bytes) (off : Z),
    0 <= off <= len file -> len file < 2 ^ 63 ->
    len (getInsertStatementHeader file) <> 0 ->
    exists r annots tail,
      NewMDDataReader file off = Ret (Ok r)
      /\ skipn (Z.to_nat off) file = linesBytes annots ++ tail
      /\ (forall a, In a annots -> ~ In nl a /\ isAnnotation (TrimSpace a) = true)
      /\ ((exists line rest,
             tail = line ++ nl :: rest /\ ~ In nl line
             /\ isAnnotation (TrimSpace line) = false
             /\ Tell r = off + len (linesBytes annots)
             /\ unread (fd r) = tail)
          \/ (~ In nl tail /\ Tell r = len file /\ unread (fd r) = [])).
Proof.
  intros file off Hoff Hsz Hh.
  destruct (NewMDDataReader_returns file off) as [r Hr]; [lia | exact Hh |].
  set (before := firstn (Z.to_nat off) file).
  assert (Hfile : file = before ++ skipn (Z.to_nat off) file).
  { unfold before. symmetry. apply firstn_skipn. }
  assert (Hlen : len before = off).
  { unfold before, len in *. rewrite length_firstn. lia. }
  destruct (lines_decompose (skipn (Z.to_nat off) file))
    as (ls & last & Hd & Hls & Hlast).
  rewrite Hd in Hfile. exists r.
  destruct (annotation_prefix ls) as [Hall|(annots & line & after & -> & Ha & Hl)].
  - exists ls, last. split; [exact Hr|]. split; [exact Hd|].
    assert (Hann : forall a, In a ls ->
                     ~ In nl a /\ isAnnotation (TrimSpace a) = true)
      by (intros a Ha; split; auto).
    split; [exact Hann|]. right.
    rewrite Hfile, <- Hlen in Hr.
    destruct (NewMDDataReader_skips_last_line before ls last r Hr Hann Hlast)
      as [Ht Hu].
    rewrite <- Hfile in Ht. auto.
  - assert (Hann : forall a, In a annots ->
                     ~ In nl a /\ isAnnotation (TrimSpace a) = true).
    { intros a Hin. split; [|now apply Ha].
      apply Hls. apply in_or_app. now left. }
    assert (Hnl : ~ In nl line).
    { apply Hls. apply in_or_app. right. now left. }
    assert (Hsplit : linesBytes (annots ++ line :: after) ++ last
                     = linesBytes annots ++ line ++ nl :: linesBytes after ++ last).
    { unfold linesBytes. rewrite map_app, concat_app. cbn [map concat].
      now rewrite <- !app_assoc. }
    rewrite Hsplit in Hd, Hfile.
    exists annots, (line ++ nl :: linesBytes after ++ last).
    split; [exact Hr|]. split; [exact Hd|]. split; [exact Hann|]. left.
    exists line, (linesBytes after ++ last).
    assert (Hsz' : len (before ++ linesBytes annots ++ line
                        ++ nl :: linesBytes after ++ last) < 2 ^ 63)
      by (rewrite <- Hfile; exact Hsz).
    rewrite Hfile, <- Hlen in Hr.
    destruct (NewMDDataReader_lands_after_annotations before annots line _ r Hr
                Hann Hnl Hl Hsz') as [Ht Hu].
    rewrite Hlen in Ht. auto.
Qed.

(** ** One call of [Read] *)

Lemma readLoop_budget (hdr : bytes) (minSize : Z) :
  forall (lines : list (bytes * bool)) (st st' : loopState),
    readLoop hdr minSize lines st = Ret (st', ExitBudget) ->
    minSize <= readSize st'.
Proof.
  induction lines as [|[raw eof] rest IH]; intros st st' H; cbn [readLoop] in H.
  - discriminate.
  - destruct ((0 <? len (TrimSpace raw)) && isComment (TrimSpace raw)).
    { destruct eof; [discriminate | eauto]. }
    match type of H with (bind ?m _ = _) => destruct m as [st1| |] end;
      cbn [bind] in H; try discriminate.
    cbn [readSize] in H.
    destruct (Z.geb_spec (readSize st1 + len raw) minSize) as [Hge|_].
    { inversion H; subst. cbn. lia. }
    destruct eof; [discriminate | eauto].
Qed.

(** What one call of [Read] does to a reader that [NewMDDataReader]
    returned or that earlier calls have left. *)
Lemma Read_step (r r' : MDDataReader) (minSize : Z) (batch : list bytes)
  (err : option error) (lg : list logEntry) :
  readerOK r -> 0 < minSize < 2 ^ 62 ->
  Read r minSize = Ret (r', (batch, err), lg) ->
  Z.min (Tell r + minSize) (fsize r) <= Tell r' <= fsize r
  /\ fsize r' = fsize r
  /\ (Tell r < fsize r -> err = None)
  /\ (fsize r <= Tell r -> err = Some EOF /\ batch = [] /\ lg = [] /\ r' = r).
Proof.
  intros Hok Hm H. pose proof Hok as (Hh & Hopen & Hsz & Hoff & Hbuf).
  assert (Ht : Tell r = f_off (fd r)).
  { unfold Tell, currOffset, Seek_Current. now rewrite Hopen. }
  rewrite Ht.
  destruct (Z.lt_ge_cases (f_off (fd r)) (fsize r)) as [Hlt|Hge].
  - destruct (Read_loop_returns r minSize Hh) as (st & ex & o & H1 & H2 & _ & Hr).
    rewrite len_unread in Hr by lia.
    destruct (Read_open r minSize st ex o Hopen (conj (proj1 Hoff) Hlt) Hm Hbuf
                H1 H2 (proj1 Hr))
      as (r2 & HR & Hd2 & Ho2 & Hs2 & _ & _ & Hp2).
    rewrite HR in H. inversion H; subst; clear H.
    assert (Ht' : Tell r' = f_off (fd r')).
    { unfold Tell, currOffset, Seek_Current. now rewrite Ho2. }
    rewrite Ht', Hp2. split; [|split; [exact Hs2|split; [reflexivity|lia]]].
    destruct ex.
    + pose proof (readLoop_budget _ _ _ _ _ H1). lia.
    + lia.
  - unfold Read, currOffset, Seek_Current in H. rewrite Hopen in H.
    destruct (Z.geb_spec (f_off (fd r)) (fsize r)) as [_|]; [|lia].
    inversion H; subst; clear H. rewrite Ht.
    split; [lia|]. split; [reflexivity|]. split; [lia|]. auto.
Qed.

(** X9. A call [Read(minSize)] with a positive budget moves the reader
    forward by at least [minSize] bytes or to the end of the file, and
    never beyond the end. *)
Theorem Read_makes_progress :
  forall (r r' : MDDataReader) (minSize : Z) (batch : list bytes)
         (err : option error) (lg : list logEntry),
    readerOK r -> 0 < minSize < 2 ^ 62 ->
    Read r minSize = Ret (r', (batch, err), lg) ->
    Z.min (Tell r + minSize) (fsize r) <= Tell r' <= fsize r.
Proof.
  intros r r' m batch err lg Hok Hm H.
  exact (proj1 (Read_step r r' m batch err lg Hok Hm H)).
Qed.

(** X10. [Read] reports [io.EOF] exactly when the reader stands at the end
    of the file; it then returns no statement, logs nothing and leaves the
    reader as it is.  No other error is ever returned. *)
Theorem Read_EOF_exactly_at_end :
  forall (r r' : MDDataReader) (minSize : Z) (batch : list bytes)
         (err : option error) (lg : list logEntry),
    readerOK r -> 0 < minSize < 2 ^ 62 ->
    Read r minSize = Ret (r', (batch, err), lg) ->
    (err = Some EOF <-> fsize r <= Tell r)
    /\ (err = None \/ err = Some EOF)
    /\ (err = Some EOF -> batch = [] /\ lg = [] /\ r' = r).
Proof.
  intros r r' m batch err lg Hok Hm H.
  destruct (Read_step r r' m batch err lg Hok Hm H) as (_ & _ & Hlt & Hge).
  destruct (Z.lt_ge_cases (Tell r) (fsize r)) as [Hc|Hc].
  - rewrite (Hlt Hc). split; [split; [discriminate | lia]|].
    split; [now left | discriminate].
  - destruct (Hge Hc) as (-> & -> & -> & ->).
    split; [split; auto|]. split; [now right | auto].
Qed.

(** X11. [Read] never changes the header, the recorded size, the start
    offset or the content of the file, and the buffer only grows: after a
    call that did not report [io.EOF] the reader has a buffer, of the size
    it had before or of twice the budget, whichever is larger. *)
Theorem Read_keeps_the_reader :
  forall (r r' : MDDataReader) (minSize : Z) (batch : list bytes)
         (err : option error) (lg : list logEntry),
    Read r minSize = Ret (r', (batch, err), lg) ->
    stmtHeader r' = stmtHeader r /\ fsize r' = fsize r /\ start r' = start r
    /\ f_data (fd r') = f_data (fd r)
    /\ bufferSize r <= bufferSize r'
    /\ (err = None ->
        buffer r' <> None
        /\ bufferSize r' = Z.max (bufferSize r) (shl64 minSize 1)).
Proof.
  intros r r' m batch err lg H. unfold Read in H.
  destruct (currOffset r >=? fsize r).
  { inversion H; subst. repeat split; try lia; congruence. }
  set (ra := acquireBufferReader r (shl64 m 1)) in H.
  assert (Ha : stmtHeader ra = stmtHeader r /\ fsize ra = fsize r
               /\ start ra = start r /\ fd ra = fd r
               /\ bufferSize ra = Z.max (bufferSize r) (shl64 m 1)
               /\ (Z.max (bufferSize r) (shl64 m 1) = bufferSize r
                   \/ buffer ra <> None)).
  { unfold ra, acquireBufferReader.
    destruct (Z.gtb_spec (shl64 m 1) (bufferSize r)); cbn.
    - split; [reflexivity|]. split; [reflexivity|]. split; [reflexivity|].
      split; [reflexivity|]. split; [lia|]. right. discriminate.
    - split; [reflexivity|]. split; [reflexivity|]. split; [reflexivity|].
      split; [reflexivity|]. split; [lia|]. left. lia. }
  destruct Ha as (Hh & Hs & Hst & Hf & Hb & _).
  destruct (add64 m 4096 <? 0); [discriminate|].
  destruct (buffer ra) as [n|] eqn:Hn; [|discriminate].
  assert (Hfields : forall f, f_data f = f_data (fd r) ->
            stmtHeader (set_fd ra f) = stmtHeader r
            /\ fsize (set_fd ra f) = fsize r /\ start (set_fd ra f) = start r
            /\ f_data (fd (set_fd ra f)) = f_data (fd r)
            /\ bufferSize r <= bufferSize (set_fd ra f)
            /\ (err = None ->
                buffer (set_fd ra f) <> None
                /\ bufferSize (set_fd ra f) = Z.max (bufferSize r) (shl64 m 1))).
  { intros f Hd. unfold set_fd. cbn. rewrite Hn.
    split; [exact Hh|]. split; [exact Hs|]. split; [exact Hst|].
    split; [exact Hd|]. split; [lia|]. intros _.
    split; [discriminate | exact Hb]. }
  destruct (f_closed (fd ra)) eqn:Hc.
  { destruct (0 >=? m); [|discriminate]. inversion H; subst r' batch err lg.
    pose proof (Hfields (fd ra)) as Hx. rewrite Hf in Hx.
    replace (set_fd ra (fd r)) with ra in Hx; [now apply Hx|].
    unfold set_fd. rewrite <- Hf. now destruct ra. }
  match type of H with (bind ?x _ = _) =>
    destruct x as [[st ex]| |] end; cbn [bind] in H; try discriminate.
  destruct (flush (stmtHeader ra) st) as [o| |]; cbn [bind] in H;
    try discriminate.
  inversion H; subst r' batch err lg. apply Hfields.
  destruct ex.
  - unfold Seek_Start. rewrite Hc.
    destruct (_ <? 0); cbn [fst f_data]; now rewrite Hf.
  - unfold drained. cbn [f_data]. now rewrite Hf.
Qed.

(** ** Invariants of the loop of [Read] *)

(** A property of the loop state that does not depend on the count of
    bytes read and that [appendLine] keeps, is kept by the loop. *)
Lemma readLoop_preserves (hdr : bytes) (minSize : Z) (I : loopState -> Prop) :
  (forall st z, I st ->
     I {| statement := statement st; out := out st; readSize := z |}) ->
  (forall line st st1, line <> [] -> I st ->
     appendLine hdr line st = Ret st1 -> I st1) ->
  forall (lines : list (bytes * bool)) (st st' : loopState) (ex : loopExit),
    readLoop hdr minSize lines st = Ret (st', ex) -> I st -> I st'.
Proof.
  intros Hz Hline.
  induction lines as [|[raw eof] rest IH]; intros st st' ex H Hst;
    cbn [readLoop] in H.
  - inversion H; subst; exact Hst.
  - destruct ((0 <? len (TrimSpace raw)) && isComment (TrimSpace raw)).
    { destruct eof; [inversion H; subst; exact Hst | eauto]. }
    match type of H with (bind ?m _ = _) => destruct m as [st1| |] eqn:Hm end;
      cbn [bind] in H; try discriminate.
    assert (H1 : I st1).
    { destruct (Z.ltb_spec 0 (len (TrimSpace raw))) as [Hpos|_];
        [|inversion Hm; subst; exact Hst].
      apply (Hline (TrimSpace raw) st st1); auto.
      intros E. rewrite E in Hpos. unfold len in Hpos. simpl in Hpos. lia. }
    pose proof (Hz st1 (readSize st1 + len raw) H1) as H2.
    cbn [readSize] in H.
    destruct (readSize st1 + len raw >=? minSize); [inversion H; subst; exact H2|].
    destruct eof; [inversion H; subst; exact H2|].
    eapply IH; [exact H | exact H2].
Qed.

(** What holds of the empty result and of every flushed loop state, holds
    of what [Read] returns. *)
Lemma Read_returns (r r' : MDDataReader) (minSize : Z) (batch : list bytes)
  (err : option error) (lg : list logEntry)
  (I : loopState -> Prop) (Q : list bytes -> list logEntry -> Prop) :
  Q [] [] ->
  I {| statement := []; out := emptyBatch; readSize := 0 |} ->
  (forall st z, I st ->
     I {| statement := statement st; out := out st; readSize := z |}) ->
  (forall line st st1, line <> [] -> I st ->
     appendLine (stmtHeader r) line st = Ret st1 -> I st1) ->
  (forall st o, I st -> flush (stmtHeader r) st = Ret o -> Q (stmts o) (logs o)) ->
  Read r minSize = Ret (r', (batch, err), lg) ->
  Q batch lg.
Proof.
  intros HQ HI Hz Hline Hflush H. unfold Read in H.
  destruct (currOffset r >=? fsize r); [inversion H; subst; exact HQ|].
  set (ra := acquireBufferReader r (shl64 minSize 1)) in H.
  assert (Hh : stmtHeader ra = stmtHeader r).
  { unfold ra, acquireBufferReader. now destruct (_ >? _). }
  destruct (add64 minSize 4096 <? 0); [discriminate|].
  destruct (buffer ra); [|discriminate].
  destruct (f_closed (fd ra)).
  { destruct (0 >=? minSize); inversion H; subst; exact HQ. }
  rewrite Hh in H.
  match type of H with (bind ?m _ = _) =>
    destruct m as [[st ex]| |] eqn:Hm end; cbn [bind] in H; try discriminate.
  apply (readLoop_preserves (stmtHeader r) minSize I Hz Hline) in Hm; [|exact HI].
  match type of H with (bind ?m _ = _) =>
    destruct m as [o| |] eqn:Ho end; cbn [bind] in H; try discriminate.
  inversion H; subst. exact (Hflush st o Hm Ho).
Qed.

(** [appendLine] leaves the output alone or hands the statement, which
    then ends with [;], to [appendSQL]. *)
Lemma appendLine_cases (hdr line : bytes) (st st1 : loopState) :
  appendLine hdr line st = Ret st1 ->
  (out st1 = out st)
  \/ (exists sql, appendSQL hdr sql (out st) = Ret (out st1)
                  /\ lastByte sql = Some semicolon
                  /\ sql = (if (len (statement st) =? 0)
                                && negb (HasPrefix line hdr)
                            then statement st ++ hdr else statement st) ++ line).
Proof.
  unfold appendLine. intros H.
  match type of H with
    (match lastByte ?s with _ => _ end = _) =>
      destruct (lastByte s) as [c|] eqn:Hl; [|discriminate];
      remember s as sql eqn:Hsql
  end.
  destruct (Byte.eqb c semicolon) eqn:Hc.
  - apply Byte.byte_dec_bl in Hc. subst c.
    destruct (appendSQL hdr sql (out st)) as [o| |] eqn:Ho; cbn [bind] in H;
      try discriminate.
    inversion H; subst st1; cbn [out statement]. right. exists sql.
    split; [exact Ho|]. split; [exact Hl | reflexivity].
  - inversion H; subst st1. now left.
Qed.

(** The statement with the next line added starts with the header. *)
Lemma candidate_starts_with_header (hdr line : bytes) (st : loopState) :
  stmtInv hdr st ->
  exists x,
    (if (len (statement st) =? 0) && negb (HasPrefix line hdr)
     then statement st ++ hdr else statement st) ++ line = hdr ++ x.
Proof.
  intros [E|[x E]]; rewrite E.
  - change (len (@nil byte) =? 0) with true. cbn [andb].
    destruct (HasPrefix line hdr) eqn:Hp; cbn [negb app].
    + apply HasPrefix_app in Hp as [t ->]. now exists t.
    + now exists line.
  - destruct (Z.eqb_spec (len (hdr ++ x)) 0) as [Hz|_]; cbn [andb].
    + apply len_zero in Hz. apply app_eq_nil in Hz as [-> ->].
      exists line. now destruct (negb (HasPrefix line [])).
    + exists (x ++ line). now rewrite app_assoc.
Qed.

Lemma appendSQL_whole_statements (hdr sql : bytes) (o o' : batch) :
  appendSQL hdr sql o = Ret o' ->
  Forall (fun s => exists body, s = hdr ++ body ++ [semicolon]) (stmts o) ->
  Forall (fun s => exists body, s = hdr ++ body ++ [semicolon]) (stmts o').
Proof.
  unfold appendSQL. set (t := TrimSpace sql). intros H Ho.
  destruct (len t =? 0); [inversion H; subst; exact Ho|].
  destruct (HasPrefix t hdr) eqn:Hp; cbn [negb] in H.
  2:{ destruct (len t <? 10); inversion H; subst; exact Ho. }
  destruct (Z.eqb_spec (len t) (len hdr)) as [|Hlen]; [inversion H; subst; exact Ho|].
  apply HasPrefix_app in Hp as [body Hbody].
  assert (Hb : body <> []).
  { intros ->. rewrite app_nil_r in Hbody. now rewrite Hbody in Hlen. }
  destruct (exists_last Hb) as (body' & c & ->).
  destruct (HasSuffix t [semicolon]) eqn:Hs; cbn [negb] in H.
  - inversion H; subst o'; cbn [stmts]. apply Forall_app. split; [exact Ho|].
    constructor; [|constructor].
    apply HasSuffix_app in Hs as [init Hinit].
    rewrite Hbody, app_assoc in Hinit. apply app_inj_tail in Hinit as [_ ->].
    now exists body'.
  - destruct (HasSuffix t [comma]) eqn:Hc.
    + inversion H; subst o'; cbn [stmts]. apply Forall_app. split; [exact Ho|].
      constructor; [|constructor].
      exists body'. rewrite Hbody, app_assoc, setLast_snoc.
      now rewrite <- app_assoc.
    + destruct (len t <? 10); inversion H; subst; exact Ho.
Qed.

(** X12. Every statement that [Read] returns is the header of the reader,
    some bytes, and a [;] of its own: the header alone is never returned,
    and the closing [;] is no byte of the header. *)
Theorem Read_statements_extend_the_header :
  forall (r r' : MDDataReader) (minSize : Z) (batch : list bytes)
         (err : option error) (lg : list logEntry),
    Read r minSize = Ret (r', (batch, err), lg) ->
    forall s, In s batch ->
      exists body, s = stmtHeader r ++ body ++ [semicolon]
                   /\ len (stmtHeader r) < len s.
Proof.
  intros r r' m batch err lg H.
  set (P := fun s : bytes => exists body, s = stmtHeader r ++ body ++ [semicolon]).
  assert (HF : Forall P batch).
  { apply (Read_returns r r' m batch err lg
             (fun st => Forall P (stmts (out st)))
             (fun b _ => Forall P b)); [| | | | |exact H].
    - constructor.
    - constructor.
    - intros st z Hst. exact Hst.
    - intros line st st1 _ Hst Hl.
      destruct (appendLine_cases _ _ _ _ Hl) as [E|(sql & Hs & _)].
      + now rewrite E.
      + exact (appendSQL_whole_statements _ _ _ _ Hs Hst).
    - intros st o Hst Hf. unfold flush in Hf.
      destruct (0 <? len (statement st)).
      + exact (appendSQL_whole_statements _ _ _ _ Hf Hst).
      + inversion Hf; subst; exact Hst. }
  intros s Hs. destruct (proj1 (Forall_forall _ _) HF s Hs) as [body ->].
  exists body. split; [reflexivity|].
  rewrite !len_app. pose proof (len_nonneg body).
  change (len [semicolon]) with 1. lia.
Qed.

(** A candidate that ends with [;] passes both tests of [appendSQL]. *)
Lemma appendSQL_closed_statement (hdr x : bytes) (o : batch) :
  headerOK hdr -> lastByte (hdr ++ x) = Some semicolon ->
  exists o', appendSQL hdr (hdr ++ x) o = Ret o' /\ logs o' = logs o.
Proof.
  intros Hok Hl. pose proof (headerOK_len hdr Hok) as Hlen.
  destruct (headerOK_ends hdr Hok) as (c0 & t0 & t1 & c1 & E0 & E1 & S0 & S1 & _).
  destruct (lastByte_Some _ _ Hl) as [init Hinit].
  assert (Hid : TrimSpace (hdr ++ x) = hdr ++ x).
  { apply (TrimSpace_id (hdr ++ x) c0 semicolon (t0 ++ x) init).
    - now rewrite E0 at 1.
    - exact Hinit.
    - exact S0.
    - reflexivity. }
  unfold appendSQL. rewrite Hid.
  assert (Hl19 : 19 <= len (hdr ++ x)).
  { rewrite len_app. pose proof (len_nonneg x). lia. }
  destruct (Z.eqb_spec (len (hdr ++ x)) 0) as [|_]; [lia|].
  assert (Hp : HasPrefix (hdr ++ x) hdr = true).
  { apply HasPrefix_app. now exists x. }
  rewrite Hp. cbn [negb].
  destruct (len (hdr ++ x) =? len hdr); [now exists o|].
  assert (Hs : HasSuffix (hdr ++ x) [semicolon] = true).
  { apply HasSuffix_app. now exists init. }
  rewrite Hs. cbn [negb]. eexists. split; reflexivity.
Qed.

(** A candidate that starts with the header is emitted, passed over, or
    logged with its last ten bytes. *)
Lemma appendSQL_logs (hdr x : bytes) (o o' : batch) :
  headerOK hdr -> appendSQL hdr (hdr ++ x) o = Ret o' ->
  logs o' = logs o
  \/ exists t, logs o' = logs o ++ [UnexpectEnd t] /\ length t = 10%nat
               /\ stmts o' = stmts o.
Proof.
  intros Hok H. pose proof (headerOK_len hdr Hok) as Hlen.
  destruct (headerOK_ends hdr Hok) as (c0 & t0 & t1 & c1 & E0 & E1 & S0 & S1 & _).
  destruct (TrimSpace_keeps_prefix hdr x c0 c1 t0 t1 E0 E1 S0 S1) as [x' Hx'].
  unfold appendSQL in H. rewrite Hx' in H.
  assert (Hl19 : 19 <= len (hdr ++ x')).
  { rewrite len_app. pose proof (len_nonneg x'). lia. }
  destruct (Z.eqb_spec (len (hdr ++ x')) 0) as [|_]; [lia|].
  assert (Hp : HasPrefix (hdr ++ x') hdr = true).
  { apply HasPrefix_app. now exists x'. }
  rewrite Hp in H. cbn [negb] in H.
  destruct (len (hdr ++ x') =? len hdr); [inversion H; subst; now left|].
  destruct (HasSuffix (hdr ++ x') [semicolon]); cbn [negb] in H;
    [inversion H; subst; now left|].
  destruct (HasSuffix (hdr ++ x') [comma]); [inversion H; subst; now left|].
  destruct (Z.ltb_spec (len (hdr ++ x')) 10) as [|_]; [lia|].
  inversion H; subst o'; cbn [logs stmts]. right. eexists.
  split; [reflexivity|]. split; [|reflexivity].
  rewrite length_skipn. unfold len in Hl19. lia.
Qed.

(** X13. With a header matched by the pattern, one call of [Read] logs at
    most one message, and that one is never about a statement start: it
    reports the ten last bytes of the statement that the end of the call
    has cut off after a byte other than [,] and [;].  Every statement
    closed by a [;] inside the call passes both tests. *)
Theorem Read_logs_at_most_once :
  forall (r r' : MDDataReader) (minSize : Z) (batch : list bytes)
         (err : option error) (lg : list logEntry),
    headerOK (stmtHeader r) ->
    Read r minSize = Ret (r', (batch, err), lg) ->
    lg = [] \/ exists t, lg = [UnexpectEnd t] /\ length t = 10%nat.
Proof.
  intros r r' m batch err lg Hok H.
  apply (Read_returns r r' m batch err lg
           (fun st => stmtInv (stmtHeader r) st /\ logs (out st) = [])
           (fun _ l => l = [] \/ exists t, l = [UnexpectEnd t] /\ length t = 10%nat));
    [| | | | |exact H].
  - now left.
  - split; [now left | reflexivity].
  - intros st z Hst. exact Hst.
  - intros line st st1 Hline [Hinv Hlog] Hl.
    destruct (appendLine_header (stmtHeader r) line st Hok Hline Hinv)
      as (st1' & Hl' & Hinv' & _).
    rewrite Hl in Hl'. inversion Hl'; subst st1'. split; [exact Hinv'|].
    destruct (appendLine_cases _ _ _ _ Hl) as [E|(sql & Hs & Hlast & Hsql)].
    + now rewrite E.
    + destruct (candidate_starts_with_header (stmtHeader r) line st Hinv)
        as [x Hx].
      rewrite Hx in Hsql. subst sql.
      destruct (appendSQL_closed_statement (stmtHeader r) x (out st) Hok Hlast)
        as (o' & Ho' & Hlo').
      rewrite Hs in Ho'. inversion Ho'; subst o'. now rewrite Hlo'.
  - intros st o [Hinv Hlog] Hf. unfold flush in Hf.
    destruct (Z.ltb_spec 0 (len (statement st))) as [Hpos|_].
    + destruct Hinv as [E|[x E]].
      { rewrite E in Hpos. unfold len in Hpos. simpl in Hpos. lia. }
      rewrite E in Hf.
      destruct (appendSQL_logs _ _ _ _ Hok Hf) as [El|(t & El & Ht & _)];
        rewrite El, Hlog; [now left|].
      right. now exists t.
    + inversion Hf; subst. left. exact Hlog.
Qed.

(** ** RegionReader: progress and termination *)

Lemma Tell_readerOK (r : MDDataReader) : readerOK r -> Tell r = f_off (fd r).
Proof.
  intros (_ & Hopen & _). unfold Tell, currOffset, Seek_Current.
  now rewrite Hopen.
Qed.

(** One [RegionReader.Read] on a region reader whose position is that of
    its file reader. *)
Lemma RegionRead_step (rr : RegionReader) (maxBlockSize : Z) :
  readerOK (fileReader rr) -> pos rr = Tell (fileReader rr) ->
  - 2 ^ 63 <= offset rr + size rr < 2 ^ 63 ->
  0 < maxBlockSize < 2 ^ 62 ->
  exists rr' batch err lg,
    RegionRead rr maxBlockSize = Ret (rr', (batch, err), lg)
    /\ readerOK (fileReader rr') /\ pos rr' = Tell (fileReader rr')
    /\ offset rr' = offset rr /\ size rr' = size rr
    /\ fsize (fileReader rr') = fsize (fileReader rr)
    /\ (pos rr < offset rr + size rr -> pos rr < fsize (fileReader rr) ->
        err = None
        /\ Z.min (pos rr + maxBlockSize)
                 (Z.min (offset rr + size rr) (fsize (fileReader rr)))
           <= pos rr')
    /\ (offset rr + size rr <= pos rr \/ fsize (fileReader rr) <= pos rr ->
        rr' = rr /\ batch = [] /\ lg = []
        /\ exists e, err = Some e /\ Cause e = EOF).
Proof.
  intros Hok Hpos Hrange Hm. unfold RegionRead.
  unfold add64. rewrite (wrap64_small _ Hrange).
  destruct (Z.geb_spec (pos rr) (offset rr + size rr)) as [Hge|Hlt].
  { exists rr, [], (Some EOF), []. split; [reflexivity|].
    split; [exact Hok|]. split; [exact Hpos|].
    split; [reflexivity|]. split; [reflexivity|]. split; [reflexivity|].
    split; [lia|]. intros _. split; [reflexivity|]. split; [reflexivity|].
    split; [reflexivity|]. exists EOF. split; reflexivity. }
  pose proof Hok as (_ & _ & Hsz & Hoff & _).
  pose proof (Tell_readerOK _ Hok) as Ht. rewrite Ht in Hpos.
  unfold sub64. rewrite wrap64_small by lia.
  set (readSize := if maxBlockSize <? offset rr + size rr - pos rr
                   then maxBlockSize else offset rr + size rr - pos rr).
  assert (Hrs : 0 < readSize < 2 ^ 62).
  { unfold readSize.
    destruct (Z.ltb_spec maxBlockSize (offset rr + size rr - pos rr)); lia. }
  assert (Hmin : readSize = Z.min maxBlockSize (offset rr + size rr - pos rr)).
  { unfold readSize.
    destruct (Z.ltb_spec maxBlockSize (offset rr + size rr - pos rr)); lia. }
  destruct (Read_readerOK (fileReader rr) readSize Hok Hrs)
    as (r' & batch & err & lg & HR & Hok' & _).
  destruct (Read_step (fileReader rr) r' readSize batch err lg Hok Hrs HR)
    as (Hprog & Hfs & Hnone & Heof).
  rewrite HR. cbn [bind].
  eexists. exists batch, (option_Trace err), lg. split; [reflexivity|].
  cbn [fileReader offset size pos].
  split; [exact Hok'|]. split; [reflexivity|].
  split; [reflexivity|]. split; [reflexivity|]. split; [exact Hfs|].
  rewrite Ht in Hprog, Hnone, Heof. split.
  - intros _ Hin. rewrite (Hnone ltac:(lia)). split; [reflexivity|]. lia.
  - intros [Hc|Hc]; [lia|].
    destruct (Heof ltac:(lia)) as (-> & -> & -> & ->).
    split; [|split; [reflexivity|split; [reflexivity|]]].
    + rewrite Ht, <- Hpos. now destruct rr.
    + exists (Trace EOF). split; reflexivity.
Qed.

(** X14. A [RegionReader.Read] with a positive block size on a reader that
    has neither reached the end of its region nor the end of the file
    reports no error and advances: by the block size, or to the end of the
    region or of the file when that is nearer. *)
Theorem RegionReader_Read_advances :
  forall (rr rr' : RegionReader) (maxBlockSize : Z) (batch : list bytes)
         (err : option error) (lg : list logEntry),
    readerOK (fileReader rr) -> pos rr = Tell (fileReader rr) ->
    - 2 ^ 63 <= offset rr + size rr < 2 ^ 63 ->
    0 < maxBlockSize < 2 ^ 62 ->
    RegionTell rr < offset rr + size rr ->
    RegionTell rr < fsize (fileReader rr) ->
    RegionRead rr maxBlockSize = Ret (rr', (batch, err), lg) ->
    err = None
    /\ RegionTell rr < RegionTell rr'
    /\ Z.min (RegionTell rr + maxBlockSize)
             (Z.min (offset rr + size rr) (fsize (fileReader rr)))
       <= RegionTell rr'.
Proof.
  intros rr rr' m batch err lg Hok Hpos Hrange Hm Hreg Hfile H.
  unfold RegionTell in *.
  destruct (RegionRead_step rr m Hok Hpos Hrange Hm)
    as (rr2 & batch2 & err2 & lg2 & H2 & _ & _ & _ & _ & _ & Hadv & _).
  rewrite H2 in H. inversion H; subst.
  destruct (Hadv Hreg Hfile) as [-> Hle]. split; [reflexivity|]. lia.
Qed.

Lemma RegionReads_reach_the_end :
  forall (sizes : list Z) (rr : RegionReader),
    readerOK (fileReader rr) -> pos rr = Tell (fileReader rr) ->
    - 2 ^ 63 <= offset rr + size rr < 2 ^ 63 ->
    Forall (fun maxBlockSize => 0 < maxBlockSize < 2 ^ 62) sizes ->
    Z.min (offset rr + size rr) (fsize (fileReader rr)) - pos rr
    <= Z.of_nat (length sizes) ->
    exists rr',
      RegionReads rr sizes = Ret rr'
      /\ readerOK (fileReader rr') /\ pos rr' = Tell (fileReader rr')
      /\ offset rr' = offset rr /\ size rr' = size rr
      /\ fsize (fileReader rr') = fsize (fileReader rr)
      /\ (offset rr + size rr <= pos rr' \/ fsize (fileReader rr) <= pos rr').
Proof.
  induction sizes as [|m sizes IH]; intros rr Hok Hpos Hrange Hsizes Hn.
  - exists rr. split; [reflexivity|]. split; [exact Hok|]. split; [exact Hpos|].
    split; [reflexivity|]. split; [reflexivity|]. split; [reflexivity|].
    cbn [length] in Hn. lia.
  - apply Forall_cons_iff in Hsizes as [Hm Hrest].
    destruct (RegionRead_step rr m Hok Hpos Hrange Hm)
      as (rr1 & batch & err & lg & H1 & Hok1 & Hpos1 & Ho1 & Hs1 & Hf1
          & Hadv & Hend).
    cbn [RegionReads]. rewrite H1. cbn [bind fst].
    assert (Hn1 : Z.min (offset rr1 + size rr1) (fsize (fileReader rr1)) - pos rr1
                  <= Z.of_nat (length sizes)).
    { rewrite Ho1, Hs1, Hf1.
      destruct (Z.lt_ge_cases (pos rr) (offset rr + size rr)) as [Ha|Ha];
        [destruct (Z.lt_ge_cases (pos rr) (fsize (fileReader rr))) as [Hb|Hb]|].
      - destruct (Hadv Ha Hb) as [_ Hle].
        cbn [length] in Hn. lia.
      - destruct (Hend (or_intror Hb)) as (-> & _). lia.
      - destruct (Hend (or_introl Ha)) as (-> & _). lia. }
    rewrite <- Ho1, <- Hs1 in Hrange.
    destruct (IH rr1 Hok1 Hpos1 Hrange Hrest Hn1)
      as (rr' & H & Hok' & Hpos' & Ho' & Hs' & Hf' & Hat).
    exists rr'. split; [exact H|]. split; [exact Hok'|]. split; [exact Hpos'|].
    split; [congruence|]. split; [congruence|]. split; [congruence|].
    rewrite <- Ho1, <- Hs1, <- Hf1. exact Hat.
Qed.

(** X15. Reading a region block by block comes to an end: after as many
    [Read] calls with positive block sizes as there are bytes between the
    position and the nearer of the end of the region and the end of the
    file, every further [Read] returns no statement and an error whose
    cause is [io.EOF], and does not move the reader. *)
Theorem RegionReader_reads_come_to_EOF :
  forall (rr : RegionReader) (sizes : list Z),
    readerOK (fileReader rr) -> pos rr = Tell (fileReader rr) ->
    - 2 ^ 63 <= offset rr + size rr < 2 ^ 63 ->
    Forall (fun maxBlockSize => 0 < maxBlockSize < 2 ^ 62) sizes ->
    Z.min (offset rr + size rr) (fsize (fileReader rr)) - RegionTell rr
    <= Z.of_nat (length sizes) ->
    exists rr',
      RegionReads rr sizes = Ret rr'
      /\ forall maxBlockSize, 0 < maxBlockSize < 2 ^ 62 ->
           exists e,
             RegionRead rr' maxBlockSize = Ret (rr', ([], Some e), [])
             /\ Cause e = EOF.
Proof.
  intros rr sizes Hok Hpos Hrange Hsizes Hn.
  destruct (RegionReads_reach_the_end sizes rr Hok Hpos Hrange Hsizes Hn)
    as (rr' & H & Hok' & Hpos' & Ho' & Hs' & Hf' & Hat).
  exists rr'. split; [exact H|]. intros m Hm.
  rewrite <- Ho', <- Hs' in Hrange. rewrite <- Ho', <- Hs', <- Hf' in Hat.
  destruct (RegionRead_step rr' m Hok' Hpos' Hrange Hm)
    as (rr2 & batch & err & lg & H2 & _ & _ & _ & _ & _ & _ & Hend).
  destruct (Hend Hat) as (-> & -> & -> & e & -> & He).
  exists e. split; [exact H2 | exact He].
Qed.

(** ** A reader after [Close] *)

Lemma shl64_double (m : Z) : - 2 ^ 62 <= m < 2 ^ 62 -> shl64 m 1 = 2 * m.
Proof.
  intros H. unfold shl64. rewrite Z.shiftl_mul_pow2 by lia.
  rewrite wrap64_small; lia.
Qed.

(** X16. A reader that has been closed is of no use: [Tell] answers -1,
    [Seek] panics on the empty line it is given, a [Read] with a positive
    budget never returns (every [ReadBytes] fails with an error that is
    not [io.EOF] and counts no byte), and a [Read] with a budget that is
    not positive panics on the buffer that [Close] has dropped. *)
Theorem closed_reader_is_of_no_use :
  forall r : MDDataReader,
    f_closed (fd r) = false -> 0 <= fsize r ->
    exists r1,
      Close r = (r1, None)
      /\ Tell r1 = -1
      /\ (forall p, Seek r1 p = Panic SliceBounds)
      /\ (forall m, 0 < m < 2 ^ 62 -> Read r1 m = Diverge)
      /\ (forall m, -4096 <= m <= 0 -> Read r1 m = Panic NilReader).
Proof.
  intros r Hopen Hsz. unfold Close, File_Close. rewrite Hopen.
  eexists. split; [reflexivity|].
  split; [reflexivity|]. split; [reflexivity|]. split.
  - intros m Hm. unfold Read, currOffset, Seek_Current.
    cbn [fd f_closed fsize].
    destruct (Z.geb_spec (-1) (fsize r)) as [|_]; [lia|].
    unfold acquireBufferReader. cbn [bufferSize].
    rewrite shl64_double by lia.
    destruct (Z.gtb_spec (2 * m) 0) as [_|]; [|lia].
    cbn [buffer fd f_closed].
    unfold add64. rewrite wrap64_small by lia.
    destruct (Z.ltb_spec (m + 4096) 0) as [|_]; [lia|].
    destruct (Z.geb_spec 0 m) as [|_]; [lia | reflexivity].
  - intros m Hm. unfold Read, currOffset, Seek_Current.
    cbn [fd f_closed fsize].
    destruct (Z.geb_spec (-1) (fsize r)) as [|_]; [lia|].
    unfold acquireBufferReader. cbn [bufferSize].
    rewrite shl64_double by lia.
    destruct (Z.gtb_spec (2 * m) 0) as [|_]; [lia|].
    cbn [buffer].
    unfold add64. rewrite wrap64_small by lia.
    destruct (Z.ltb_spec (m + 4096) 0) as [|_]; [lia | reflexivity].
Qed.

(** ** Seek *)

Lemma scanAnnotation_stops (line rest : bytes) (z : Z) :
  ~ In nl line -> isAnnotation (TrimSpace line) = false ->
  scanAnnotation (readLines (line ++ nl :: rest) []) z = Some z.
Proof.
  intros Hnl Hl. rewrite (readLines_line line rest [] Hnl).
  cbn [app scanAnnotation]. now rewrite firstn_without_last, Hl.
Qed.

Lemma scanAnnotation_last (last : bytes) (z : Z) :
  ~ In nl last -> scanAnnotation (readLines last []) z = None.
Proof. intros Hnl. now rewrite (readLines_last last [] Hnl). Qed.

(** X17. [Seek(p)] does not look at the file at [p]: it reads on from
    where the reader stands, passes the annotation lines it finds there,
    and then places the reader at [p] plus the bytes of those lines, or at
    the end of the file if that is nearer, and returns this position. *)
Theorem Seek_adds_the_annotations_at_the_current_position :
  forall (r : MDDataReader) (p : Z) (annots : list bytes) (line rest : bytes),
    readerOK r -> 0 <= p -> p + fsize r < 2 ^ 63 ->
    unread (fd r) = linesBytes annots ++ line ++ nl :: rest ->
    (forall a, In a annots -> ~ In nl a /\ isAnnotation (TrimSpace a) = true) ->
    ~ In nl line -> isAnnotation (TrimSpace line) = false ->
    exists r',
      Seek r p = Ret (r', Z.min (p + len (linesBytes annots)) (fsize r))
      /\ Tell r' = Z.min (p + len (linesBytes annots)) (fsize r)
      /\ readerOK r'
      /\ f_data (fd r') = f_data (fd r) /\ stmtHeader r' = stmtHeader r.
Proof.
  intros r p annots line rest Hok Hp Hrange Hun Hann Hnl Hline.
  pose proof Hok as (Hh & Hopen & Hsz & Hoff & Hbuf).
  pose proof (len_nonneg (linesBytes annots)) as Ha.
  assert (Hskip : len (linesBytes annots) <= fsize r).
  { pose proof (len_unread (fd r) ltac:(lia)) as Hl.
    rewrite Hun, len_app in Hl. pose proof (len_nonneg (line ++ nl :: rest)). lia. }
  unfold Seek, skipAnnotation. rewrite Hopen, Hun.
  rewrite (scanAnnotation_passes annots _ Hann 0).
  rewrite (scanAnnotation_stops line rest _ Hnl Hline). cbn [Z.add].
  unfold add64. rewrite wrap64_small by lia.
  set (target := if p + len (linesBytes annots) >? fsize r then fsize r
                 else p + len (linesBytes annots)).
  assert (Ht : target = Z.min (p + len (linesBytes annots)) (fsize r)).
  { unfold target. destruct (Z.gtb_spec (p + len (linesBytes annots)) (fsize r)); lia. }
  unfold Seek_Start. rewrite Hopen.
  destruct (Z.ltb_spec target 0) as [|_]; [lia|].
  exists (set_fd r {| f_data := f_data (fd r); f_off := target;
                      f_closed := false |}).
  split; [|split; [|split; [|split; reflexivity]]].
  - unfold currOffset, Seek_Current, set_fd. cbn [fd f_closed f_off].
    now rewrite Ht.
  - unfold Tell, currOffset, Seek_Current, set_fd. cbn [fd f_closed f_off].
    exact Ht.
  - unfold readerOK, set_fd. cbn [fd f_closed f_off f_data stmtHeader fsize
                                    buffer bufferSize].
    split; [exact Hh|]. split; [reflexivity|]. split; [exact Hsz|].
    split; [lia | exact Hbuf].
Qed.

(** X18. When the reader has only annotation lines and a last piece
    without newline in front of it, in particular at the end of the file,
    [Seek] takes it to the end of the file and returns the size of the
    file, whatever position it was asked for. *)
Theorem Seek_near_the_end_ignores_its_argument :
  forall (r : MDDataReader) (p : Z) (annots : list bytes) (last : bytes),
    readerOK r ->
    unread (fd r) = linesBytes annots ++ last ->
    (forall a, In a annots -> ~ In nl a /\ isAnnotation (TrimSpace a) = true) ->
    ~ In nl last ->
    exists r',
      Seek r p = Ret (r', fsize r)
      /\ Tell r' = fsize r /\ unread (fd r') = [] /\ readerOK r'.
Proof.
  intros r p annots last Hok Hun Hann Hnl.
  pose proof Hok as (Hh & Hopen & Hsz & Hoff & Hbuf).
  unfold Seek, skipAnnotation. rewrite Hopen, Hun.
  rewrite (scanAnnotation_passes annots _ Hann 0).
  rewrite (scanAnnotation_last last _ Hnl).
  assert (Hmax : Z.max (f_off (fd r)) (len (f_data (fd r))) = fsize r) by lia.
  exists (set_fd r (drained (fd r))). split; [|split; [|split]].
  - unfold currOffset, Seek_Current, set_fd, drained.
    cbn [fd f_closed f_off f_data]. now rewrite Hopen, Hmax.
  - unfold Tell, currOffset, Seek_Current, set_fd, drained.
    cbn [fd f_closed f_off f_data]. now rewrite Hopen, Hmax.
  - unfold unread, set_fd, drained. cbn [fd f_off f_data].
    rewrite Hmax, Hsz. unfold len. rewrite Nat2Z.id. apply skipn_all.
  - unfold readerOK, set_fd, drained.
    cbn [fd f_closed f_off f_data stmtHeader fsize buffer bufferSize].
    split; [exact Hh|]. split; [exact Hopen|]. split; [exact Hsz|].
    split; [lia | exact Hbuf].
Qed.

(** ** Comment lines and the position *)

Lemma isComment_nonempty (t : bytes) :
  isComment t = true -> (0 <? len t) = true.
Proof.
  destruct t as [|b t]; [discriminate|]. intros _.
  apply Z.ltb_lt. unfold len. cbn [length]. lia.
Qed.

(** X19. The bytes of a comment line are read but not counted: a [Read]
    whose budget is met by the line after a comment line moves the reader
    by the length of that line only, so that the reader is left inside
    the lines it has consumed, short of their end by the length of the
    comment line. *)
Theorem Read_does_not_count_comment_lines :
  forall (r : MDDataReader) (minSize : Z) (comment line rest : bytes),
    readerOK r ->
    unread (fd r) = comment ++ nl :: line ++ nl :: rest ->
    ~ In nl comment -> ~ In nl line ->
    isComment (TrimSpace comment) = true ->
    isComment (TrimSpace line) = false ->
    0 < minSize <= len line + 1 -> minSize < 2 ^ 62 ->
    exists r' batch lg,
      Read r minSize = Ret (r', (batch, None), lg)
      /\ Tell r' = Tell r + (len line + 1)
      /\ unread (fd r')
         = skipn (length line + 1) (comment ++ nl :: line ++ nl :: rest).
Proof.
  intros r m c L rest Hok Hun Hnc HnL Hc HL Hm Hm62.
  pose proof Hok as (Hh & Hopen & Hsz & Hoff & Hbuf).
  pose proof (len_nonneg c) as Hlc. pose proof (len_nonneg L) as HlL.
  pose proof (len_nonneg rest) as Hlr.
  assert (HlenL : len (L ++ [nl]) = len L + 1).
  { rewrite len_app. reflexivity. }
  assert (Hrem : len (f_data (fd r)) - f_off (fd r)
                 = len c + 1 + (len L + 1 + len rest)).
  { rewrite <- (len_unread (fd r)) by lia. rewrite Hun.
    rewrite len_app. change (nl :: L ++ nl :: rest) with ([nl] ++ L ++ [nl] ++ rest).
    rewrite !len_app. change (len [nl]) with 1. lia. }
  set (st0 := {| statement := []; out := emptyBatch; readSize := 0 |}).
  assert (Hloop : exists st o,
            readLoop (stmtHeader r) m (readLines (unread (fd r)) []) st0
            = Ret (st, ExitBudget)
            /\ readSize st = len L + 1
            /\ flush (stmtHeader r) st = Ret o).
  { rewrite Hun, (readLines_line c _ [] Hnc), (readLines_line L rest [] HnL).
    cbn [app readLoop]. rewrite !TrimSpace_newline.
    rewrite Hc, (isComment_nonempty _ Hc). cbn [andb].
    rewrite HL, andb_false_r.
    assert (H1 : exists st1,
              (if 0 <? len (TrimSpace L)
               then appendLine (stmtHeader r) (TrimSpace L) st0 else Ret st0)
              = Ret st1
              /\ stmtInv (stmtHeader r) st1 /\ readSize st1 = 0).
    { destruct (Z.ltb_spec 0 (len (TrimSpace L))) as [Hpos|_].
      - destruct (appendLine_header (stmtHeader r) (TrimSpace L) st0 Hh)
          as (st1 & H1 & Hi1 & _ & Hr1).
        + intros E. rewrite E in Hpos. unfold len in Hpos. simpl in Hpos. lia.
        + now left.
        + exists st1. split; [exact H1|]. split; [exact Hi1 | exact Hr1].
      - exists st0. split; [reflexivity|]. split; [now left | reflexivity]. }
    destruct H1 as (st1 & -> & Hi1 & Hr1). cbn [bind readSize].
    rewrite Hr1, HlenL.
    destruct (Z.geb_spec (0 + (len L + 1)) m) as [_|]; [|lia].
    destruct (flush_header (stmtHeader r)
                {| statement := statement st1; out := out st1;
                   readSize := 0 + (len L + 1) |} Hh) as (o & Ho & _).
    { exact Hi1. }
    eexists. exists o. split; [reflexivity|]. split; [cbn; lia | exact Ho]. }
  destruct Hloop as (st & o & Hl & Hrs & Ho).
  destruct (Read_open r m st ExitBudget o Hopen ltac:(lia) ltac:(lia) Hbuf Hl Ho
              ltac:(lia))
    as (r' & HR & Hd' & Ho' & _ & _ & _ & Hp').
  exists r', (stmts o), (logs o). split; [exact HR|].
  assert (Ht : Tell r = f_off (fd r)) by (now apply Tell_readerOK).
  assert (Ht' : Tell r' = f_off (fd r')).
  { unfold Tell, currOffset, Seek_Current. now rewrite Ho'. }
  split; [rewrite Ht, Ht', Hp', Hrs; reflexivity|].
  rewrite <- Hun. unfold unread. rewrite Hd', Hp', Hrs, skipn_skipn.
  f_equal. unfold len. lia.
Qed.

(** ** NewRegionReader *)

Lemma linesLen_nonneg (lines : list (bytes * bool)) : 0 <= linesLen lines.
Proof.
  induction lines as [|l rest IH]; [unfold linesLen; simpl; lia|].
  change (linesLen (l :: rest)) with (len (fst l) + linesLen rest).
  pose proof (len_nonneg (fst l)). lia.
Qed.

(** [skipAnnotation] skips no more than it has read. *)
Lemma scanAnnotation_bounds :
  forall (lines : list (bytes * bool)) (z s : Z),
    scanAnnotation lines z = Some s -> z <= s <= z + linesLen lines.
Proof.
  induction lines as [|[line eof] rest IH]; intros z s H; cbn [scanAnnotation] in H.
  - discriminate.
  - change (linesLen ((line, eof) :: rest)) with (len line + linesLen rest).
    pose proof (linesLen_nonneg rest) as Hr. pose proof (len_nonneg line) as Hl.
    destruct eof; [discriminate|].
    destruct (negb (isAnnotation (TrimSpace (firstn (length line - 1) line)))).
    + inversion H; subst. lia.
    + apply IH in H. unfold len in *. lia.
Qed.

Lemma NewMDDataReader_not_before_offset (file : bytes) (off : Z) (r : MDDataReader) :
  NewMDDataReader file off = Ret (Ok r) ->
  0 <= off <= len file -> len file < 2 ^ 63 ->
  off <= f_off (fd r).
Proof.
  unfold NewMDDataReader, Seek_Start. cbn [os_Open f_closed f_data f_off].
  destruct (Z.ltb_spec off 0) as [|_]; [discriminate|].
  cbn [stmtHeader].
  destruct (len (getInsertStatementHeader file) =? 0); [discriminate|].
  unfold skipAnnotation. cbn [fd f_closed bind fst fsize].
  intros H Hoff Hsz. inversion H; subst; clear H.
  unfold set_fd. cbn [fd].
  match goal with |- context [scanAnnotation ?l 0] =>
    destruct (scanAnnotation l 0) as [skipSize|] eqn:Hs end.
  - apply scanAnnotation_bounds in Hs. rewrite linesLen_readLines in Hs.
    rewrite len_unread in Hs by (cbn [f_off f_data]; lia).
    cbn [f_off f_data] in Hs. change (len (@nil byte)) with 0 in Hs.
    unfold add64. rewrite wrap64_small by lia.
    unfold Seek_Start. cbn [f_closed f_data f_off].
    destruct (Z.gtb_spec (off + skipSize) (len file)) as [|_]; [lia|].
    destruct (Z.ltb_spec (off + skipSize) 0) as [|_]; [lia|].
    cbn [f_off]. lia.
  - unfold drained. cbn [f_off f_data]. lia.
Qed.

(** X20. [NewRegionReader] at an offset that is not beyond the end of the
    file has three outcomes.  A negative offset is refused with the error
    of the seek, traced twice.  A file without a header is refused with
    [ErrInsertStatementNotFound], traced once.  Otherwise a region reader
    is returned that keeps the offset and the size it was given and
    stands, like its file reader, at or after that offset and inside the
    file; the size of the region is not compared with the file. *)
Theorem NewRegionReader_outcomes :
  forall (file : bytes) (off sz : Z),
    off <= len file -> len file < 2 ^ 63 ->
    (off < 0
     /\ NewRegionReader file off sz = Ret (Err (Trace (Trace EINVAL))))
    \/ (0 <= off /\ getInsertStatementHeader file = []
        /\ NewRegionReader file off sz
           = Ret (Err (Trace ErrInsertStatementNotFound)))
    \/ (0 <= off
        /\ exists rr,
             NewRegionReader file off sz = Ret (Ok rr)
             /\ offset rr = off /\ RegionSize rr = sz
             /\ off <= RegionTell rr <= len file
             /\ RegionTell rr = Tell (fileReader rr)
             /\ readerOK (fileReader rr)
             /\ f_data (fd (fileReader rr)) = file).
Proof.
  intros file off sz Hoff Hsz.
  destruct (Z.lt_ge_cases off 0) as [Hneg|Hpos].
  { left. split; [exact Hneg|].
    unfold NewRegionReader, NewMDDataReader, Seek_Start.
    cbn [os_Open f_closed f_data f_off].
    destruct (Z.ltb_spec off 0) as [_|]; [reflexivity | lia]. }
  right.
  destruct (Z.eq_dec (len (getInsertStatementHeader file)) 0) as [Hz|Hh].
  { left. split; [exact Hpos|]. split; [now apply len_zero|].
    unfold NewRegionReader, NewMDDataReader, Seek_Start.
    cbn [os_Open f_closed f_data f_off].
    destruct (Z.ltb_spec off 0) as [|_]; [lia|]. cbn [stmtHeader].
    rewrite Hz. reflexivity. }
  right. split; [exact Hpos|].
  destruct (NewMDDataReader_returns file off Hpos Hh) as [r Hr].
  destruct (NewMDDataReader_readerOK file off r Hr Hoff) as (Hok & Hdata & _).
  pose proof (NewMDDataReader_not_before_offset file off r Hr (conj Hpos Hoff) Hsz)
    as Hge.
  pose proof (Tell_readerOK r Hok) as Ht.
  pose proof Hok as (_ & _ & Hfs & Hrange & _). rewrite Hdata in Hfs.
  exists {| fileReader := r; offset := off; size := sz; pos := Tell r |}.
  unfold NewRegionReader. rewrite Hr. cbn [bind].
  split; [reflexivity|]. unfold RegionSize, RegionTell.
  cbn [offset size pos fileReader].
  split; [reflexivity|]. split; [reflexivity|]. split; [lia|].
  split; [reflexivity|]. split; [exact Hok | exact Hdata].
Qed.

(** ** The further properties at sample inputs *)

Lemma no_newline (s : bytes) :
  forallb (fun b => negb (Byte.eqb b nl)) s = true -> ~ In nl s.
Proof.
  intros H Hin. rewrite forallb_forall in H. specialize (H nl Hin).
  rewrite (Byte.byte_dec_lb (eq_refl nl)) in H. discriminate.
Qed.

Lemma openReader_ok (file : bytes) (off : Z) :
  len (getInsertStatementHeader file) <> 0 -> 0 <= off <= len file ->
  readerOK (openReader file off).
Proof.
  intros Hh Hoff. unfold readerOK, openReader.
  cbn [fd f_closed f_off f_data stmtHeader fsize buffer bufferSize].
  split; [now apply getInsertStatementHeader_ok|].
  split; [reflexivity|]. split; [reflexivity|]. split; [exact Hoff | lia].
Qed.

Lemma bufferedReader_ok (file : bytes) (off size : Z) :
  len (getInsertStatementHeader file) <> 0 -> 0 <= off <= len file ->
  readerOK (bufferedReader file off size).
Proof.
  intros Hh Hoff. unfold readerOK, bufferedReader.
  cbn [fd f_closed f_off f_data stmtHeader fsize buffer bufferSize].
  split; [now apply getInsertStatementHeader_ok|].
  split; [reflexivity|]. split; [reflexivity|]. split; [exact Hoff|].
  discriminate.
Qed.

Lemma dump4Reader_ok : readerOK dump4Reader.
Proof.
  replace dump4Reader with (openReader dump4 0) by (vm_compute; reflexivity).
  apply openReader_ok; [vm_compute; discriminate|].
  split; vm_compute; discriminate.
Qed.

Lemma dump4ReaderAtEnd_ok : readerOK dump4ReaderAtEnd.
Proof.
  replace dump4ReaderAtEnd with (bufferedReader dump4 36 200)
    by (vm_compute; reflexivity).
  apply bufferedReader_ok; [vm_compute; discriminate|].
  split; vm_compute; discriminate.
Qed.

Lemma schemaLines_open :
  forall x, In x schemaLines -> ~ In nl x /\ openEnded (TrimSpace x).
Proof.
  intros x [<-|[<-|[<-|[]]]];
    (split; [apply no_newline; reflexivity | vm_compute; discriminate]).
Qed.

Lemma ExportStatement_one_statement_witness :
  (forall x, In x schemaLines -> ~ In nl x /\ openEnded (TrimSpace x))
  /\ ~ In nl (B ");  ")
  /\ lastByte (TrimSpace (B ");  ")) = Some semicolon
  /\ exportData (linesBytes schemaLines ++ B ");  " ++ nl :: schemaRest)
     = d <- exportData schemaRest ;;
       Ret (keepStatement (linesBytes (nonBlank schemaLines)
                           ++ TrimSpace (B ");  ")) ++ d).
Proof.
  assert (H2 : ~ In nl (B ");  ")) by (apply no_newline; reflexivity).
  assert (H3 : lastByte (TrimSpace (B ");  ")) = Some semicolon)
    by (vm_compute; reflexivity).
  split; [exact schemaLines_open|]. split; [exact H2|]. split; [exact H3|].
  exact (ExportStatement_one_statement schemaLines (B ");  ") schemaRest
           schemaLines_open H2 H3).
Defined.

Lemma ExportStatement_drops_unfinished_statement_witness :
  (forall x, In x schemaLines -> ~ In nl x /\ openEnded (TrimSpace x))
  /\ ~ In nl (B ")") /\ openEnded (B ")")
  /\ exportData (linesBytes schemaLines ++ B ")") = Ret [].
Proof.
  assert (H2 : ~ In nl (B ")")) by (apply no_newline; reflexivity).
  assert (H3 : openEnded (B ")")) by (vm_compute; discriminate).
  split; [exact schemaLines_open|]. split; [exact H2|]. split; [exact H3|].
  exact (ExportStatement_drops_unfinished_statement schemaLines (B ")")
           schemaLines_open H2 H3).
Defined.

Lemma ExportStatement_last_line_verbatim_witness :
  (forall x, In x schemaLines -> ~ In nl x /\ openEnded (TrimSpace x))
  /\ ~ In nl (B ");") /\ lastByte (B ");") = Some semicolon
  /\ exportData (linesBytes schemaLines ++ B ");")
     = Ret (keepStatement (linesBytes (nonBlank schemaLines) ++ B ");")).
Proof.
  assert (H2 : ~ In nl (B ");")) by (apply no_newline; reflexivity).
  assert (H3 : lastByte (B ");") = Some semicolon) by (vm_compute; reflexivity).
  split; [exact schemaLines_open|]. split; [exact H2|]. split; [exact H3|].
  exact (ExportStatement_last_line_verbatim schemaLines (B ");")
           schemaLines_open H2 H3).
Defined.

Lemma NewMDDataReader_skips_annotations_only_witness :
  0 <= 0 <= len dumpAnnotated
  /\ len dumpAnnotated < 2 ^ 63
  /\ len (getInsertStatementHeader dumpAnnotated) <> 0
  /\ exists r annots tail,
       NewMDDataReader dumpAnnotated 0 = Ret (Ok r)
       /\ skipn (Z.to_nat 0) dumpAnnotated = linesBytes annots ++ tail
       /\ (forall a, In a annots -> ~ In nl a /\ isAnnotation (TrimSpace a) = true)
       /\ ((exists line rest,
              tail = line ++ nl :: rest /\ ~ In nl line
              /\ isAnnotation (TrimSpace line) = false
              /\ Tell r = 0 + len (linesBytes annots)
              /\ unread (fd r) = tail)
           \/ (~ In nl tail /\ Tell r = len dumpAnnotated /\ unread (fd r) = [])).
Proof.
  assert (H1 : 0 <= 0 <= len dumpAnnotated) by (split; vm_compute; discriminate).
  assert (H2 : len dumpAnnotated < 2 ^ 63) by (vm_compute; reflexivity).
  assert (H3 : len (getInsertStatementHeader dumpAnnotated) <> 0)
    by (vm_compute; discriminate).
  split; [exact H1|]. split; [exact H2|]. split; [exact H3|].
  exact (NewMDDataReader_skips_annotations_only dumpAnnotated 0 H1 H2 H3).
Defined.

Lemma Read_makes_progress_witness :
  readerOK dump4Reader /\ 0 < 10 < 2 ^ 62
  /\ Read dump4Reader 10 = Ret (bufferedReader dump4 21 20, ([], None), [])
  /\ Z.min (Tell dump4Reader + 10) (fsize dump4Reader)
     <= Tell (bufferedReader dump4 21 20) <= fsize dump4Reader.
Proof.
  assert (H2 : 0 < 10 < 2 ^ 62) by lia.
  assert (H3 : Read dump4Reader 10
               = Ret (bufferedReader dump4 21 20, ([], None), []))
    by (vm_compute; reflexivity).
  split; [exact dump4Reader_ok|]. split; [exact H2|]. split; [exact H3|].
  exact (Read_makes_progress dump4Reader (bufferedReader dump4 21 20) 10
           [] None [] dump4Reader_ok H2 H3).
Defined.

Lemma Read_EOF_exactly_at_end_witness :
  readerOK dump4ReaderAtEnd /\ 0 < 10 < 2 ^ 62
  /\ Read dump4ReaderAtEnd 10 = Ret (dump4ReaderAtEnd, ([], Some EOF), [])
  /\ (Some EOF = Some EOF <-> fsize dump4ReaderAtEnd <= Tell dump4ReaderAtEnd)
  /\ (Some EOF = None \/ Some EOF = Some EOF)
  /\ (Some EOF = Some EOF ->
      @nil bytes = [] /\ @nil logEntry = [] /\ dump4ReaderAtEnd = dump4ReaderAtEnd).
Proof.
  assert (H2 : 0 < 10 < 2 ^ 62) by lia.
  assert (H3 : Read dump4ReaderAtEnd 10
               = Ret (dump4ReaderAtEnd, ([], Some EOF), []))
    by (vm_compute; reflexivity).
  split; [exact dump4ReaderAtEnd_ok|]. split; [exact H2|]. split; [exact H3|].
  exact (Read_EOF_exactly_at_end dump4ReaderAtEnd dump4ReaderAtEnd 10
           [] (Some EOF) [] dump4ReaderAtEnd_ok H2 H3).
Defined.

Lemma Read_keeps_the_reader_witness :
  Read dump4Reader 100
  = Ret (dump4ReaderAtEnd, ([B "INSERT INTO t VALUES(1),(2),(3);"], None), [])
  /\ stmtHeader dump4ReaderAtEnd = stmtHeader dump4Reader
  /\ fsize dump4ReaderAtEnd = fsize dump4Reader
  /\ start dump4ReaderAtEnd = start dump4Reader
  /\ f_data (fd dump4ReaderAtEnd) = f_data (fd dump4Reader)
  /\ bufferSize dump4Reader <= bufferSize dump4ReaderAtEnd
  /\ (@None error = None ->
      buffer dump4ReaderAtEnd <> None
      /\ bufferSize dump4ReaderAtEnd
         = Z.max (bufferSize dump4Reader) (shl64 100 1)).
Proof.
  assert (H1 : Read dump4Reader 100
               = Ret (dump4ReaderAtEnd,
                      ([B "INSERT INTO t VALUES(1),(2),(3);"], None), []))
    by (vm_compute; reflexivity).
  split; [exact H1|].
  exact (Read_keeps_the_reader dump4Reader dump4ReaderAtEnd 100
           [B "INSERT INTO t VALUES(1),(2),(3);"] None [] H1).
Defined.

Lemma Read_statements_extend_the_header_witness :
  Read dump4Reader 100
  = Ret (dump4ReaderAtEnd, ([B "INSERT INTO t VALUES(1),(2),(3);"], None), [])
  /\ In (B "INSERT INTO t VALUES(1),(2),(3);")
        [B "INSERT INTO t VALUES(1),(2),(3);"]
  /\ exists body,
       B "INSERT INTO t VALUES(1),(2),(3);"
       = stmtHeader dump4Reader ++ body ++ [semicolon]
       /\ len (stmtHeader dump4Reader) < len (B "INSERT INTO t VALUES(1),(2),(3);").
Proof.
  assert (H1 : Read dump4Reader 100
               = Ret (dump4ReaderAtEnd,
                      ([B "INSERT INTO t VALUES(1),(2),(3);"], None), []))
    by (vm_compute; reflexivity).
  assert (H2 : In (B "INSERT INTO t VALUES(1),(2),(3);")
                  [B "INSERT INTO t VALUES(1),(2),(3);"])
    by (left; reflexivity).
  split; [exact H1|]. split; [exact H2|].
  exact (Read_statements_extend_the_header dump4Reader dump4ReaderAtEnd 100
           [B "INSERT INTO t VALUES(1),(2),(3);"] None [] H1
           (B "INSERT INTO t VALUES(1),(2),(3);") H2).
Defined.

Lemma Read_logs_at_most_once_witness :
  headerOK (stmtHeader (openReader dumpCut 0))
  /\ Read (openReader dumpCut 0) 100
     = Ret (bufferedReader dumpCut 30 200, ([], None),
            [UnexpectEnd (B "UES(1),(2)")])
  /\ ([UnexpectEnd (B "UES(1),(2)")] = []
      \/ exists t, [UnexpectEnd (B "UES(1),(2)")] = [UnexpectEnd t]
                   /\ length t = 10%nat).
Proof.
  assert (H1 : headerOK (stmtHeader (openReader dumpCut 0))).
  { apply getInsertStatementHeader_ok. vm_compute. discriminate. }
  assert (H2 : Read (openReader dumpCut 0) 100
               = Ret (bufferedReader dumpCut 30 200, ([], None),
                      [UnexpectEnd (B "UES(1),(2)")]))
    by (vm_compute; reflexivity).
  split; [exact H1|]. split; [exact H2|].
  exact (Read_logs_at_most_once (openReader dumpCut 0)
           (bufferedReader dumpCut 30 200) 100 [] None
           [UnexpectEnd (B "UES(1),(2)")] H1 H2).
Defined.

Lemma RegionReader_Read_advances_witness :
  readerOK (fileReader dump4Region)
  /\ pos dump4Region = Tell (fileReader dump4Region)
  /\ - 2 ^ 63 <= offset dump4Region + size dump4Region < 2 ^ 63
  /\ 0 < 100 < 2 ^ 62
  /\ RegionTell dump4Region < offset dump4Region + size dump4Region
  /\ RegionTell dump4Region < fsize (fileReader dump4Region)
  /\ RegionRead dump4Region 100
     = Ret ({| fileReader := bufferedReader dump4 21 10;
               offset := 0; size := 5; pos := 21 |}, ([], None), [])
  /\ @None error = None
  /\ RegionTell dump4Region
     < RegionTell {| fileReader := bufferedReader dump4 21 10;
                     offset := 0; size := 5; pos := 21 |}
  /\ Z.min (RegionTell dump4Region + 100)
           (Z.min (offset dump4Region + size dump4Region)
                  (fsize (fileReader dump4Region)))
     <= RegionTell {| fileReader := bufferedReader dump4 21 10;
                      offset := 0; size := 5; pos := 21 |}.
Proof.
  assert (H2 : pos dump4Region = Tell (fileReader dump4Region)) by reflexivity.
  assert (H3 : - 2 ^ 63 <= offset dump4Region + size dump4Region < 2 ^ 63)
    by (cbn; lia).
  assert (H4 : 0 < 100 < 2 ^ 62) by lia.
  assert (H5 : RegionTell dump4Region < offset dump4Region + size dump4Region)
    by (cbn; lia).
  assert (H6 : RegionTell dump4Region < fsize (fileReader dump4Region))
    by (cbn; lia).
  assert (H7 : RegionRead dump4Region 100
               = Ret ({| fileReader := bufferedReader dump4 21 10;
                         offset := 0; size := 5; pos := 21 |}, ([], None), []))
    by (vm_compute; reflexivity).
  split; [exact dump4Reader_ok|]. split; [exact H2|]. split; [exact H3|].
  split; [exact H4|]. split; [exact H5|]. split; [exact H6|]. split; [exact H7|].
  exact (RegionReader_Read_advances dump4Region
           {| fileReader := bufferedReader dump4 21 10;
              offset := 0; size := 5; pos := 21 |} 100 [] None []
           dump4Reader_ok H2 H3 H4 H5 H6 H7).
Defined.

Lemma RegionReader_reads_come_to_EOF_witness :
  readerOK (fileReader dump4Region)
  /\ pos dump4Region = Tell (fileReader dump4Region)
  /\ - 2 ^ 63 <= offset dump4Region + size dump4Region < 2 ^ 63
  /\ Forall (fun maxBlockSize => 0 < maxBlockSize < 2 ^ 62) [100; 7; 7; 7; 7]
  /\ Z.min (offset dump4Region + size dump4Region)
           (fsize (fileReader dump4Region)) - RegionTell dump4Region
     <= Z.of_nat (length [100; 7; 7; 7; 7])
  /\ exists rr',
       RegionReads dump4Region [100; 7; 7; 7; 7] = Ret rr'
       /\ forall maxBlockSize, 0 < maxBlockSize < 2 ^ 62 ->
            exists e,
              RegionRead rr' maxBlockSize = Ret (rr', ([], Some e), [])
              /\ Cause e = EOF.
Proof.
  assert (H2 : pos dump4Region = Tell (fileReader dump4Region)) by reflexivity.
  assert (H3 : - 2 ^ 63 <= offset dump4Region + size dump4Region < 2 ^ 63)
    by (cbn; lia).
  assert (H4 : Forall (fun maxBlockSize => 0 < maxBlockSize < 2 ^ 62)
                 [100; 7; 7; 7; 7]) by (repeat constructor; lia).
  assert (H5 : Z.min (offset dump4Region + size dump4Region)
                     (fsize (fileReader dump4Region)) - RegionTell dump4Region
               <= Z.of_nat (length [100; 7; 7; 7; 7])) by (cbn; lia).
  split; [exact dump4Reader_ok|]. split; [exact H2|]. split; [exact H3|].
  split; [exact H4|]. split; [exact H5|].
  exact (RegionReader_reads_come_to_EOF dump4Region [100; 7; 7; 7; 7]
           dump4Reader_ok H2 H3 H4 H5).
Defined.

Lemma closed_reader_is_of_no_use_witness :
  f_closed (fd dump4Reader) = false /\ 0 <= fsize dump4Reader
  /\ exists r1,
       Close dump4Reader = (r1, None)
       /\ Tell r1 = -1
       /\ (forall p, Seek r1 p = Panic SliceBounds)
       /\ (forall m, 0 < m < 2 ^ 62 -> Read r1 m = Diverge)
       /\ (forall m, -4096 <= m <= 0 -> Read r1 m = Panic NilReader).
Proof.
  assert (H1 : f_closed (fd dump4Reader) = false) by reflexivity.
  assert (H2 : 0 <= fsize dump4Reader) by (cbn; lia).
  split; [exact H1|]. split; [exact H2|].
  exact (closed_reader_is_of_no_use dump4Reader H1 H2).
Defined.

Lemma Seek_adds_the_annotations_at_the_current_position_witness :
  readerOK (openReader dumpAnnotated 0)
  /\ 0 <= 3 /\ 3 + fsize (openReader dumpAnnotated 0) < 2 ^ 63
  /\ unread (fd (openReader dumpAnnotated 0))
     = linesBytes [B "/*A*/;"; B "/*B*/;"]
       ++ B "INSERT INTO t VALUES" ++ nl :: textFile ["(1),"; "(2);"]%string
  /\ (forall a, In a [B "/*A*/;"; B "/*B*/;"] ->
        ~ In nl a /\ isAnnotation (TrimSpace a) = true)
  /\ ~ In nl (B "INSERT INTO t VALUES")
  /\ isAnnotation (TrimSpace (B "INSERT INTO t VALUES")) = false
  /\ exists r',
       Seek (openReader dumpAnnotated 0) 3
       = Ret (r', Z.min (3 + len (linesBytes [B "/*A*/;"; B "/*B*/;"]))
                        (fsize (openReader dumpAnnotated 0)))
       /\ Tell r' = Z.min (3 + len (linesBytes [B "/*A*/;"; B "/*B*/;"]))
                          (fsize (openReader dumpAnnotated 0))
       /\ readerOK r'
       /\ f_data (fd r') = f_data (fd (openReader dumpAnnotated 0))
       /\ stmtHeader r' = stmtHeader (openReader dumpAnnotated 0).
Proof.
  assert (H1 : readerOK (openReader dumpAnnotated 0)).
  { apply openReader_ok; [vm_compute; discriminate|].
    split; vm_compute; discriminate. }
  assert (H2 : 0 <= 3) by lia.
  assert (H3 : 3 + fsize (openReader dumpAnnotated 0) < 2 ^ 63)
    by (vm_compute; reflexivity).
  assert (H4 : unread (fd (openReader dumpAnnotated 0))
               = linesBytes [B "/*A*/;"; B "/*B*/;"]
                 ++ B "INSERT INTO t VALUES"
                 ++ nl :: textFile ["(1),"; "(2);"]%string)
    by (vm_compute; reflexivity).
  assert (H5 : forall a, In a [B "/*A*/;"; B "/*B*/;"] ->
                 ~ In nl a /\ isAnnotation (TrimSpace a) = true).
  { intros a [<-|[<-|[]]];
      (split; [apply no_newline; reflexivity | vm_compute; reflexivity]). }
  assert (H6 : ~ In nl (B "INSERT INTO t VALUES"))
    by (apply no_newline; reflexivity).
  assert (H7 : isAnnotation (TrimSpace (B "INSERT INTO t VALUES")) = false)
    by (vm_compute; reflexivity).
  split; [exact H1|]. split; [exact H2|]. split; [exact H3|]. split; [exact H4|].
  split; [exact H5|]. split; [exact H6|]. split; [exact H7|].
  exact (Seek_adds_the_annotations_at_the_current_position
           (openReader dumpAnnotated 0) 3 [B "/*A*/;"; B "/*B*/;"]
           (B "INSERT INTO t VALUES") (textFile ["(1),"; "(2);"]%string)
           H1 H2 H3 H4 H5 H6 H7).
Defined.

Lemma Seek_near_the_end_ignores_its_argument_witness :
  readerOK dump4ReaderAtEnd
  /\ unread (fd dump4ReaderAtEnd) = linesBytes [] ++ []
  /\ (forall a, In a [] -> ~ In nl a /\ isAnnotation (TrimSpace a) = true)
  /\ ~ In nl []
  /\ exists r',
       Seek dump4ReaderAtEnd 0 = Ret (r', fsize dump4ReaderAtEnd)
       /\ Tell r' = fsize dump4ReaderAtEnd /\ unread (fd r') = []
       /\ readerOK r'.
Proof.
  assert (H2 : unread (fd dump4ReaderAtEnd) = linesBytes [] ++ [])
    by (vm_compute; reflexivity).
  assert (H3 : forall a : bytes, In a [] ->
                 ~ In nl a /\ isAnnotation (TrimSpace a) = true)
    by (intros a []).
  assert (H4 : ~ In nl []) by (intros []).
  split; [exact dump4ReaderAtEnd_ok|]. split; [exact H2|]. split; [exact H3|].
  split; [exact H4|].
  exact (Seek_near_the_end_ignores_its_argument dump4ReaderAtEnd 0 [] []
           dump4ReaderAtEnd_ok H2 H3 H4).
Defined.

Lemma Read_does_not_count_comment_lines_witness :
  readerOK (openReader dumpCommentFirst 0)
  /\ unread (fd (openReader dumpCommentFirst 0))
     = B "/* c */" ++ nl :: B "INSERT INTO t VALUES" ++ nl :: textFile ["(1);"]%string
  /\ ~ In nl (B "/* c */") /\ ~ In nl (B "INSERT INTO t VALUES")
  /\ isComment (TrimSpace (B "/* c */")) = true
  /\ isComment (TrimSpace (B "INSERT INTO t VALUES")) = false
  /\ 0 < 10 <= len (B "INSERT INTO t VALUES") + 1 /\ 10 < 2 ^ 62
  /\ exists r' batch lg,
       Read (openReader dumpCommentFirst 0) 10 = Ret (r', (batch, None), lg)
       /\ Tell r' = Tell (openReader dumpCommentFirst 0)
                    + (len (B "INSERT INTO t VALUES") + 1)
       /\ unread (fd r')
          = skipn (length (B "INSERT INTO t VALUES") + 1)
              (B "/* c */" ++ nl :: B "INSERT INTO t VALUES"
               ++ nl :: textFile ["(1);"]%string).
Proof.
  assert (H1 : readerOK (openReader dumpCommentFirst 0)).
  { apply openReader_ok; [vm_compute; discriminate|].
    split; vm_compute; discriminate. }
  assert (H2 : unread (fd (openReader dumpCommentFirst 0))
               = B "/* c */" ++ nl :: B "INSERT INTO t VALUES"
                 ++ nl :: textFile ["(1);"]%string)
    by (vm_compute; reflexivity).
  assert (H3 : ~ In nl (B "/* c */")) by (apply no_newline; reflexivity).
  assert (H4 : ~ In nl (B "INSERT INTO t VALUES"))
    by (apply no_newline; reflexivity).
  assert (H5 : isComment (TrimSpace (B "/* c */")) = true)
    by (vm_compute; reflexivity).
  assert (H6 : isComment (TrimSpace (B "INSERT INTO t VALUES")) = false)
    by (vm_compute; reflexivity).
  assert (H7 : 0 < 10 <= len (B "INSERT INTO t VALUES") + 1)
    by (split; vm_compute; congruence).
  assert (H8 : 10 < 2 ^ 62) by lia.
  split; [exact H1|]. split; [exact H2|]. split; [exact H3|]. split; [exact H4|].
  split; [exact H5|]. split; [exact H6|]. split; [exact H7|]. split; [exact H8|].
  exact (Read_does_not_count_comment_lines (openReader dumpCommentFirst 0) 10
           (B "/* c */") (B "INSERT INTO t VALUES") (textFile ["(1);"]%string)
           H1 H2 H3 H4 H5 H6 H7 H8).
Defined.

Lemma NewRegionReader_outcomes_witness :
  0 <= len dumpAnnotated /\ len dumpAnnotated < 2 ^ 63
  /\ ((0 < 0
       /\ NewRegionReader dumpAnnotated 0 20 = Ret (Err (Trace (Trace EINVAL))))
      \/ (0 <= 0 /\ getInsertStatementHeader dumpAnnotated = []
          /\ NewRegionReader dumpAnnotated 0 20
             = Ret (Err (Trace ErrInsertStatementNotFound)))
      \/ (0 <= 0
          /\ exists rr,
               NewRegionReader dumpAnnotated 0 20 = Ret (Ok rr)
               /\ offset rr = 0 /\ RegionSize rr = 20
               /\ 0 <= RegionTell rr <= len dumpAnnotated
               /\ RegionTell rr = Tell (fileReader rr)
               /\ readerOK (fileReader rr)
               /\ f_data (fd (fileReader rr)) = dumpAnnotated)).
Proof.
  assert (H1 : 0 <= len dumpAnnotated) by (vm_compute; discriminate).
  assert (H2 : len dumpAnnotated < 2 ^ 63) by (vm_compute; reflexivity).
  split; [exact H1|]. split; [exact H2|].
  exact (NewRegionReader_outcomes dumpAnnotated 0 20 H1 H2).
Defined.
